(** * Fitness-tracker dashboard ([FTA.py])

    Loader, filter pipeline, product rankings and recommendation engine.

    The script is a straight line of data-frame operations.  A data frame is
    embedded as the list of its rows; a cell of a text column as a string.
    The three columns that the loader cleans are read from the text of their
    cells by the frame's own numeral reader, and come out as a column of
    64-bit signed integers, of 64-bit unsigned integers or of binary64
    floats, as the frame decides from the whole column; the discount is
    computed in that type, with its wrap-around.  A row of the loaded table
    keeps the binary64 value of each numeric cell, with [nan] as the
    "no value" marker: every later operation of the script is an order
    comparison, a division or a mean, which the frame computes on that
    value.

    The frame operations the script calls ([to_numeric], [replace],
    [fillna], [cut], [isin], [max], [nlargest], boolean-mask selection) are
    written out in [Module Pandas]; the script itself is [Module FTA], in
    the order of the source.  [Module Series] adds [idxmax], [unique] and
    [value_counts], and [Module Pages] the remaining computations of the
    summary, feature-analysis and deep-dive pages.  The lemmas follow, and
    the properties of the dashboard close the file. *)

From Stdlib Require Import Floats ZArith List Bool String Ascii Sorted Lia.
From Stdlib Require Import Permutation.
Import ListNotations.

Set Warnings "-inexact-float".

(* ------------------------------------------------------------------ *)
(** * Frame operations used by the script *)

Module Pandas.

Open Scope float_scope.

(** A cell as [read_csv] hands it over: text (a column that did not parse
    as numbers keeps its cells as strings) or a float, the cell of a
    [float64] column and the missing cell, [nan], of a text column.  A
    column that [read_csv] types as whole numbers is given by the text of
    its numerals: [to_numeric] below types it again as it was, with the same
    values. *)
Inductive Cell : Type :=
| Text (s : string)
| Numeric (x : float).

Inductive Exn : Type :=
| ValueError (msg : string).

(** Calls that may raise return [Exn + A]. *)
Definition bind {A B : Type} (m : Exn + A) (k : A -> Exn + B) : Exn + B :=
  match m with
  | inl e => inl e
  | inr a => k a
  end.

Notation "x <- m ;; k" := (bind m (fun x => k))
  (at level 61, m at next level, right associativity).

(** [Series.replace({',': ''}, regex=True)]: every comma of a text cell is
    deleted; cells that are not text are left as they are. *)
Fixpoint remove_commas (s : string) : string :=
  match s with
  | EmptyString => EmptyString
  | String c rest =>
      if Ascii.eqb c "," then remove_commas rest
      else String c (remove_commas rest)
  end.

Definition replace_commas (c : Cell) : Cell :=
  match c with
  | Text s => Text (remove_commas s)
  | Numeric x => Numeric x
  end.

(** ** Reading a numeral

    [to_numeric] reads a text cell with the string-to-double routine of the
    library's tokenizer, [precise_xstrtod] behind [to_double]: blanks, a
    sign, integer digits, a decimal point with decimal digits, an exponent,
    blanks, end of text.  The first 17 digits are accumulated in floating
    point ([number * 10 + digit]); further integer digits only raise the
    decimal exponent and further decimal digits are dropped.  The value is
    scaled by a power of ten taken from a table of the doubles [1e0] to
    [1e308].  A text cell is a field of the file and holds no zero byte. *)

Definition is_digit (c : ascii) : bool :=
  (48 <=? nat_of_ascii c)%nat && (nat_of_ascii c <=? 57)%nat.

Definition digit (c : ascii) : Z := Z.of_nat (nat_of_ascii c - 48).

Definition digit_value (c : ascii) : float :=
  of_uint63 (Uint63.of_Z (digit c)).

(** Blank, tab, line feed, vertical tab, form feed, carriage return. *)
Definition is_space (c : ascii) : bool :=
  Ascii.eqb c " "
  || ((9 <=? nat_of_ascii c)%nat && (nat_of_ascii c <=? 13)%nat).

Fixpoint skip_spaces (s : string) : string :=
  match s with
  | String c rest => if is_space c then skip_spaces rest else s
  | EmptyString => s
  end.

Definition is_sign (c : ascii) : bool := Ascii.eqb c "-" || Ascii.eqb c "+".

Definition read_sign (s : string) : bool * string :=
  match s with
  | String c rest =>
      if Ascii.eqb c "-" then (true, rest)
      else if Ascii.eqb c "+" then (false, rest)
      else (false, s)
  | EmptyString => (false, s)
  end.

(** The double nearest to an integer, ties to even: the conversion of an
    integer to [float64], and the value of a decimal literal [1eK]. *)
Definition float_of_Z (z : Z) : float :=
  SF2Prim (binary_normalize prec emax z 0%Z false).

Arguments float_of_Z : simpl never.

(** The [float64] value of a whole number below 2^53 in magnitude, as sign,
    53-bit mantissa and exponent. *)
Definition whole_mantissa (u : positive) : positive :=
  Z.to_pos (Zpos u * 2 ^ (53 - Zpos (digits2_pos u))).

Definition whole_exponent (u : positive) : Z := Zpos (digits2_pos u) - 53.

Definition SF_of_Z (z : Z) : spec_float :=
  match z with
  | Z0 => S754_zero false
  | Zpos u => S754_finite false (whole_mantissa u) (whole_exponent u)
  | Zneg u => S754_finite true (whole_mantissa u) (whole_exponent u)
  end.

(** The table [e] of the doubles [1e0] ... [1e308]. *)
Definition power_of_ten (k : Z) : float := float_of_Z (10 ^ k)%Z.

Definition max_digits : nat := 17.

(** Integer digits: value, digits counted, decimal exponent, rest. *)
Fixpoint read_integer_part (s : string) (number : float) (num_digits : nat)
  (exponent : Z) : float * nat * Z * string :=
  match s with
  | String c rest =>
      if is_digit c then
        if (num_digits <? max_digits)%nat
        then read_integer_part rest (number * 10 + digit_value c)
               (S num_digits) exponent
        else read_integer_part rest number num_digits (exponent + 1)%Z
      else (number, num_digits, exponent, s)
  | EmptyString => (number, num_digits, exponent, s)
  end.

Fixpoint read_decimals (s : string) (number : float)
  (num_digits num_decimals : nat) : float * nat * nat * string :=
  match s with
  | String c rest =>
      if (num_digits <? max_digits)%nat && is_digit c
      then read_decimals rest (number * 10 + digit_value c)
             (S num_digits) (S num_decimals)
      else (number, num_digits, num_decimals, s)
  | EmptyString => (number, num_digits, num_decimals, s)
  end.

Fixpoint skip_digits (s : string) : string :=
  match s with
  | String c rest => if is_digit c then skip_digits rest else s
  | EmptyString => s
  end.

(** The decimal part; the last component tells whether the text can still
    be an integer (no decimal point so far). *)
Definition read_decimal_part (s : string) (number : float) (num_digits : nat)
  (exponent : Z) : float * nat * Z * bool * string :=
  match s with
  | String c rest =>
      if Ascii.eqb c "." then
        let '(number, num_digits, num_decimals, s') :=
          read_decimals rest number num_digits 0%nat in
        let s' :=
          if (max_digits <=? num_digits)%nat then skip_digits s' else s' in
        (number, num_digits, (exponent - Z.of_nat num_decimals)%Z, false, s')
      else (number, num_digits, exponent, true, s)
  | EmptyString => (number, num_digits, exponent, true, s)
  end.

(** The exponent is a C [int]: it wraps at 32 bits. *)
Definition wrap_int32 (z : Z) : Z := ((z + 2 ^ 31) mod 2 ^ 32 - 2 ^ 31)%Z.

Fixpoint read_exponent_digits (s : string) (n : Z) (num_digits : nat)
  : Z * nat * string :=
  match s with
  | String c rest =>
      if (num_digits <? max_digits)%nat && is_digit c
      then read_exponent_digits rest (wrap_int32 (n * 10 + digit c)%Z)
             (S num_digits)
      else (n, num_digits, s)
  | EmptyString => (n, num_digits, s)
  end.

Definition is_sci (c : ascii) : bool := Ascii.eqb c "e" || Ascii.eqb c "E".

(** The exponent part.  Without a digit after the [E] and its sign the
    scan steps one character back, and that character is left over. *)
Definition read_exponent_part (s : string) (exponent : Z) (maybe_int : bool)
  : Z * bool * string :=
  match s with
  | String c rest =>
      if is_sci c then
        let '(negative, digits) := read_sign rest in
        let '(n, num_digits, s') := read_exponent_digits digits 0%Z 0%nat in
        let exponent :=
          wrap_int32 (if negative then exponent - n else exponent + n)%Z in
        match num_digits with
        | O =>
            (exponent, false,
             match rest with
             | String sign _ => if is_sign sign then rest else s
             | EmptyString => s
             end)
        | S _ => (exponent, false, s')
        end
      else (exponent, maybe_int, s)
  | EmptyString => (exponent, maybe_int, s)
  end.

(** Scaling by the decimal exponent; an exponent over 308 is a range
    error. *)
Definition scale (number : float) (exponent : Z) : option float :=
  if (308 <? exponent)%Z then None
  else if (0 <? exponent)%Z then Some (number * power_of_ten exponent)
  else if (exponent <? -308)%Z then
    if (exponent <? -616)%Z then Some 0
    else Some (number / power_of_ten (-308 - exponent)%Z / power_of_ten 308)
  else Some (number / power_of_ten (- exponent)%Z).

(** [to_double]: the value and whether the text can be an integer; [None]
    when there is no digit, on a range error, when the value overflows, or
    when something is left over. *)
Definition to_double (s : string) : option (float * bool) :=
  let '(negative, s1) := read_sign (skip_spaces s) in
  let '(number, num_digits, exponent, s2) :=
    read_integer_part s1 0 0%nat 0%Z in
  let '(number, num_digits, exponent, maybe_int, s3) :=
    read_decimal_part s2 number num_digits exponent in
  if (num_digits =? 0)%nat then None
  else
    let number := if negative then - number else number in
    let '(exponent, maybe_int, s4) :=
      read_exponent_part s3 exponent maybe_int in
    match scale number exponent with
    | None => None
    | Some number =>
        if is_infinity number then None
        else
          match skip_spaces s4 with
          | EmptyString => Some (number, maybe_int)
          | String _ _ => None
          end
    end.

Definition lower (c : ascii) : ascii :=
  let n := nat_of_ascii c in
  if (65 <=? n)%nat && (n <=? 90)%nat then ascii_of_nat (n + 32) else c.

Fixpoint lowercase (s : string) : string :=
  match s with
  | EmptyString => EmptyString
  | String c rest => String (lower c) (lowercase rest)
  end.

(** [strcasecmp(s, word) == 0] for a lower-case [word]. *)
Definition strcasecmp (s word : string) : bool :=
  String.eqb (lowercase s) word.

(** [floatify]: [to_double], then the words for infinity. *)
Definition floatify (s : string) : option (float * bool) :=
  match to_double s with
  | Some r => Some r
  | None =>
      if strcasecmp s "inf" || strcasecmp s "+inf"
         || strcasecmp s "infinity" || strcasecmp s "+infinity"
      then Some (infinity, false)
      else if strcasecmp s "-inf" || strcasecmp s "-infinity"
      then Some (neg_infinity, false)
      else None
  end.

(** [int(s)] on the texts that reach it: blanks, a sign, digits, blanks. *)
Fixpoint read_int_digits (s : string) (n : Z) (count : nat)
  : Z * nat * string :=
  match s with
  | String c rest =>
      if is_digit c then read_int_digits rest (n * 10 + digit c)%Z (S count)
      else (n, count, s)
  | EmptyString => (n, count, s)
  end.

Definition python_int (s : string) : option Z :=
  let '(negative, s1) := read_sign (skip_spaces s) in
  let '(n, count, s2) := read_int_digits s1 0%Z 0%nat in
  if (count =? 0)%nat then None
  else
    match skip_spaces s2 with
    | EmptyString => Some (if negative then - n else n)%Z
    | String _ _ => None
    end.

(** ** [pd.to_numeric(column, errors='coerce')]

    The conversion loop looks at every cell: a float is kept, an empty or
    unreadable text becomes [nan], a text read as an integer within the
    64-bit range is seen as that integer, any other numeral as its float
    value.  The column comes out as [float64] if any cell was seen as a
    float or if negative integers meet integers over the [int64] range, as
    [uint64] if some integer is over the [int64] range, as [int64]
    otherwise. *)

Definition INT64_MIN : Z := (- 2 ^ 63)%Z.
Definition INT64_MAX : Z := (2 ^ 63 - 1)%Z.
Definition UINT64_MAX : Z := (2 ^ 64 - 1)%Z.

Inductive Seen : Type :=
| SeenFloat (x : float)
| SeenInt (z : Z) (x : float).

Definition scan (c : Cell) : Seen :=
  match c with
  | Numeric x => SeenFloat x
  | Text EmptyString => SeenFloat nan
  | Text s =>
      match floatify s with
      | None => SeenFloat nan
      | Some (x, false) => SeenFloat x
      | Some (x, true) =>
          match python_int s with
          | None => SeenFloat nan
          | Some z =>
              if (INT64_MIN <=? z)%Z && (z <=? UINT64_MAX)%Z
              then SeenInt z x
              else SeenFloat x
          end
      end
  end.

Inductive Dtype : Type :=
| Int64
| UInt64
| Float64.

(** A cell of a typed column. *)
Inductive Number : Type :=
| I64 (z : Z)
| U64 (z : Z)
| F64 (x : float).

Definition saw_float (x : Seen) : bool :=
  match x with
  | SeenFloat _ => true
  | SeenInt _ _ => false
  end.

Definition saw_sint (x : Seen) : bool :=
  match x with
  | SeenInt z _ => (z <? 0)%Z
  | SeenFloat _ => false
  end.

Definition saw_uint (x : Seen) : bool :=
  match x with
  | SeenInt z _ => (INT64_MAX <? z)%Z
  | SeenFloat _ => false
  end.

Definition result_type (seen : list Seen) : Dtype :=
  if existsb saw_float seen
     || (existsb saw_uint seen && existsb saw_sint seen)
  then Float64
  else if existsb saw_uint seen then UInt64
  else Int64.

Definition astype (d : Dtype) (x : Seen) : Number :=
  match x, d with
  | SeenInt z _, Int64 => I64 z
  | SeenInt z _, UInt64 => U64 z
  | SeenInt _ x, Float64 => F64 x
  | SeenFloat x, _ => F64 x
  end.

(** What [to_numeric(column)] holds in the place of cell [c]. *)
Definition convert (column : list Cell) (c : Cell) : Number :=
  astype (result_type (map scan column)) (scan c).

Definition to_numeric (column : list Cell) : list Number :=
  map (convert column) column.

(** ** Arithmetic on typed columns, cell by cell

    Two [int64] cells, two [uint64] cells, and an integer scalar with
    either, are combined in that type, which wraps around; every other
    combination converts both sides to [float64].  True division always
    does. *)

Definition to_float (n : Number) : float :=
  match n with
  | I64 z | U64 z => float_of_Z z
  | F64 x => x
  end.

Definition wrap_int64 (z : Z) : Z := ((z + 2 ^ 63) mod 2 ^ 64 - 2 ^ 63)%Z.
Definition wrap_uint64 (z : Z) : Z := (z mod 2 ^ 64)%Z.

Definition sub (a b : Number) : Number :=
  match a, b with
  | I64 x, I64 y => I64 (wrap_int64 (x - y))
  | U64 x, U64 y => U64 (wrap_uint64 (x - y))
  | _, _ => F64 (to_float a - to_float b)
  end.

(** [k * column] for an integer scalar [k]. *)
Definition times (k : Z) (a : Number) : Number :=
  match a with
  | I64 x => I64 (wrap_int64 (k * x))
  | U64 x => U64 (wrap_uint64 (k * x))
  | F64 x => F64 (float_of_Z k * x)
  end.

Definition truediv (a b : Number) : float := to_float a / to_float b.

(** [a == b] on two typed cells. *)
Definition same_number (a b : Number) : bool :=
  match a, b with
  | I64 x, I64 y | U64 x, U64 y => (x =? y)%Z
  | _, _ => to_float a =? to_float b
  end.

(** A cell value that is missing or at least zero. *)
Definition nonneg_or_missing (x : float) : Prop :=
  is_nan x = true \/ (0 <=? x) = true.

(** Sign bit off (or no value at all). *)
Definition sign_off (x : spec_float) : Prop :=
  match x with
  | S754_zero s | S754_infinity s | S754_finite s _ _ => s = false
  | S754_nan => True
  end.

Definition unsigned (x : float) : Prop := sign_off (Prim2SF x).

(** A finite number other than zero. *)
Definition finite_nonzero (x : float) : Prop :=
  exists s m e, Prim2SF x = S754_finite s m e.

(** A minus sign anywhere in a text. *)
Fixpoint has_minus (s : string) : bool :=
  match s with
  | EmptyString => false
  | String c rest => Ascii.eqb c "-" || has_minus rest
  end.

(** A raw cell that carries no negative value: text without a minus sign,
    or a number that is missing or at least zero. *)
Definition unsigned_cell (c : Cell) : Prop :=
  match c with
  | Text s => has_minus s = false
  | Numeric x => nonneg_or_missing x
  end.

(** [Series.fillna(v)] on one cell; a column of whole numbers has no
    missing cell. *)
Definition fillna (v : float) (n : Number) : Number :=
  match n with
  | F64 x => F64 (if is_nan x then v else x)
  | I64 _ | U64 _ => n
  end.

(** [Series.isin(values)] on one text cell. *)
Definition isin (x : string) (values : list string) : bool :=
  existsb (String.eqb x) values.

(** ** [pd.cut(x, bins, labels)] with the defaults [right=True],
    [include_lowest=False]

    [bins.searchsorted(x, side='left')] is the first index whose edge is not
    below [x]; index [0] (at or under the lowest edge), index [len(bins)]
    (over the highest edge) and a missing [x] give no label. *)
Fixpoint searchsorted_left (bins : list float) (x : float) : nat :=
  match bins with
  | [] => O
  | b :: rest => if b <? x then S (searchsorted_left rest x) else O
  end.

Definition cut {L : Type} (bins : list float) (labels : list L) (x : float)
  : option L :=
  let ids := searchsorted_left bins x in
  if is_nan x || (ids =? List.length bins)%nat || (ids =? 0)%nat then None
  else nth_error labels (ids - 1).

(** ** [Series.max()]: the largest present value, [nan] when none is. *)
Definition dropna_values (xs : list float) : list float :=
  filter (fun x => negb (is_nan x)) xs.

Definition col_max (xs : list float) : float :=
  match dropna_values xs with
  | [] => nan
  | x :: rest => fold_left (fun acc y => if acc <? y then y else acc) rest x
  end.

(** ** [DataFrame.nlargest(n, column)], [keep='first']

    The rows whose key is present are ordered by descending key, rows of
    equal key staying in frame order; the rows whose key is missing follow
    them in frame order; the first [n] rows of that sequence are returned. *)
Section NLargest.
Context {R : Type}.
Variable key : R -> float.

Definition dropna (df : list R) : list R :=
  filter (fun r => negb (is_nan (key r))) df.

Definition nan_rows (df : list R) : list R :=
  filter (fun r => is_nan (key r)) df.

Fixpoint insert_desc (r : R) (sorted : list R) : list R :=
  match sorted with
  | [] => [r]
  | h :: t =>
      if key h <=? key r then r :: h :: t
      else h :: insert_desc r t
  end.

Fixpoint sort_desc (df : list R) : list R :=
  match df with
  | [] => []
  | r :: rest => insert_desc r (sort_desc rest)
  end.

Definition nlargest (n : nat) (df : list R) : list R :=
  firstn n (sort_desc (dropna df) ++ nan_rows df).

(** [ge_key a b]: the key of [a] is at least the key of [b]. *)
Definition ge_key (a b : R) : Prop := (key b <=? key a) = true.

(** [desc a b]: row [b] may follow row [a] in a frame ordered by
    descending key, a missing key ranking after every present one. *)
Definition desc (a b : R) : Prop :=
  is_nan (key b) = true \/ ge_key a b.
End NLargest.

End Pandas.

(* ------------------------------------------------------------------ *)
(** * The script *)

Module FTA.

Import Pandas.
Open Scope float_scope.

(** One line of [Fitness_trackers_updated.csv] as [read_csv] returns it.
    The two price columns and the review count go through [to_numeric]; the
    rating and the battery life are compared and multiplied as they are
    read, so they are [float64] columns. *)
Record RawRow : Type := mkRawRow {
  csv_brand_name : string;
  csv_model_name : string;
  csv_device_type : string;
  csv_color : string;
  csv_selling_price : Cell;
  csv_original_price : Cell;
  csv_rating : float;
  csv_reviews : Cell;
  csv_battery_life : float
}.

Inductive PriceCategory : Type :=
| Budget
| MidRange
| Premium
| Luxury.

(** A row of the frame [load_data] returns.  A cleaned column can be
    [int64] or [uint64]; the row holds the [float64] value of its cell,
    which is the cell itself below 2^53. *)
Record Row : Type := mkRow {
  brand_name : string;
  model_name : string;
  device_type : string;
  color : string;
  selling_price : float;
  original_price : float;
  rating : float;
  reviews : float;
  battery_life : float;
  discount : float;
  value_score : float;
  price_category : option PriceCategory
}.

Definition price_bins : list float := [0; 2000; 5000; 10000; infinity].
Definition price_labels : list PriceCategory :=
  [Budget; MidRange; Premium; Luxury].

(** The derived columns, on the three cleaned cells of one line.  The
    discount is computed in the type of the price columns; the value score
    multiplies by the [float64] rating, and [cut] compares with float
    edges. *)
Definition make_row (raw : RawRow) (selling original reviews : Number)
  : Row :=
  {| brand_name := csv_brand_name raw;
     model_name := csv_model_name raw;
     device_type := csv_device_type raw;
     color := csv_color raw;
     selling_price := to_float selling;
     original_price := to_float original;
     rating := csv_rating raw;
     reviews := to_float reviews;
     battery_life := csv_battery_life raw;
     discount := truediv (times 100 (sub original selling)) original;
     value_score := (csv_rating raw * to_float reviews) / to_float selling;
     price_category := cut price_bins price_labels (to_float selling) |}.

Fixpoint assign (csv : list RawRow) (selling original reviews : list Number)
  : list Row :=
  match csv, selling, original, reviews with
  | raw :: csv', s :: selling', o :: original', v :: reviews' =>
      make_row raw s o v :: assign csv' selling' original' reviews'
  | _, _, _, _ => []
  end.

Definition load_data (csv : list RawRow) : Exn + list Row :=
  let selling :=
    to_numeric (map replace_commas (map csv_selling_price csv)) in
  let original :=
    to_numeric (map replace_commas (map csv_original_price csv)) in
  let reviews := map (fillna 0) (to_numeric (map csv_reviews csv)) in
  inr (assign csv selling original reviews).

(** The three cleaned cells of line [raw] within the table [csv], and the
    row [load_data] builds from them; [load_data_frame] proves [frame] the
    result of the call above. *)
Definition cleaned_selling (csv : list RawRow) (raw : RawRow) : Number :=
  convert (map replace_commas (map csv_selling_price csv))
    (replace_commas (csv_selling_price raw)).

Definition cleaned_original (csv : list RawRow) (raw : RawRow) : Number :=
  convert (map replace_commas (map csv_original_price csv))
    (replace_commas (csv_original_price raw)).

Definition cleaned_reviews (csv : list RawRow) (raw : RawRow) : Number :=
  fillna 0 (convert (map csv_reviews csv) (csv_reviews raw)).

Definition loaded (csv : list RawRow) (raw : RawRow) : Row :=
  make_row raw (cleaned_selling csv raw) (cleaned_original csv raw)
    (cleaned_reviews csv raw).

Definition frame (csv : list RawRow) : list Row := map (loaded csv) csv.

(** [cleaned_from c x]: [x] is the value of the cleaned price cell of raw
    cell [c]: a float is kept; [x] is the missing value when [c] is text
    in which no numeral is read; [x] is missing or at least zero when [c]
    carries no negative value. *)
Definition cleaned_from (c : Cell) (x : float) : Prop :=
  (forall x0, c = Numeric x0 -> x = x0)
  /\ (forall s, c = Text s -> floatify (remove_commas s) = None ->
      is_nan x = true)
  /\ (unsigned_cell c -> nonneg_or_missing x).

(** Where both price cells are whole numbers of one type, [100 * (o - s)]
    is computed in that type.  [within_envelope s o]: the two are small
    enough for that product to be the same number in [float64] (at most
    2^45 in magnitude, and not a negative difference in [uint64]). *)
Definition within_envelope (selling original : Number) : Prop :=
  match selling, original with
  | I64 s, I64 o => (Z.abs s <= 2 ^ 45 /\ Z.abs o <= 2 ^ 45)%Z
  | U64 s, U64 o => (0 <= s <= o /\ o <= 2 ^ 45)%Z
  | _, _ => True
  end.

(** ** Sidebar controls and the filter pipeline *)

(** The values of the five sidebar controls.  The price slider returns two
    integers; they are held as the floats the price column is compared
    with. *)
Record Controls : Type := mkControls {
  brand_filter : list string;
  device_filter : list string;
  color_filter : list string;
  price_range : float * float;
  rating_filter : float
}.

(** [if choice: df = df[df[col].isin(choice)]] *)
Definition select_isin (col : Row -> string) (choice : list string)
  (df : list Row) : list Row :=
  match choice with
  | [] => df
  | _ :: _ => filter (fun r => isin (col r) choice) df
  end.

Definition in_range (c : Controls) (r : Row) : bool :=
  (fst (price_range c) <=? selling_price r)
  && (selling_price r <=? snd (price_range c))
  && (rating_filter c <=? rating r).

Definition apply_filters (c : Controls) (df : list Row) : list Row :=
  let filtered_df := df in
  let filtered_df := select_isin brand_name (brand_filter c) filtered_df in
  let filtered_df := select_isin device_type (device_filter c) filtered_df in
  let filtered_df := select_isin color (color_filter c) filtered_df in
  filter (in_range c) filtered_df.

(** What one multi-select statement keeps: everything when nothing is
    chosen, the rows whose cell is among the chosen values otherwise. *)
Definition chosen (col : Row -> string) (choice : list string) (r : Row)
  : bool :=
  match choice with
  | [] => true
  | _ :: _ => isin (col r) choice
  end.

(** The whole pipeline is one selection by the conjunction of its tests. *)
Definition keeps (c : Controls) (r : Row) : bool :=
  chosen brand_name (brand_filter c) r
  && chosen device_type (device_filter c) r
  && chosen color (color_filter c) r
  && in_range c r.

(** The pipeline with the statements of some multi-select controls left
    out: the reference the pass-through property is compared with. *)
Inductive MultiSelect : Type :=
| BrandSelect
| DeviceSelect
| ColorSelect.

Definition multiselect_eqb (a b : MultiSelect) : bool :=
  match a, b with
  | BrandSelect, BrandSelect
  | DeviceSelect, DeviceSelect
  | ColorSelect, ColorSelect => true
  | _, _ => false
  end.

Definition selection (m : MultiSelect) (c : Controls) : list string :=
  match m with
  | BrandSelect => brand_filter c
  | DeviceSelect => device_filter c
  | ColorSelect => color_filter c
  end.

Definition apply_filters_without (absent : MultiSelect) (c : Controls)
  (df : list Row) : list Row :=
  let step m col filtered_df :=
    if multiselect_eqb absent m then filtered_df
    else select_isin col (selection m c) filtered_df in
  let filtered_df := step BrandSelect brand_name df in
  let filtered_df := step DeviceSelect device_type filtered_df in
  let filtered_df := step ColorSelect color filtered_df in
  filter (in_range c) filtered_df.

(** ** Product rankings *)

(** The [Overall Score] column the first tab adds to the filtered frame. *)
Definition overall_score (filtered_df : list Row) (r : Row) : float :=
  rating r * 0.4
  + (reviews r / col_max (map reviews filtered_df) * 5) * 0.3
  + (discount r / 100 * 5) * 0.2
  + (battery_life r / col_max (map battery_life filtered_df) * 5) * 0.1.

Definition top_overall (filtered_df : list Row) : list Row :=
  nlargest (overall_score filtered_df) 10 filtered_df.

Definition top_value (filtered_df : list Row) : list Row :=
  nlargest value_score 10 filtered_df.

Definition top_rated (filtered_df : list Row) : list Row :=
  nlargest rating 10 filtered_df.

Definition top_popular (filtered_df : list Row) : list Row :=
  nlargest reviews 10 filtered_df.

(** The four tabs of the page, their sort key and their table. *)
Inductive RankingTab : Type :=
| OverallBestTab
| BestValueTab
| TopRatedTab
| MostPopularTab.

Definition ranking_key (tab : RankingTab) (filtered_df : list Row)
  : Row -> float :=
  match tab with
  | OverallBestTab => overall_score filtered_df
  | BestValueTab => value_score
  | TopRatedTab => rating
  | MostPopularTab => reviews
  end.

Definition ranking (tab : RankingTab) (filtered_df : list Row) : list Row :=
  match tab with
  | OverallBestTab => top_overall filtered_df
  | BestValueTab => top_value filtered_df
  | TopRatedTab => top_rated filtered_df
  | MostPopularTab => top_popular filtered_df
  end.

(** ** Recommendation engine *)

Inductive BudgetRange : Type :=
| Budget_0_2K
| MidRange_2K_5K
| Premium_5K_10K
| Luxury_10K_plus.

Inductive Priority : Type :=
| BestValue
| HighestQuality
| MostPopular
| LongestBattery.

(** The six inputs of the engine.  The battery slider returns an integer;
    it is held as the float the battery column is compared with. *)
Record Preferences : Type := mkPreferences {
  budget : BudgetRange;
  priority : Priority;
  preferred_brand : string;
  preferred_device_type : string;
  min_rating : float;
  min_battery : float
}.

Definition no_preference : string := "No Preference".

Definition budget_rows (b : BudgetRange) (rec_df : list Row) : list Row :=
  match b with
  | Budget_0_2K =>
      filter (fun r => selling_price r <=? 2000) rec_df
  | MidRange_2K_5K =>
      filter (fun r => (2000 <? selling_price r) && (selling_price r <=? 5000))
        rec_df
  | Premium_5K_10K =>
      filter
        (fun r => (5000 <? selling_price r) && (selling_price r <=? 10000))
        rec_df
  | Luxury_10K_plus =>
      filter (fun r => 10000 <? selling_price r) rec_df
  end.

(** [if preferred != "No Preference":
        rec_df = rec_df[rec_df[col] == preferred]] *)
Definition select_eq (col : Row -> string) (preferred : string)
  (rec_df : list Row) : list Row :=
  if String.eqb preferred no_preference then rec_df
  else filter (fun r => String.eqb (col r) preferred) rec_df.

(** The narrowed frame [rec_df] just before the [len(rec_df) > 0] test. *)
Definition narrow (p : Preferences) (filtered_df : list Row) : list Row :=
  let rec_df := filtered_df in
  let rec_df := budget_rows (budget p) rec_df in
  let rec_df := select_eq brand_name (preferred_brand p) rec_df in
  let rec_df := select_eq device_type (preferred_device_type p) rec_df in
  filter
    (fun r => (min_rating p <=? rating r) && (min_battery p <=? battery_life r))
    rec_df.

Definition priority_key (pr : Priority) : Row -> float :=
  match pr with
  | BestValue => value_score
  | HighestQuality => rating
  | MostPopular => reviews
  | LongestBattery => battery_life
  end.

(** What pressing the button puts on the page. *)
Inductive Rendered : Type :=
| RecommendationCards (recommendations : list Row)
| WarningBox (message : string).

Definition no_match_message : string :=
  "No products match your criteria. Please adjust your filters.".

(** [recommendations], computed in the branch where [rec_df] has rows. *)
Definition recommendations (p : Preferences) (rec_df : list Row) : list Row :=
  match priority p with
  | BestValue => nlargest value_score 5 rec_df
  | HighestQuality => nlargest rating 5 rec_df
  | MostPopular => nlargest reviews 5 rec_df
  | LongestBattery => nlargest battery_life 5 rec_df
  end.

Definition get_recommendations (p : Preferences) (filtered_df : list Row)
  : Rendered :=
  let rec_df := narrow p filtered_df in
  if (0 <? List.length rec_df)%nat
  then RecommendationCards (recommendations p rec_df)
  else WarningBox no_match_message.

(** The section of the page: nothing is computed or shown until the button
    is pressed. *)
Definition recommendation_section (button : bool) (p : Preferences)
  (filtered_df : list Row) : option Rendered :=
  if button then Some (get_recommendations p filtered_df) else None.

(** ** Sample data *)

Definition charge_4 : RawRow :=
  mkRawRow "Fitbit" "Charge 4" "FitnessBand" "Black"
    (Text "3,999") (Text "4,999") 4.3 (Text "1200") 7.

Definition colorfit : RawRow :=
  mkRawRow "Noise" "ColorFit" "Smartwatch" "Blue"
    (Text "1,499") (Text "2,999") nan (Numeric nan) 10.

(** Five lines with thousands separators, a missing rating, a missing
    review count, a garbled price, a garbled review count and a missing
    battery life. *)
Definition sample_csv : list RawRow :=
  [ charge_4;
    colorfit;
    mkRawRow "Garmin" "Fenix" "Smartwatch" "Black"
      (Text "12,000") (Text "15,000") 4.6 (Text "310") 14;
    mkRawRow "Honor" "Band 5" "FitnessBand" "Pink"
      (Text "2,299") (Text "N/A") 4.1 (Text "8,412") 14;
    mkRawRow "Fitbit" "Versa" "Smartwatch" "Grey"
      (Text "4500") (Text "5000") 4.5 (Text "950") nan ].

(** The three-row table of the price-category scenario; its columns have
    no separator and were read as whole numbers. *)
Definition scenario_csv : list RawRow :=
  [ mkRawRow "Noise" "Pulse" "Smartwatch" "Black"
      (Text "1000") (Text "1999") 4.0 (Text "15") 8;
    mkRawRow "Fitbit" "Inspire" "FitnessBand" "Black"
      (Text "3000") (Text "3500") 4.2 (Text "78") 10;
    mkRawRow "Garmin" "Venu" "Smartwatch" "Gold"
      (Text "12000") (Text "12000") 4.4 (Text "9") 5 ].

(** Prices on the bin edges, a price of zero and an unreadable price. *)
Definition boundary_csv : list RawRow :=
  [ mkRawRow "Noise" "Edge" "Smartwatch" "Black"
      (Text "2,000") (Numeric 2500) 3.9 (Numeric 4) 7;
    mkRawRow "Noise" "Edge 2" "Smartwatch" "Black"
      (Text "5000") (Numeric 5000) 4.0 (Numeric 11) 7;
    mkRawRow "Noise" "Free" "FitnessBand" "Red"
      (Text "0") (Numeric 999) 3.1 (Numeric 2) 3;
    mkRawRow "Noise" "Unlisted" "FitnessBand" "Red"
      (Text "on request") (Numeric 999) 3.5 (Numeric 1) 3 ].

(** A line whose selling price is a negative numeral. *)
Definition negative_csv : list RawRow :=
  [ mkRawRow "Noise" "Refund" "FitnessBand" "Black"
      (Text "-499") (Numeric 1999) 3.0 (Numeric 0) 5 ].

(** Whole-number price columns with an original price of 10^17. *)
Definition wrapping_csv : list RawRow :=
  [ mkRawRow "Noise" "Crown" "Smartwatch" "Gold"
      (Text "1000") (Text "100000000000000000") 4.0 (Text "3") 7 ].

(** No brand and no colour chosen, both device types chosen. *)
Definition sample_controls : Controls :=
  mkControls [] ["Smartwatch"; "FitnessBand"]%string [] (1000, 20000) 1.0.

(** The inputs of the recommendation scenario, for a priority [pr]. *)
Definition mid_range_scenario (pr : Priority) : Preferences :=
  mkPreferences MidRange_2K_5K pr no_preference no_preference 4.0 5.

End FTA.

(* ------------------------------------------------------------------ *)
(** * Further frame operations: [idxmax], [unique], [value_counts] *)

Module Series.

Import Pandas.
Open Scope float_scope.

(** ** [df.loc[df[column].idxmax()]]

    [idxmax] skips missing values by filling them with minus infinity,
    takes the position of the first occurrence of the largest filled value
    (a later value replaces the running best only when strictly larger) and
    fails on an empty column and on a column of missing values only (there
    [idxmax] raises, or returns the missing label on which [loc] raises,
    depending on the library version; the message below is the former).
    Row labels are unique, so [loc] returns the row at that position; the
    two calls are written as one function from the frame to that row. *)
Section IdxMax.
Context {R : Type}.
Variable key : R -> float.

Definition fill_neg_inf (x : float) : float :=
  if is_nan x then neg_infinity else x.

Fixpoint argmax_scan (best : R) (rest : list R) : R :=
  match rest with
  | [] => best
  | r :: rest' =>
      argmax_scan
        (if fill_neg_inf (key best) <? fill_neg_inf (key r) then r else best)
        rest'
  end.

Definition idxmax_row (df : list R) : Exn + R :=
  match df with
  | [] => inl (ValueError "attempt to get argmax of an empty sequence")
  | r :: rest =>
      if forallb (fun x => is_nan (key x)) df
      then inl (ValueError "Encountered all NA values")
      else inr (argmax_scan r rest)
  end.
End IdxMax.

(** ** [Series.unique()]: the distinct values in order of first appearance *)
Fixpoint unique (xs : list string) : list string :=
  match xs with
  | [] => []
  | x :: rest => x :: filter (fun y => negb (String.eqb y x)) (unique rest)
  end.

(** ** [Series.value_counts()]

    One entry per distinct value with the number of its occurrences, the
    larger counts first; entries of equal count are kept here in order of
    first appearance.  Missing entries are not counted (the default
    [dropna=True]): [present] drops them from a column that can have
    some. *)
Fixpoint present (xs : list (option string)) : list string :=
  match xs with
  | [] => []
  | Some v :: rest => v :: present rest
  | None :: rest => present rest
  end.

Definition occurrences (v : string) (xs : list string) : nat :=
  List.length (filter (String.eqb v) xs).

Fixpoint insert_count (e : string * nat) (sorted : list (string * nat))
  : list (string * nat) :=
  match sorted with
  | [] => [e]
  | h :: t =>
      if (snd h <=? snd e)%nat then e :: h :: t
      else h :: insert_count e t
  end.

Fixpoint sort_counts (l : list (string * nat)) : list (string * nat) :=
  match l with
  | [] => []
  | e :: rest => insert_count e (sort_counts rest)
  end.

(** [count_ge a b]: entry [a] counts at least as many as entry [b]. *)
Definition count_ge (a b : string * nat) : Prop := (snd b <= snd a)%nat.

Definition value_counts (xs : list string) : list (string * nat) :=
  sort_counts (map (fun v => (v, occurrences v xs)) (unique xs)).

(** [.head(n).sum()] on a table of counts. *)
Definition head_sum (n : nat) (counts : list (string * nat)) : nat :=
  list_sum (map snd (firstn n counts)).

(** A comma anywhere in a text. *)
Fixpoint has_comma (s : string) : bool :=
  match s with
  | EmptyString => false
  | String c rest => Ascii.eqb c "," || has_comma rest
  end.

(** An integer count as the float it is divided as. *)
Definition float_of_nat (n : nat) : float :=
  of_uint63 (Uint63.of_Z (Z.of_nat n)).

End Series.

(* ------------------------------------------------------------------ *)
(** * The other pages of the script *)

Module Pages.

Import Pandas FTA Series.
Open Scope float_scope.

(** The brand, device-type and colour columns are read as [Row] has them,
    every cell a string.  The columns that only the charts read (display,
    strap material) are passed as functions from the row, and their cells
    can be missing. *)

(** ** Executive summary: the three picks of "AI-Powered Insights"

    The three lookups run in this order; the first one that raises ends the
    page. *)
Record Insights : Type := mkInsights {
  best_value : Row;
  most_reviewed : Row;
  highest_rated : Row
}.

Definition insights (filtered_df : list Row) : Exn + Insights :=
  best <- idxmax_row value_score filtered_df ;;
  most <- idxmax_row reviews filtered_df ;;
  highest <- idxmax_row rating filtered_df ;;
  inr (mkInsights best most highest).

(** ** Feature analysis *)

(** [filtered_df[column].value_counts()], the slices of the display-type
    and strap-material charts; [col] reads the charted column, in which a
    cell can be missing. *)
Definition distribution (col : Row -> option string)
  (filtered_df : list Row) : list (string * nat) :=
  value_counts (present (map col filtered_df)).

(** The row holds the value [v] in the column. *)
Definition holds (col : Row -> option string) (v : string) (r : Row)
  : bool :=
  match col r with
  | Some w => String.eqb v w
  | None => false
  end.

(** The row has a value in the column. *)
Definition has_value (col : Row -> option string) (r : Row) : bool :=
  match col r with
  | Some _ => true
  | None => false
  end.

(** [filtered_df['Color'].value_counts().head(10)] *)
Definition color_preference (filtered_df : list Row) : list (string * nat) :=
  firstn 10 (value_counts (map color filtered_df)).

(** ** Deep dive: strategic insights *)

(** [value_counts().head(3).sum() / len(filtered_df) * 100] *)
Definition top3_brand_rows (filtered_df : list Row) : nat :=
  head_sum 3 (value_counts (map brand_name filtered_df)).

Definition market_concentration (filtered_df : list Row) : float :=
  float_of_nat (top3_brand_rows filtered_df)
  / float_of_nat (List.length filtered_df) * 100.

(** The label of the price-rating correlation [price_rating_corr]. *)
Definition elasticity_msg (price_rating_corr : float) : string :=
  if 0.5 <? abs price_rating_corr then "Strong"
  else if 0.3 <? abs price_rating_corr then "Moderate"
  else "Weak".

(** The label of the battery-price correlation [battery_price_corr]. *)
Definition battery_msg (battery_price_corr : float) : string :=
  if 0.3 <? battery_price_corr then "Premium Feature"
  else "Standard Feature".

(** [["No Preference"] + list(filtered_df[column].unique())] *)
Definition preference_options (col : Row -> string) (filtered_df : list Row)
  : list string :=
  no_preference :: unique (map col filtered_df).

(** ** Deep dive: market gap analysis *)

Inductive Segment : Type :=
| BudgetHighQuality
| PremiumLongBattery
| MidRangePopular.

(** [Series.between(left, right)], both ends included. *)
Definition between (x left right : float) : bool :=
  (left <=? x) && (x <=? right).

Definition in_market (seg : Segment) (r : Row) : bool :=
  match seg with
  | BudgetHighQuality => selling_price r <? 3000
  | PremiumLongBattery => 8000 <? selling_price r
  | MidRangePopular => between (selling_price r) 3000 8000
  end.

Definition is_opportunity (seg : Segment) (r : Row) : bool :=
  match seg with
  | BudgetHighQuality => (selling_price r <? 3000) && (4.5 <? rating r)
  | PremiumLongBattery => (8000 <? selling_price r) && (20 <? battery_life r)
  | MidRangePopular =>
      between (selling_price r) 3000 8000 && (1000 <? reviews r)
  end.

Definition opportunity_score (seg : Segment) (filtered_df : list Row) : nat :=
  List.length (filter (is_opportunity seg) filtered_df).

Definition market_size (seg : Segment) (filtered_df : list Row) : nat :=
  List.length (filter (in_market seg) filtered_df).

Definition gap_ratio (seg : Segment) (filtered_df : list Row) : float :=
  float_of_nat (opportunity_score seg filtered_df)
  / float_of_nat (market_size seg filtered_df).

(** ** Recommendation engine: bracket and category side by side *)

(** The test of [budget_rows] on one row. *)
Definition in_budget (b : BudgetRange) (r : Row) : bool :=
  match b with
  | Budget_0_2K => selling_price r <=? 2000
  | MidRange_2K_5K => (2000 <? selling_price r) && (selling_price r <=? 5000)
  | Premium_5K_10K => (5000 <? selling_price r) && (selling_price r <=? 10000)
  | Luxury_10K_plus => 10000 <? selling_price r
  end.

(** The price category that carries the bracket's name. *)
Definition category_of (b : BudgetRange) : PriceCategory :=
  match b with
  | Budget_0_2K => Budget
  | MidRange_2K_5K => MidRange
  | Premium_5K_10K => Premium
  | Luxury_10K_plus => Luxury
  end.

(** The test of [select_eq] on one row. *)
Definition prefers (col : Row -> string) (preferred : string) (r : Row)
  : bool :=
  String.eqb preferred no_preference || String.eqb (col r) preferred.

(** ** Comparing control values *)

(** [relaxes c c']: the controls [c'] ask no more than [c]: each
    multi-select is cleared or widened, the price range is widened and the
    minimum rating is lowered (or each is left as it is). *)
Definition relaxes (c c' : Controls) : Prop :=
  (forall m, selection m c' = []
             \/ (selection m c <> [] /\ incl (selection m c) (selection m c')))
  /\ (fst (price_range c') <=? fst (price_range c)) = true
  /\ (snd (price_range c) <=? snd (price_range c')) = true
  /\ (rating_filter c' <=? rating_filter c) = true.

(** ** Further sample data *)

(** A line with no reviews, one with an original price of zero, one sold
    at its original price. *)
Definition unreviewed : RawRow :=
  mkRawRow "Boat" "Storm" "Smartwatch" "Black"
    (Text "2,499") (Text "5,990") 4.1 (Numeric nan) 7.

Definition unpriced_original : RawRow :=
  mkRawRow "Boat" "Wave" "Smartwatch" "Blue"
    (Text "1,799") (Text "0") 3.8 (Text "12") 7.

Definition separated_reviews : RawRow :=
  mkRawRow "Boat" "Flash" "Smartwatch" "Black"
    (Text "1,299") (Text "6,990") 4.0 (Text "23,717") 10.

Definition undiscounted : RawRow :=
  mkRawRow "Boat" "Xtend" "Smartwatch" "Red"
    (Text "3,499") (Text "3,499") 4.2 (Text "3") 7.

Definition more_csv : list RawRow :=
  [unreviewed; unpriced_original; separated_reviews; undiscounted].

(** Only the brand "Fitbit", prices from 3000 to 5000, rating 4.2 and
    up: stricter than [sample_controls] in every control it sets. *)
Definition strict_controls : Controls :=
  mkControls ["Fitbit"]%string ["Smartwatch"; "FitnessBand"]%string []
    (3000, 5000) 4.2.

(** A brand that no sample row has. *)
Definition absent_brand_controls : Controls :=
  mkControls ["Nokia"]%string [] [] (1000, 20000) 1.0.

Definition fitbit_preferences : Preferences :=
  mkPreferences MidRange_2K_5K MostPopular "Fitbit" no_preference 4.0 5.

End Pages.

(* ------------------------------------------------------------------ *)
(** * The definitions at work *)

Module Examples.

Import Pandas FTA.
Open Scope float_scope.

Example read_plain : floatify "1299" = Some (1299, true).
Proof. reflexivity. Qed.

Example read_with_separator :
  floatify (remove_commas "1,299") = Some (1299, true).
Proof. reflexivity. Qed.

Example read_fraction_digits : floatify " 12.50 " = Some (12.5, false).
Proof. reflexivity. Qed.

Example read_exponent :
  map floatify ["1e3"; "2.5E-1"; "1e"]%string
  = [Some (1000, false); Some (0.25, false); None].
Proof. reflexivity. Qed.

Example read_infinity :
  map floatify ["inf"; "-Infinity"; "+INF"]%string
  = [Some (infinity, false); Some (neg_infinity, false);
     Some (infinity, false)].
Proof. reflexivity. Qed.

(** Digits after the seventeenth do not enter the mantissa. *)
Example read_long_numeral :
  floatify "0.1234567890123456789" = Some (0.12345678901234559, false).
Proof. reflexivity. Qed.

Example read_garbled : floatify "N/A" = None.
Proof. reflexivity. Qed.

(** A column of whole numerals is an integer column; one unreadable cell
    makes it a float column. *)
Example whole_column :
  to_numeric [Text "1000"; Text "250"] = [I64 1000; I64 250].
Proof. reflexivity. Qed.

Example mixed_column :
  to_numeric [Text "1000"; Text "N/A"] = [F64 1000; F64 nan].
Proof. reflexivity. Qed.

Example wide_column :
  to_numeric [Text "18446744073709551615"; Text "1"]
  = [U64 18446744073709551615; U64 1].
Proof. reflexivity. Qed.

Example signed_and_wide_column :
  to_numeric [Text "18446744073709551615"; Text "-1"]
  = [F64 18446744073709551615; F64 (-1)].
Proof. reflexivity. Qed.

(** Integer columns are subtracted and multiplied in 64 bits. *)
Example int64_wraps :
  times 100 (sub (I64 (10 ^ 17)) (I64 1000)) = I64 (-8446744073709651616).
Proof. reflexivity. Qed.

(** Commas are removed from the price columns only: a review count with a
    separator does not parse and is filled with zero. *)
Example reviews_with_separator :
  map (fillna 0) (to_numeric [Text "8,412"; Text "12"]) = [F64 0; F64 12].
Proof. reflexivity. Qed.

Example cut_prices :
  map (cut price_bins price_labels) [1; 2000; 2000.5; 10000; 10001; infinity]
  = [Some Budget; Some Budget; Some MidRange; Some Premium; Some Luxury;
     Some Luxury].
Proof. reflexivity. Qed.

Example cut_nothing :
  map (cut price_bins price_labels) [0; -3; nan] = [None; None; None].
Proof. reflexivity. Qed.

Example col_max_skips_missing : col_max [1; nan; 3; 2] = 3.
Proof. reflexivity. Qed.

(** Ties keep frame order; missing keys come last and fill up the result. *)
Example nlargest_ties :
  nlargest fst 3 [(1, "a"); (3, "b"); (2, "c"); (3, "d")]%string
  = [(3, "b"); (3, "d"); (2, "c")]%string.
Proof. reflexivity. Qed.

Example nlargest_missing :
  nlargest (fun x => x) 4 [1; nan; 3; 2; nan] = [3; 2; 1; nan].
Proof. reflexivity. Qed.

Example sample_loaded :
  match load_data sample_csv with
  | inr df => map (fun r => (model_name r, selling_price r, reviews r)) df
  | inl _ => []
  end
  = [("Charge 4", 3999, 1200); ("ColorFit", 1499, 0); ("Fenix", 12000, 310);
     ("Band 5", 2299, 0); ("Versa", 4500, 950)]%string.
Proof. reflexivity. Qed.

(** The row without a rating does not pass the filter. *)
Example sample_filtered :
  map model_name (apply_filters sample_controls (frame sample_csv))
  = ["Charge 4"; "Fenix"; "Band 5"; "Versa"]%string.
Proof. reflexivity. Qed.

(** Two rows of the first tab have no overall score (no original price, no
    battery life); they are listed after the scored ones. *)
Example sample_top_overall :
  let filtered_df := apply_filters sample_controls (frame sample_csv) in
  map (fun r => (model_name r, is_nan (overall_score filtered_df r)))
    (top_overall filtered_df)
  = [("Charge 4", false); ("Fenix", false);
     ("Band 5", true); ("Versa", true)]%string.
Proof. reflexivity. Qed.

Example sample_recommendations :
  map (fun pr =>
         match get_recommendations (mid_range_scenario pr)
                 (apply_filters sample_controls (frame sample_csv)) with
         | RecommendationCards recs => map model_name recs
         | WarningBox _ => []
         end)
    [BestValue; HighestQuality; MostPopular; LongestBattery]
  = [["Charge 4"; "Band 5"]; ["Charge 4"; "Band 5"];
     ["Charge 4"; "Band 5"]; ["Band 5"; "Charge 4"]]%string.
Proof. reflexivity. Qed.

Example sample_no_match :
  get_recommendations
    (mkPreferences Luxury_10K_plus BestValue "Fitbit" no_preference 4.0 5)
    (apply_filters sample_controls (frame sample_csv))
  = WarningBox "No products match your criteria. Please adjust your filters.".
Proof. reflexivity. Qed.

End Examples.

Module MoreExamples.

Import Pandas FTA Series Pages.
Open Scope float_scope.

Example value_counts_ties :
  value_counts ["red"; "blue"; "red"; "grey"; "blue"; "pink"]%string
  = [("red", 2); ("blue", 2); ("grey", 1); ("pink", 1)]%string%nat.
Proof. reflexivity. Qed.

(** Missing cells are not counted. *)
Example value_counts_missing :
  value_counts
    (present [Some "AMOLED"; None; Some "LCD"; Some "AMOLED"]%string)
  = [("AMOLED", 2); ("LCD", 1)]%string%nat.
Proof. reflexivity. Qed.

(** The first of two equal maxima is picked; missing values are skipped. *)
Example idxmax_first_of_equals :
  idxmax_row fst [(nan, "a"); (3, "b"); (1, "c"); (3, "d")]%string
  = inr (3, "b"%string).
Proof. reflexivity. Qed.

Example idxmax_all_missing :
  idxmax_row (fun x => x) [nan; nan]
  = inl (ValueError "Encountered all NA values").
Proof. reflexivity. Qed.

Example sample_insights :
  match insights (apply_filters sample_controls (frame sample_csv)) with
  | inr i => [model_name (best_value i); model_name (most_reviewed i);
              model_name (highest_rated i)]
  | inl _ => []
  end
  = ["Charge 4"; "Charge 4"; "Fenix"]%string.
Proof. reflexivity. Qed.

Example sample_market_concentration :
  market_concentration
    (apply_filters sample_controls
       (frame (sample_csv ++ more_csv)))
  = 87.5.
Proof. reflexivity. Qed.

Example sample_gap_analysis :
  map (fun seg =>
         (opportunity_score seg
            (apply_filters sample_controls (frame sample_csv)),
          market_size seg
            (apply_filters sample_controls (frame sample_csv)),
          gap_ratio seg
            (apply_filters sample_controls (frame sample_csv))))
    [BudgetHighQuality; PremiumLongBattery; MidRangePopular]
  = [(0%nat, 1%nat, 0); (0%nat, 1%nat, 0); (1%nat, 2%nat, 0.5)].
Proof. reflexivity. Qed.

(** Two whole-number prices above 2^53 with the same binary64 value: the
    discount is computed on the integers, which differ. *)
Example prices_equal_as_floats_only :
  map (fun r => (selling_price r =? original_price r, discount r =? 0))
    (frame [mkRawRow "Noise" "Crown" "Smartwatch" "Gold"
              (Text "9007199254740992") (Text "9007199254740993")
              4.0 (Text "3") 7])
  = [(true, false)].
Proof. reflexivity. Qed.

Example wrapping_discount :
  map discount (frame wrapping_csv) = [-84.467440737096524].
Proof. reflexivity. Qed.

Example more_loaded :
  map (fun r => (reviews r, is_finite (discount r))) (frame more_csv)
  = [(0, true); (12, false); (0, true); (3, true)].
Proof. reflexivity. Qed.

End MoreExamples.

(* ------------------------------------------------------------------ *)
(** * Order facts on binary64 values

    The comparisons of the frame are IEEE comparisons: every comparison
    with [nan] is false, and the other values are totally ordered. *)

Module Float64.

Import Pandas.
Open Scope float_scope.

Lemma SFcompare_antisym (x y : spec_float) :
  SFcompare y x = option_map CompOpp (SFcompare x y).
Proof.
  destruct x as [sx|sx| |sx mx ex], y as [sy|sy| |sy my ey]; simpl;
    try reflexivity;
    try (destruct sx; reflexivity); try (destruct sy; reflexivity);
    try (destruct sx, sy; reflexivity).
  change (PosDef.Pos.compare_cont Eq mx my) with (Pos.compare mx my).
  change (PosDef.Pos.compare_cont Eq my mx) with (Pos.compare my mx).
  rewrite (Z.compare_antisym ex ey), (Pos.compare_antisym mx my).
  destruct sx, sy; simpl; try reflexivity;
    destruct (ex ?= ey)%Z; simpl; try reflexivity;
    destruct (mx ?= my)%positive; reflexivity.
Qed.

Lemma SFcompare_refl (x : spec_float) :
  x <> S754_nan -> SFcompare x x = Some Eq.
Proof.
  destruct x as [s|s| |s m e]; simpl; intros H; try congruence.
  - destruct s; reflexivity.
  - change (PosDef.Pos.compare_cont Eq m m) with (Pos.compare m m).
    rewrite Z.compare_refl, Pos.compare_refl. destruct s; reflexivity.
Qed.

Lemma SFcompare_nan_l (y : spec_float) : SFcompare S754_nan y = None.
Proof. reflexivity. Qed.

Lemma SFcompare_nan_r (x : spec_float) : SFcompare x S754_nan = None.
Proof. destruct x; reflexivity. Qed.

Lemma SFcompare_some (x y : spec_float) :
  x <> S754_nan -> y <> S754_nan -> exists c, SFcompare x y = Some c.
Proof.
  destruct x, y; simpl; intros Hx Hy; try congruence; eexists; reflexivity.
Qed.

Lemma SFleb_trans (x y z : spec_float) :
  SFleb x y = true -> SFleb y z = true -> SFleb x z = true.
Proof.
  unfold SFleb.
  destruct x as [sx|sx| |sx mx ex], y as [sy|sy| |sy my ey],
           z as [sz|sz| |sz mz ez];
    simpl; try discriminate; try reflexivity;
    repeat match goal with s : bool |- _ => destruct s end; simpl;
    try discriminate; try reflexivity.
  all: change (PosDef.Pos.compare_cont Eq) with Pos.compare.
  all: destruct (Z.compare_spec ex ey); destruct (Z.compare_spec ey ez);
       destruct (Z.compare_spec ex ez);
       try discriminate; try reflexivity; try lia;
       destruct (Pos.compare_spec mx my); destruct (Pos.compare_spec my mz);
       destruct (Pos.compare_spec mx mz); simpl;
       try discriminate; try reflexivity; try lia.
Qed.

Lemma is_nan_true (x : float) : is_nan x = true <-> Prim2SF x = S754_nan.
Proof.
  unfold is_nan. rewrite FloatAxioms.eqb_spec. unfold SFeqb. split.
  - intros H. destruct (Prim2SF x) eqn:E; try reflexivity;
      rewrite SFcompare_refl in H by discriminate; discriminate.
  - intros ->. reflexivity.
Qed.

Lemma is_nan_false (x : float) : is_nan x = false <-> Prim2SF x <> S754_nan.
Proof.
  rewrite <- is_nan_true. destruct (is_nan x); split; congruence.
Qed.

(** A comparison that holds has two present operands. *)
Lemma leb_present (x y : float) :
  (x <=? y) = true -> is_nan x = false /\ is_nan y = false.
Proof.
  rewrite FloatAxioms.leb_spec. unfold SFleb. intros H.
  split; apply is_nan_false; intros E; rewrite E in H.
  - rewrite SFcompare_nan_l in H. discriminate.
  - rewrite SFcompare_nan_r in H. discriminate.
Qed.

Lemma ltb_present (x y : float) :
  (x <? y) = true -> is_nan x = false /\ is_nan y = false.
Proof.
  rewrite FloatAxioms.ltb_spec. unfold SFltb. intros H.
  split; apply is_nan_false; intros E; rewrite E in H.
  - rewrite SFcompare_nan_l in H. discriminate.
  - rewrite SFcompare_nan_r in H. discriminate.
Qed.

Lemma leb_trans (x y z : float) :
  (x <=? y) = true -> (y <=? z) = true -> (x <=? z) = true.
Proof. rewrite !FloatAxioms.leb_spec. apply SFleb_trans. Qed.

(** On present values [<] is the negation of the converse [<=]. *)
Lemma ltb_negb_leb (x y : float) :
  is_nan x = false -> is_nan y = false -> (x <? y) = negb (y <=? x).
Proof.
  intros Hx Hy. apply is_nan_false in Hx, Hy.
  rewrite FloatAxioms.ltb_spec, FloatAxioms.leb_spec. unfold SFltb, SFleb.
  rewrite (SFcompare_antisym (Prim2SF x) (Prim2SF y)).
  destruct (SFcompare_some _ _ Hx Hy) as [c ->].
  destruct c; reflexivity.
Qed.

Lemma leb_total (x y : float) :
  is_nan x = false -> is_nan y = false ->
  (x <=? y) = false -> (y <=? x) = true.
Proof.
  intros Hx Hy. apply is_nan_false in Hx, Hy.
  rewrite !FloatAxioms.leb_spec. unfold SFleb.
  rewrite (SFcompare_antisym (Prim2SF x) (Prim2SF y)).
  destruct (SFcompare_some _ _ Hx Hy) as [c ->].
  destruct c; simpl; congruence.
Qed.

Lemma ltb_leb (x y : float) : (x <? y) = true -> (x <=? y) = true.
Proof.
  rewrite FloatAxioms.ltb_spec, FloatAxioms.leb_spec. unfold SFltb, SFleb.
  destruct (SFcompare (Prim2SF x) (Prim2SF y)) as [[ | | ]|];
    congruence.
Qed.

Lemma ltb_leb_trans (x y z : float) :
  (x <? y) = true -> (y <=? z) = true -> (x <? z) = true.
Proof.
  intros Hxy Hyz.
  destruct (ltb_present _ _ Hxy) as [Hx Hy].
  destruct (leb_present _ _ Hyz) as [_ Hz].
  rewrite (ltb_negb_leb x y Hx Hy) in Hxy.
  rewrite (ltb_negb_leb x z Hx Hz).
  destruct (z <=? x) eqn:E; [|reflexivity].
  rewrite (leb_trans _ _ _ Hyz E) in Hxy. discriminate.
Qed.

(** ** Results that are not [nan]

    Rounding a non-negative integer mantissa never yields [nan], so a
    product with a finite factor and a quotient by a finite non-zero
    divisor are present whenever the other operand is. *)

Lemma shr_1_nonneg (mrs : shr_record) :
  (0 <= shr_m mrs)%Z -> (0 <= shr_m (shr_1 mrs))%Z.
Proof.
  destruct mrs as [m r s]. simpl. intros H.
  destruct m as [|q|q]; [simpl; lia| |lia].
  destruct q; simpl; lia.
Qed.

Lemma iter_shr_1_nonneg (q : positive) (mrs : shr_record) :
  (0 <= shr_m mrs)%Z -> (0 <= shr_m (SpecFloat.iter_pos shr_1 q mrs))%Z.
Proof.
  revert mrs. induction q as [q IH|q IH|]; intros mrs H; simpl.
  - apply IH, IH, shr_1_nonneg, H.
  - apply IH, IH, H.
  - apply shr_1_nonneg, H.
Qed.

Lemma shr_fexp_nonneg (m e : Z) (l : location) :
  (0 <= m)%Z -> (0 <= shr_m (fst (shr_fexp prec emax m e l)))%Z.
Proof.
  intros H. unfold shr_fexp, shr.
  assert (H0 : (0 <= shr_m (shr_record_of_loc m l))%Z).
  { destruct l as [|[ | | ]]; exact H. }
  destruct (_ - e)%Z; simpl; auto using iter_shr_1_nonneg.
Qed.

Lemma round_nearest_even_nonneg (m : Z) (l : location) :
  (0 <= m)%Z -> (0 <= round_nearest_even m l)%Z.
Proof.
  intros H. unfold round_nearest_even.
  destruct l as [|[ | | ]]; try lia. destruct (Z.even m); lia.
Qed.

Lemma binary_round_aux_not_nan (s : bool) (m e : Z) (l : location) :
  (0 <= m)%Z -> binary_round_aux prec emax s m e l <> S754_nan.
Proof.
  intros H. unfold binary_round_aux.
  pose proof (shr_fexp_nonneg m e l H) as H1.
  destruct (shr_fexp prec emax m e l) as [mrs1 e1]. simpl in H1.
  pose proof (shr_fexp_nonneg _ e1 loc_Exact
                (round_nearest_even_nonneg _ (loc_of_shr_record mrs1) H1))
    as H2.
  destruct (shr_fexp prec emax _ e1 loc_Exact) as [mrs2 e2]. simpl in H2.
  destruct (shr_m mrs2); try lia; try discriminate.
  destruct (Z.leb _ _); discriminate.
Qed.

Lemma SFdiv_core_nonneg (m1 : positive) (e1 : Z) (m2 : positive) (e2 : Z) :
  (0 <= fst (fst (SFdiv_core_binary prec emax (Zpos m1) e1 (Zpos m2) e2)))%Z.
Proof.
  unfold SFdiv_core_binary.
  set (s := (_ - _ - _)%Z).
  set (m' := match s with
             | Zpos _ => Z.shiftl (Zpos m1) s
             | Z0 => Zpos m1
             | Zneg _ => 0%Z
             end).
  assert (Hm : (0 <= m')%Z).
  { unfold m'. destruct s; try lia. apply Z.shiftl_nonneg. lia. }
  pose proof (Z_div_mod m' (Zpos m2) eq_refl) as H.
  destruct (Z.div_eucl m' (Zpos m2)) as [q r]. simpl.
  destruct H as [H1 H2]. nia.
Qed.

Lemma mul_present (x y : float) :
  finite_nonzero x -> is_nan y = false ->
  is_nan (x * y) = false.
Proof.
  intros (sx & mx & ex & Hx) Hy. apply is_nan_false in Hy.
  apply is_nan_false. rewrite mul_spec, Hx. unfold SF64mul.
  destruct (Prim2SF y) as [sy|sy| |sy my ey]; simpl;
    try discriminate; try congruence.
  apply binary_round_aux_not_nan. lia.
Qed.

Lemma div_present (x y : float) :
  is_nan x = false -> finite_nonzero y ->
  is_nan (x / y) = false.
Proof.
  intros Hx (sy & my & ey & Hy). apply is_nan_false in Hx.
  apply is_nan_false. rewrite div_spec, Hy. unfold SF64div.
  destruct (Prim2SF x) as [sx|sx| |sx mx ex]; simpl;
    try discriminate; try congruence.
  pose proof (SFdiv_core_nonneg mx ex my ey) as H.
  destruct (SFdiv_core_binary _ _ _ _ _ _) as [[mz ez] lz]. simpl in H.
  apply binary_round_aux_not_nan. exact H.
Qed.

(** A value at or above a positive number is a non-zero finite number or
    [infinity]; one under [infinity], or at most a finite number, is not
    [infinity]. *)
Lemma at_least_positive (a x : float) :
  (exists m e, Prim2SF a = S754_finite false m e) -> (a <=? x) = true ->
  finite_nonzero x \/ Prim2SF x = S754_infinity false.
Proof.
  intros (ma & ea & Ha). rewrite FloatAxioms.leb_spec, Ha. unfold SFleb.
  destruct (Prim2SF x) as [s|s| |s m e] eqn:E; simpl; try discriminate.
  - destruct s; [discriminate|]. right. reflexivity.
  - left. unfold finite_nonzero. rewrite E. eauto.
Qed.

Lemma under_infinity (x : float) :
  (x <? infinity) = true -> Prim2SF x <> S754_infinity false.
Proof.
  rewrite FloatAxioms.ltb_spec.
  change (Prim2SF infinity) with (S754_infinity false).
  intros H E. rewrite E in H. discriminate.
Qed.

Lemma at_most_finite (x b : float) :
  finite_nonzero b -> (x <=? b) = true ->
  Prim2SF x <> S754_infinity false.
Proof.
  intros (sb & mb & eb & Hb). rewrite FloatAxioms.leb_spec, Hb.
  intros H E. rewrite E in H. discriminate.
Qed.

(** ** Sign bits

    Rounding keeps the sign it is given, so sums, products and quotients of
    values whose sign bit is off have their sign bit off. *)

Lemma binary_round_aux_sign_off (m e : Z) (l : location) :
  sign_off (binary_round_aux prec emax false m e l).
Proof.
  unfold binary_round_aux.
  destruct (shr_fexp prec emax m e l) as [mrs1 e1].
  destruct (shr_fexp prec emax _ e1 loc_Exact) as [mrs2 e2].
  destruct (shr_m mrs2); simpl; auto.
  destruct (e2 <=? 971)%Z; reflexivity.
Qed.

Lemma binary_round_sign_off (m : positive) (e : Z) :
  sign_off (binary_round prec emax false m e).
Proof.
  unfold binary_round. destruct (shl_align _ _ _) as [mz ez].
  apply binary_round_aux_sign_off.
Qed.

Lemma binary_normalize_sign_off (m e : Z) :
  (0 <= m)%Z -> sign_off (binary_normalize prec emax m e false).
Proof.
  intros Hm. destruct m as [|q|q]; simpl; [reflexivity| |lia].
  apply binary_round_sign_off.
Qed.

(** ** The [float64] value of an integer *)

Lemma binary_round_not_nan (s : bool) (m : positive) (e : Z) :
  binary_round prec emax s m e <> S754_nan.
Proof.
  unfold binary_round. destruct (shl_align _ _ _) as [mz ez].
  apply binary_round_aux_not_nan. lia.
Qed.

Lemma binary_normalize_not_nan (m e : Z) :
  binary_normalize prec emax m e false <> S754_nan.
Proof.
  destruct m as [|q|q]; simpl; [discriminate| |];
    apply binary_round_not_nan.
Qed.

Lemma SFldexp_not_nan (x : spec_float) (e : Z) :
  x <> S754_nan -> SFldexp prec emax x e <> S754_nan.
Proof.
  destruct x as [s|s| |s m ex]; simpl; auto.
  intros _. apply binary_round_not_nan.
Qed.

Lemma SFldexp_sign_off (x : spec_float) (e : Z) :
  sign_off x -> sign_off (SFldexp prec emax x e).
Proof.
  destruct x as [s|s| |s m ex]; simpl; auto.
  intros ->. apply binary_round_sign_off.
Qed.

Lemma SF2Prim_not_nan (x : spec_float) :
  x <> S754_nan -> Prim2SF (SF2Prim x) <> S754_nan.
Proof.
  destruct x as [[|]|[|]| |s m e]; simpl; try discriminate; try congruence.
  intros _.
  assert (H : Prim2SF (Z.ldexp (of_uint63 (Uint63.of_Z (Zpos m))) e)
              <> S754_nan).
  { rewrite Z_ldexp_spec, of_uint63_spec.
    apply SFldexp_not_nan, binary_normalize_not_nan. }
  destruct s; [|exact H].
  rewrite opp_spec. destruct (Prim2SF _); simpl; congruence.
Qed.

Lemma SF2Prim_sign_off (x : spec_float) :
  sign_off x -> unsigned (SF2Prim x).
Proof.
  unfold unsigned.
  destruct x as [s|s| |s m e]; simpl; intros H; subst; try reflexivity.
  rewrite Z_ldexp_spec, of_uint63_spec.
  apply SFldexp_sign_off, binary_normalize_sign_off.
  apply Uint63.to_Z_bounded.
Qed.

Lemma float_of_Z_present (z : Z) : is_nan (float_of_Z z) = false.
Proof.
  apply is_nan_false, SF2Prim_not_nan, binary_normalize_not_nan.
Qed.

Lemma unsigned_float_of_Z (z : Z) : (0 <= z)%Z -> unsigned (float_of_Z z).
Proof.
  intros H. apply SF2Prim_sign_off, binary_normalize_sign_off, H.
Qed.

(** ** Whole numbers below 2^53

    Such a number is its own [float64] value, and differences and products
    that stay below 2^53 are computed without rounding. *)

Lemma binary_round_aux_opp (m e : Z) (l : location) :
  binary_round_aux prec emax true m e l
  = SFopp (binary_round_aux prec emax false m e l).
Proof.
  unfold binary_round_aux.
  destruct (shr_fexp prec emax m e l) as [mrs1 e1].
  destruct (shr_fexp prec emax _ e1 loc_Exact) as [mrs2 e2].
  destruct (shr_m mrs2); try reflexivity.
  destruct (Z.leb _ _); reflexivity.
Qed.

Lemma binary_round_opp (m : positive) (e : Z) :
  binary_round prec emax true m e = SFopp (binary_round prec emax false m e).
Proof.
  unfold binary_round. destruct (shl_align _ _ _) as [mz ez].
  apply binary_round_aux_opp.
Qed.

Lemma valid_binary_opp (x : spec_float) :
  valid_binary (SFopp x) = valid_binary x.
Proof. destruct x; reflexivity. Qed.

(** Within the 63-bit range the conversion is the specified rounding. *)
Lemma float_of_Z_spec (z : Z) :
  (- 2 ^ 63 < z < 2 ^ 63)%Z ->
  Prim2SF (float_of_Z z) = binary_normalize prec emax z 0 false.
Proof.
  intros Hz. unfold float_of_Z. apply Prim2SF_SF2Prim.
  assert (Hpos : forall n, (0 <= n < 2 ^ 63)%Z ->
             valid_binary (binary_normalize prec emax n 0 false) = true).
  { intros n Hn.
    rewrite <- (Z.mod_small n Uint63.wB) by exact Hn.
    rewrite <- Uint63.of_Z_spec, <- of_uint63_spec. apply Prim2SF_valid. }
  destruct z as [|p|p].
  - reflexivity.
  - apply Hpos. lia.
  - change (binary_normalize prec emax (Z.neg p) 0 false)
      with (binary_round prec emax true p 0).
    rewrite binary_round_opp, valid_binary_opp.
    apply (Hpos (Zpos p)). lia.
Qed.

(** *** Digits *)

Lemma digits2_pos_bounds (p : positive) :
  (2 ^ (Zpos (digits2_pos p) - 1) <= Zpos p < 2 ^ Zpos (digits2_pos p))%Z.
Proof.
  induction p as [p IH|p IH|]; simpl digits2_pos.
  - rewrite Pos2Z.inj_succ.
    replace (Z.succ (Zpos (digits2_pos p)) - 1)%Z
      with (Z.succ (Zpos (digits2_pos p) - 1))%Z by lia.
    rewrite !Z.pow_succ_r by lia. lia.
  - rewrite Pos2Z.inj_succ.
    replace (Z.succ (Zpos (digits2_pos p)) - 1)%Z
      with (Z.succ (Zpos (digits2_pos p) - 1))%Z by lia.
    rewrite !Z.pow_succ_r by lia. lia.
  - simpl. lia.
Qed.

Lemma digits2_pos_unique (p : positive) (d : Z) :
  (2 ^ (d - 1) <= Zpos p < 2 ^ d)%Z -> Zpos (digits2_pos p) = d.
Proof.
  intros [Hlo Hhi]. pose proof (digits2_pos_bounds p) as [Blo Bhi].
  set (dp := Zpos (digits2_pos p)) in *.
  assert (Hd : (0 < d)%Z).
  { destruct (Z.le_gt_cases d 0) as [H|H]; [|exact H].
    assert (2 ^ d <= 2 ^ 0)%Z by (apply Z.pow_le_mono_r; lia).
    simpl in *. lia. }
  assert (H1 : (d - 1 < dp)%Z).
  { apply (Z.pow_lt_mono_r_iff 2); [lia|unfold dp; lia|lia]. }
  assert (H2 : (dp - 1 < d)%Z).
  { apply (Z.pow_lt_mono_r_iff 2); lia. }
  lia.
Qed.

Lemma iter_xO_value (n p : positive) :
  Zpos (Pos.iter xO p n) = (Zpos p * 2 ^ Zpos n)%Z.
Proof.
  revert p. induction n as [|n IH] using Pos.peano_ind; intros p.
  - simpl. lia.
  - rewrite Pos.iter_succ, Pos2Z.inj_succ, Z.pow_succ_r by lia.
    rewrite Pos2Z.inj_xO, IH. lia.
Qed.

(** *** Shifting out zero bits *)

Lemma iter_pos_comm {A : Type} (f : A -> A) (n : positive) (x : A) :
  SpecFloat.iter_pos f n (f x) = f (SpecFloat.iter_pos f n x).
Proof.
  revert x. induction n as [n IH|n IH|]; intros x; simpl;
    rewrite ?IH; reflexivity.
Qed.

Lemma iter_pos_succ {A : Type} (f : A -> A) (n : positive) (x : A) :
  SpecFloat.iter_pos f (Pos.succ n) x = SpecFloat.iter_pos f n (f x).
Proof.
  revert x. induction n as [n IH|n IH|]; intros x; simpl.
  - rewrite !IH, !iter_pos_comm. reflexivity.
  - rewrite !iter_pos_comm. reflexivity.
  - reflexivity.
Qed.

Lemma iter_shr_1_exact (n w : positive) :
  SpecFloat.iter_pos shr_1 n
    {| shr_m := Zpos (Pos.iter xO w n); shr_r := false; shr_s := false |}
  = {| shr_m := Zpos w; shr_r := false; shr_s := false |}.
Proof.
  induction n as [|n IH] using Pos.peano_ind.
  - reflexivity.
  - rewrite iter_pos_succ, Pos.iter_succ. simpl. exact IH.
Qed.

(** A mantissa [w] of 53 bits followed by [n] zero bits rounds to [w]. *)
Lemma binary_round_aux_exact (s : bool) (m w : positive) (n e : Z) :
  Zpos (digits2_pos w) = 53%Z ->
  (-1074 <= e <= 971)%Z ->
  (0 <= n)%Z ->
  Zpos m = (Zpos w * 2 ^ n)%Z ->
  binary_round_aux prec emax s (Zpos m) (e - n) loc_Exact = S754_finite s w e.
Proof.
  intros Hw He Hn Hm.
  assert (Hdm : Zpos (digits2_pos m) = (53 + n)%Z).
  { apply digits2_pos_unique. rewrite Hm.
    pose proof (digits2_pos_bounds w) as [Blo Bhi]. rewrite Hw in Blo, Bhi.
    replace (53 + n - 1)%Z with (52 + n)%Z by lia.
    rewrite !Z.pow_add_r by lia.
    assert (0 < 2 ^ n)%Z by (apply Z.pow_pos_nonneg; lia).
    simpl in Blo. nia. }
  unfold binary_round_aux, shr_fexp, fexp, SpecFloat.emin. simpl Zdigits2.
  rewrite Hdm.
  replace (Z.max (53 + n + (e - n) - prec) (3 - emax - prec) - (e - n))%Z
    with n by (unfold prec, emax; lia).
  assert (Hfirst : shr (shr_record_of_loc (Zpos m) loc_Exact) (e - n) n
                   = ({| shr_m := Zpos w; shr_r := false; shr_s := false |},
                      e)).
  { unfold shr. simpl shr_record_of_loc. destruct n as [|q|q]; [| |lia].
    - f_equal; [|lia]. f_equal. rewrite Hm. simpl. lia.
    - f_equal; [|lia].
      assert (Hmq : m = Pos.iter xO w q).
      { apply Pos2Z.inj. rewrite iter_xO_value. exact Hm. }
      rewrite Hmq. apply iter_shr_1_exact. }
  rewrite Hfirst. simpl loc_of_shr_record. simpl round_nearest_even.
  simpl shr_m at 1. simpl Zdigits2. rewrite Hw.
  replace (Z.max (53 + e - prec) (3 - emax - prec) - e)%Z with 0%Z
    by (unfold prec, emax; lia).
  simpl. replace (e <=? 971)%Z with true by (symmetry; apply Z.leb_le; lia).
  reflexivity.
Qed.

Lemma mantissa_value (u : positive) :
  (Zpos u < 2 ^ 53)%Z ->
  Zpos (whole_mantissa u) = (Zpos u * 2 ^ (53 - Zpos (digits2_pos u)))%Z
  /\ Zpos (digits2_pos (whole_mantissa u)) = 53%Z
  /\ (-52 <= whole_exponent u <= 0)%Z.
Proof.
  intros Hu. pose proof (digits2_pos_bounds u) as [Blo Bhi].
  set (d := Zpos (digits2_pos u)) in *.
  assert (Hd : (1 <= d <= 53)%Z).
  { split; [unfold d; lia|].
    assert (d - 1 < 53)%Z; [|lia].
    apply (Z.pow_lt_mono_r_iff 2); unfold d in *; lia. }
  assert (Hpow : (0 < 2 ^ (53 - d))%Z) by (apply Z.pow_pos_nonneg; lia).
  assert (Hval : Zpos (whole_mantissa u) = (Zpos u * 2 ^ (53 - d))%Z).
  { unfold whole_mantissa. fold d. rewrite Z2Pos.id; [reflexivity|nia]. }
  split; [exact Hval|]. split; [|unfold whole_exponent; fold d; lia].
  apply digits2_pos_unique. rewrite Hval.
  assert (E52 : (2 ^ (53 - 1) = 2 ^ (d - 1) * 2 ^ (53 - d))%Z).
  { rewrite <- Z.pow_add_r by lia. f_equal. lia. }
  assert (E53 : (2 ^ 53 = 2 ^ d * 2 ^ (53 - d))%Z).
  { rewrite <- Z.pow_add_r by lia. f_equal. lia. }
  rewrite E52, E53. nia.
Qed.

(** An integer [u] below 2^53 written with [k] more zero bits rounds to
    itself. *)
Lemma binary_round_exact (s : bool) (m u : positive) (k : Z) :
  (0 <= k)%Z -> Zpos m = (Zpos u * 2 ^ k)%Z -> (Zpos u < 2 ^ 53)%Z ->
  binary_round prec emax s m (- k)
  = S754_finite s (whole_mantissa u) (whole_exponent u).
Proof.
  intros Hk Hm Hu.
  destruct (mantissa_value u Hu) as (Hval & Hdig & Hexp).
  pose proof (digits2_pos_bounds u) as [Blo Bhi].
  set (d := Zpos (digits2_pos u)) in *.
  assert (Hd : (1 <= d <= 53)%Z)
    by (unfold whole_exponent in Hexp; fold d in Hexp; lia).
  assert (Hpk : (0 < 2 ^ k)%Z) by (apply Z.pow_pos_nonneg; lia).
  assert (Hdm : Zpos (digits2_pos m) = (d + k)%Z).
  { apply digits2_pos_unique. rewrite Hm.
    replace (d + k - 1)%Z with (d - 1 + k)%Z by lia.
    rewrite !Z.pow_add_r by lia. nia. }
  unfold binary_round, fexp, SpecFloat.emin. rewrite Hdm.
  replace (Z.max (d + k + - k - prec) (3 - emax - prec))%Z with (d - 53)%Z
    by (unfold prec, emax; lia).
  unfold shl_align.
  destruct (d - 53 - - k)%Z as [|q|q] eqn:E.
  - (* already aligned *)
    replace (- k)%Z with (whole_exponent u - 0)%Z
      by (unfold whole_exponent; fold d; lia).
    apply binary_round_aux_exact; try lia.
    rewrite Hm, Hval. fold d. replace (53 - d)%Z with k by lia. simpl. lia.
  - (* zero bits to shift out *)
    replace (- k)%Z with (whole_exponent u - Zpos q)%Z
      by (unfold whole_exponent; fold d; lia).
    apply binary_round_aux_exact; try lia.
    rewrite Hm, Hval. fold d.
    replace k with (53 - d + Zpos q)%Z by lia.
    rewrite Z.pow_add_r by lia. lia.
  - (* too few bits: shifted left *)
    replace (d - 53)%Z with (whole_exponent u - 0)%Z
      by (unfold whole_exponent; fold d; lia).
    apply binary_round_aux_exact; try lia.
    rewrite iter_xO_value, Hm, Hval. fold d.
    replace (53 - d)%Z with (k + Zpos q)%Z by lia.
    rewrite Z.pow_add_r by lia. simpl (2 ^ 0)%Z. lia.
Qed.

Lemma binary_normalize_exact (z k : Z) :
  (0 <= k)%Z -> (Z.abs z < 2 ^ 53)%Z ->
  binary_normalize prec emax (z * 2 ^ k) (- k) false = SF_of_Z z.
Proof.
  intros Hk Hz.
  assert (Hpk : (0 < 2 ^ k)%Z) by (apply Z.pow_pos_nonneg; lia).
  destruct z as [|u|u]; [reflexivity| |].
  - destruct (Zpos u * 2 ^ k)%Z as [|m|m] eqn:E; try lia.
    simpl. apply binary_round_exact; [exact Hk|symmetry; exact E|lia].
  - destruct (Zneg u * 2 ^ k)%Z as [|m|m] eqn:E; try lia.
    simpl. apply binary_round_exact; [exact Hk| |lia]. lia.
Qed.

Lemma float_of_Z_exact (z : Z) :
  (Z.abs z < 2 ^ 53)%Z -> Prim2SF (float_of_Z z) = SF_of_Z z.
Proof.
  intros Hz. rewrite float_of_Z_spec by lia.
  rewrite <- (binary_normalize_exact z 0) by lia.
  simpl (2 ^ 0)%Z. rewrite Z.mul_1_r. reflexivity.
Qed.

Lemma SF_of_Z_opp (z : Z) : SFopp (SF_of_Z z) = SF_of_Z (- z) \/ z = 0%Z.
Proof. destruct z; simpl; auto. Qed.

(** Aligning the mantissa of a whole number to a lower exponent. *)
Lemma shl_align_value (u : positive) (ez : Z) :
  (Zpos u < 2 ^ 53)%Z -> (ez <= whole_exponent u)%Z ->
  Zpos (fst (shl_align (whole_mantissa u) (whole_exponent u) ez))
  = (Zpos u * 2 ^ (- ez))%Z.
Proof.
  intros Hu Hez. destruct (mantissa_value u Hu) as (Hval & _ & Hexp).
  unfold shl_align. unfold whole_exponent in *.
  set (d := Zpos (digits2_pos u)) in *.
  destruct (ez - (d - 53))%Z as [|q|q] eqn:E; try lia; simpl fst.
  - rewrite Hval. f_equal. f_equal. lia.
  - rewrite iter_xO_value, Hval, <- Z.mul_assoc, <- Z.pow_add_r by lia.
    f_equal. f_equal. lia.
Qed.

Lemma cond_Zopp_value (s : bool) (u : positive) (z c : Z) :
  z = (if s then Zneg u else Zpos u) ->
  cond_Zopp s (Zpos u * c) = (z * c)%Z.
Proof.
  intros ->. destruct s; unfold cond_Zopp; [|reflexivity].
  rewrite <- Pos2Z.opp_pos. ring.
Qed.

(** Subtraction of integers is exact while everything stays below 2^53. *)
Lemma SFsub_exact (a b : Z) :
  (Z.abs a < 2 ^ 53)%Z -> (Z.abs b < 2 ^ 53)%Z ->
  (Z.abs (a - b) < 2 ^ 53)%Z ->
  SF64sub (SF_of_Z a) (SF_of_Z b) = SF_of_Z (a - b).
Proof.
  intros Ha Hb Hab.
  assert (Hfin : forall (sa : bool) (ua : positive) (sb : bool)
                    (ub : positive) (za zb : Z),
             za = (if sa then Zneg ua else Zpos ua) ->
             zb = (if sb then Zneg ub else Zpos ub) ->
             (Zpos ua < 2 ^ 53)%Z -> (Zpos ub < 2 ^ 53)%Z ->
             (Z.abs (za - zb) < 2 ^ 53)%Z ->
             SF64sub (S754_finite sa (whole_mantissa ua) (whole_exponent ua))
                     (S754_finite sb (whole_mantissa ub) (whole_exponent ub))
             = SF_of_Z (za - zb)).
  { intros sa ua sb ub za zb Hza Hzb Hua Hub Hd.
    unfold SF64sub, SFsub. cbv zeta.
    set (ez := Z.min (whole_exponent ua) (whole_exponent ub)).
    destruct (mantissa_value ua Hua) as (_ & _ & Hea).
    destruct (mantissa_value ub Hub) as (_ & _ & Heb).
    rewrite (shl_align_value ua ez Hua) by (unfold ez; lia).
    rewrite (shl_align_value ub ez Hub) by (unfold ez; lia).
    rewrite (cond_Zopp_value sa ua za _ Hza),
      (cond_Zopp_value sb ub zb _ Hzb), <- Z.mul_sub_distr_r.
    replace ez with (- (- ez))%Z at 2 by lia.
    apply binary_normalize_exact; [unfold ez; lia|exact Hd]. }
  destruct a as [|ua|ua], b as [|ub|ub]; try reflexivity.
  - apply (Hfin false ua false ub); auto; lia.
  - apply (Hfin false ua true ub); auto; lia.
  - apply (Hfin true ua false ub); auto; lia.
  - apply (Hfin true ua true ub); auto; lia.
Qed.

(** So is multiplication by a positive integer. *)
Lemma SFmul_exact (c : positive) (v : Z) :
  (Zpos c < 2 ^ 53)%Z -> (Z.abs v < 2 ^ 53)%Z ->
  (Z.abs (Zpos c * v) < 2 ^ 53)%Z ->
  SF64mul (SF_of_Z (Zpos c)) (SF_of_Z v) = SF_of_Z (Zpos c * v).
Proof.
  intros Hc Hv Hcv.
  assert (Hfin : forall (s : bool) (u : positive),
             (Zpos u < 2 ^ 53)%Z -> (Zpos (c * u) < 2 ^ 53)%Z ->
             SF64mul (S754_finite false (whole_mantissa c) (whole_exponent c))
                     (S754_finite s (whole_mantissa u) (whole_exponent u))
             = S754_finite s (whole_mantissa (c * u)) (whole_exponent (c * u))).
  { intros s u Hu Hcu. unfold SF64mul, SFmul. simpl xorb.
    destruct (mantissa_value c Hc) as (Vc & _ & Ec).
    destruct (mantissa_value u Hu) as (Vu & _ & Eu).
    destruct (mantissa_value (c * u) Hcu) as (Vcu & Dcu & Ecu).
    pose proof (digits2_pos_bounds c) as [Clo Chi].
    pose proof (digits2_pos_bounds u) as [Ulo Uhi].
    pose proof (digits2_pos_bounds (c * u)) as [CUlo CUhi].
    unfold whole_exponent in *.
    set (dc := Zpos (digits2_pos c)) in *.
    set (du := Zpos (digits2_pos u)) in *.
    set (dcu := Zpos (digits2_pos (c * u))) in *.
    assert (Hdcu : (dc + du - 1 <= dcu)%Z).
    { assert (dc - 1 + (du - 1) < dcu)%Z; [|lia].
      apply (Z.pow_lt_mono_r_iff 2); [lia|unfold dcu; lia|].
      rewrite Z.pow_add_r by lia.
      rewrite Pos2Z.inj_mul in CUhi. nia. }
    replace (dc - 53 + (du - 53))%Z
      with (dcu - 53 - (dcu - dc - du + 53))%Z by lia.
    apply binary_round_aux_exact; try lia.
    rewrite Pos2Z.inj_mul, Vc, Vu, Vcu, Pos2Z.inj_mul.
    fold dc du dcu.
    replace (Zpos c * 2 ^ (53 - dc) * (Zpos u * 2 ^ (53 - du)))%Z
      with (Zpos c * Zpos u * (2 ^ (53 - dc) * 2 ^ (53 - du)))%Z by ring.
    rewrite <- (Z.mul_assoc _ (2 ^ (53 - dcu))), <- !Z.pow_add_r by lia.
    f_equal. f_equal. lia. }
  destruct v as [|u|u]; [reflexivity| |].
  - simpl. apply Hfin; lia.
  - simpl. apply Hfin; lia.
Qed.

(** [100 * (o - s)] on whole numbers of magnitude at most 2^45 is the same
    number whether computed in integers or in [float64]. *)
Lemma scaled_difference_exact (s o : Z) :
  (Z.abs s <= 2 ^ 45)%Z -> (Z.abs o <= 2 ^ 45)%Z ->
  float_of_Z (100 * (o - s)) = 100 * (float_of_Z o - float_of_Z s).
Proof.
  intros Hs Ho.
  change (2 ^ 45)%Z with 35184372088832%Z in Hs, Ho.
  assert (H53 : (2 ^ 53 = 9007199254740992)%Z) by reflexivity.
  apply Prim2SF_inj.
  rewrite mul_spec, sub_spec, !float_of_Z_exact by (rewrite H53; lia).
  change (Prim2SF 100) with (SF_of_Z 100).
  rewrite SFsub_exact, SFmul_exact by (rewrite H53; lia).
  reflexivity.
Qed.

End Float64.

(* ------------------------------------------------------------------ *)
(** * Facts on the frame operations *)

Module PandasFacts.

Import Pandas Float64.
Open Scope float_scope.

(** ** Boolean-mask selection *)

Lemma filter_all {A : Type} (f : A -> bool) (l : list A) :
  (forall x, In x l -> f x = true) -> filter f l = l.
Proof.
  induction l as [|a l IH]; simpl; intros H; [reflexivity|].
  rewrite (H a (or_introl eq_refl)). f_equal. apply IH. auto.
Qed.

Lemma filter_idem {A : Type} (f : A -> bool) (l : list A) :
  filter f (filter f l) = filter f l.
Proof. apply filter_all. intros x Hx. apply filter_In in Hx. tauto. Qed.

Lemma In_firstn {A : Type} (n : nat) (l : list A) (x : A) :
  In x (firstn n l) -> In x l.
Proof.
  revert l. induction n as [|n IH]; intros [|a l]; simpl; try tauto.
  intros [H|H]; [left; exact H|right; apply IH, H].
Qed.

Lemma filter_split_length {A : Type} (f : A -> bool) (l : list A) :
  (List.length (filter (fun x => negb (f x)) l) + List.length (filter f l))%nat
  = List.length l.
Proof.
  induction l as [|a l IH]; simpl; [reflexivity|].
  destruct (f a); simpl; lia.
Qed.

(** ** [nlargest] *)

Section NLargestFacts.
Context {R : Type}.
Variable key : R -> float.

Lemma desc_trans : Relation_Definitions.transitive R (desc key).
Proof.
  intros a b c Hab [Hc|Hcb]; [left; assumption|].
  destruct (leb_present _ _ Hcb) as [_ Hb].
  destruct Hab as [Hnan|Hba]; [congruence|].
  right. exact (leb_trans _ _ _ Hcb Hba).
Qed.

Lemma In_insert_desc (r x : R) (l : list R) :
  In x (insert_desc key r l) <-> x = r \/ In x l.
Proof.
  induction l as [|h t IH]; simpl.
  - intuition congruence.
  - destruct (key h <=? key r); simpl; rewrite ?IH; intuition congruence.
Qed.

Lemma In_sort_desc (x : R) (l : list R) :
  In x (sort_desc key l) <-> In x l.
Proof.
  induction l as [|h t IH]; simpl; [tauto|].
  rewrite In_insert_desc, IH. intuition congruence.
Qed.

Lemma length_insert_desc (r : R) (l : list R) :
  List.length (insert_desc key r l) = S (List.length l).
Proof.
  induction l as [|h t IH]; simpl; [reflexivity|].
  destruct (key h <=? key r); simpl; congruence.
Qed.

Lemma length_sort_desc (l : list R) :
  List.length (sort_desc key l) = List.length l.
Proof.
  induction l as [|h t IH]; simpl; [reflexivity|].
  rewrite length_insert_desc. congruence.
Qed.

Lemma HdRel_insert_desc (a r : R) (l : list R) :
  ge_key key a r -> HdRel (ge_key key) a l ->
  HdRel (ge_key key) a (insert_desc key r l).
Proof.
  intros Har Hal. destruct l as [|h t]; simpl.
  - constructor. assumption.
  - destruct (key h <=? key r); constructor; [assumption|].
    inversion Hal; assumption.
Qed.

Lemma insert_desc_sorted (r : R) (l : list R) :
  is_nan (key r) = false ->
  Forall (fun x => is_nan (key x) = false) l ->
  Sorted (ge_key key) l -> Sorted (ge_key key) (insert_desc key r l).
Proof.
  intros Hr. induction l as [|h t IH]; simpl; intros Hl Hs.
  - repeat constructor.
  - destruct (key h <=? key r) eqn:E.
    + constructor; [assumption|]. constructor. exact E.
    + inversion Hl as [|? ? Hh Ht]; subst.
      inversion Hs as [|? ? Hst Hhd]; subst.
      constructor; [apply IH; assumption|].
      apply HdRel_insert_desc; [|assumption].
      exact (leb_total _ _ Hh Hr E).
Qed.

Lemma sort_desc_present (l : list R) :
  Forall (fun x => is_nan (key x) = false) l ->
  Forall (fun x => is_nan (key x) = false) (sort_desc key l).
Proof.
  rewrite !Forall_forall. intros H x Hx. apply H, In_sort_desc, Hx.
Qed.

Lemma sort_desc_sorted (l : list R) :
  Forall (fun x => is_nan (key x) = false) l ->
  Sorted (ge_key key) (sort_desc key l).
Proof.
  induction l as [|h t IH]; simpl; intros Hl; [constructor|].
  inversion Hl; subst.
  apply insert_desc_sorted; auto using sort_desc_present.
Qed.

Lemma dropna_present (df : list R) :
  Forall (fun x => is_nan (key x) = false) (dropna key df).
Proof.
  apply Forall_forall. intros x Hx. apply filter_In in Hx.
  destruct Hx as [_ Hx]. destruct (is_nan (key x)); [discriminate|reflexivity].
Qed.

Lemma nan_rows_missing (df : list R) :
  Forall (fun x => is_nan (key x) = true) (nan_rows key df).
Proof.
  apply Forall_forall. intros x Hx. apply filter_In in Hx. tauto.
Qed.

(** Present keys in descending order, then the missing keys. *)
Lemma sorted_then_missing (l m : list R) :
  Sorted (ge_key key) l ->
  Forall (fun x => is_nan (key x) = true) m ->
  Sorted (desc key) (l ++ m).
Proof.
  intros Hl Hm. induction l as [|a l IH]; simpl.
  - induction Hm as [|b m Hb Hm IHm]; constructor; [assumption|].
    destruct Hm; constructor. left. assumption.
  - inversion Hl as [|? ? Hs Hhd]; subst.
    constructor; [apply IH; assumption|].
    destruct l as [|b l]; simpl.
    + destruct Hm; constructor. left. assumption.
    + constructor. right. inversion Hhd; assumption.
Qed.

Lemma Sorted_firstn {A : Type} (rel : A -> A -> Prop) (n : nat) (l : list A) :
  Sorted rel l -> Sorted rel (firstn n l).
Proof.
  revert l. induction n as [|n IH]; intros l Hl; simpl; [constructor|].
  destruct l as [|a l]; [constructor|].
  inversion Hl as [|? ? Hs Hhd]; subst.
  constructor; [apply IH; assumption|].
  destruct n; simpl; [constructor|].
  destruct l; constructor. inversion Hhd; assumption.
Qed.

(** The rows [nlargest] returns are in descending order of the key, every
    pair of them, rows with a missing key last. *)
Lemma nlargest_sorted (n : nat) (df : list R) :
  StronglySorted (desc key) (nlargest key n df).
Proof.
  apply Sorted_StronglySorted; [exact desc_trans|].
  apply Sorted_firstn, sorted_then_missing.
  - apply sort_desc_sorted, dropna_present.
  - apply nan_rows_missing.
Qed.

Lemma nlargest_length (n : nat) (df : list R) :
  List.length (nlargest key n df) = Nat.min n (List.length df).
Proof.
  unfold nlargest. rewrite length_firstn, length_app, length_sort_desc.
  unfold dropna, nan_rows.
  rewrite (filter_split_length (fun r => is_nan (key r)) df). reflexivity.
Qed.

Lemma nlargest_In (n : nat) (df : list R) (x : R) :
  In x (nlargest key n df) -> In x df.
Proof.
  unfold nlargest. intros H. apply In_firstn in H.
  apply in_app_or in H. destruct H as [H|H].
  - rewrite In_sort_desc in H. apply filter_In in H. tauto.
  - apply filter_In in H. tauto.
Qed.

(** Descending order with every key present is plain descending order. *)
Lemma desc_present (l : list R) :
  StronglySorted (desc key) l ->
  Forall (fun r => is_nan (key r) = false) l ->
  StronglySorted (ge_key key) l.
Proof.
  intros Hs. induction Hs as [|a l Hl IH Ha]; intros Hp; constructor.
  - apply IH. inversion Hp; assumption.
  - inversion Hp as [|? ? Hpa Hpl]; subst.
    rewrite Forall_forall in *. intros b Hb.
    destruct (Ha b Hb) as [Hn|Hle]; [|exact Hle].
    rewrite (Hpl b Hb) in Hn. discriminate.
Qed.

(** With every key present, each row's key is at least the key of every
    later row. *)
Lemma nlargest_sorted_present (n : nat) (df : list R) :
  Forall (fun x => is_nan (key x) = false) df ->
  StronglySorted (ge_key key) (nlargest key n df).
Proof.
  intros Hdf. apply desc_present; [apply nlargest_sorted|].
  apply Forall_forall. intros x Hx. apply nlargest_In in Hx.
  rewrite Forall_forall in Hdf. auto.
Qed.
End NLargestFacts.

End PandasFacts.

(* ------------------------------------------------------------------ *)
(** * The filter pipeline *)

Module FilterFacts.

Import Pandas FTA Float64 PandasFacts.
Open Scope float_scope.

Lemma select_isin_filter (col : Row -> string) (choice : list string)
  (df : list Row) :
  select_isin col choice df = filter (chosen col choice) df.
Proof.
  destruct choice as [|v vs]; simpl; [|reflexivity].
  symmetry. apply filter_all. reflexivity.
Qed.

Lemma filter_filter {A : Type} (f g : A -> bool) (l : list A) :
  filter f (filter g l) = filter (fun x => g x && f x) l.
Proof.
  induction l as [|a l IH]; simpl; [reflexivity|].
  destruct (g a); simpl; [destruct (f a)|]; rewrite IH; reflexivity.
Qed.

Lemma apply_filters_keeps (c : Controls) (df : list Row) :
  apply_filters c df = filter (keeps c) df.
Proof.
  unfold apply_filters. rewrite !select_isin_filter, !filter_filter.
  apply filter_ext. intros r. unfold keeps. rewrite !andb_assoc. reflexivity.
Qed.

Lemma apply_filters_In (c : Controls) (df : list Row) (r : Row) :
  In r (apply_filters c df) <->
  In r df /\ chosen brand_name (brand_filter c) r = true
          /\ chosen device_type (device_filter c) r = true
          /\ chosen color (color_filter c) r = true
          /\ in_range c r = true.
Proof.
  unfold apply_filters. rewrite !select_isin_filter, !filter_In. tauto.
Qed.

End FilterFacts.

(* ------------------------------------------------------------------ *)
(** * Sign of a numeral

    A text with no minus sign is read as a value that is missing or at
    least zero: the digit loop starts at [0] and only multiplies by ten and
    adds a digit, the result is multiplied or divided by a power of ten,
    and none of these operations turns the sign bit on; the words for
    infinity without a minus sign give plus infinity. *)

Module NumeralFacts.

Import Pandas Float64.
Open Scope float_scope.

Lemma SFmul_sign_off (x y : spec_float) :
  sign_off x -> sign_off y -> sign_off (SF64mul x y).
Proof.
  destruct x as [sx|sx| |sx mx ex], y as [sy|sy| |sy my ey]; simpl;
    intros Hx Hy; subst; simpl; auto.
  apply binary_round_aux_sign_off.
Qed.

Lemma SFadd_sign_off (x y : spec_float) :
  sign_off x -> sign_off y -> sign_off (SF64add x y).
Proof.
  destruct x as [sx|sx| |sx mx ex], y as [sy|sy| |sy my ey]; simpl;
    intros Hx Hy; subst; simpl; auto.
  apply binary_round_sign_off.
Qed.

Lemma SFdiv_sign_off (x y : spec_float) :
  sign_off x -> sign_off y -> sign_off (SF64div x y).
Proof.
  destruct x as [sx|sx| |sx mx ex], y as [sy|sy| |sy my ey]; simpl;
    intros Hx Hy; subst; simpl; auto.
  destruct (SFdiv_core_binary _ _ _ _ _ _) as [[mz ez] lz].
  apply binary_round_aux_sign_off.
Qed.

Lemma unsigned_mul (x y : float) : unsigned x -> unsigned y -> unsigned (x * y).
Proof. unfold unsigned. rewrite mul_spec. apply SFmul_sign_off. Qed.

Lemma unsigned_add (x y : float) : unsigned x -> unsigned y -> unsigned (x + y).
Proof. unfold unsigned. rewrite add_spec. apply SFadd_sign_off. Qed.

Lemma unsigned_div (x y : float) : unsigned x -> unsigned y -> unsigned (x / y).
Proof. unfold unsigned. rewrite div_spec. apply SFdiv_sign_off. Qed.

Lemma unsigned_of_uint63 (n : Uint63.int) : unsigned (of_uint63 n).
Proof.
  unfold unsigned. rewrite of_uint63_spec. apply binary_normalize_sign_off.
  apply Uint63.to_Z_bounded.
Qed.

Lemma unsigned_nonneg (x : float) : unsigned x -> nonneg_or_missing x.
Proof.
  unfold unsigned, nonneg_or_missing. intros H.
  rewrite FloatAxioms.leb_spec.
  change (Prim2SF 0) with (S754_zero false).
  destruct (is_nan x) eqn:E; [left; reflexivity|right].
  unfold is_nan in E. rewrite FloatAxioms.eqb_spec in E.
  unfold SFleb. destruct (Prim2SF x) as [s|s| |s m e]; simpl in *; subst; auto;
    discriminate.
Qed.

Lemma unsigned_power_of_ten (k : Z) : unsigned (power_of_ten k).
Proof. apply unsigned_float_of_Z, Z.pow_nonneg. lia. Qed.

Lemma unsigned_step (number : float) (c : ascii) :
  unsigned number -> unsigned (number * 10 + digit_value c).
Proof.
  intros H. apply unsigned_add; [|apply unsigned_of_uint63].
  apply unsigned_mul; [exact H|reflexivity].
Qed.

Lemma read_integer_part_unsigned (s : string) (number : float)
  (num_digits : nat) (exponent : Z) :
  unsigned number ->
  unsigned (fst (fst (fst (read_integer_part s number num_digits exponent)))).
Proof.
  revert number num_digits exponent.
  induction s as [|c rest IH]; intros number num_digits exponent H; simpl;
    [exact H|].
  destruct (is_digit c); [|exact H].
  destruct (num_digits <? max_digits)%nat; apply IH; [|exact H].
  apply unsigned_step, H.
Qed.

Lemma read_decimals_unsigned (s : string) (number : float)
  (num_digits num_decimals : nat) :
  unsigned number ->
  unsigned (fst (fst (fst (read_decimals s number num_digits num_decimals)))).
Proof.
  revert number num_digits num_decimals.
  induction s as [|c rest IH]; intros number num_digits num_decimals H; simpl;
    [exact H|].
  destruct ((num_digits <? max_digits)%nat && is_digit c); [|exact H].
  apply IH, unsigned_step, H.
Qed.

Lemma read_decimal_part_unsigned (s : string) (number : float)
  (num_digits : nat) (exponent : Z) :
  unsigned number ->
  unsigned
    (fst (fst (fst (fst (read_decimal_part s number num_digits exponent))))).
Proof.
  intros H. destruct s as [|c rest]; simpl; [exact H|].
  destruct (Ascii.eqb c "."); [|exact H].
  pose proof (read_decimals_unsigned rest number num_digits 0%nat H) as Hd.
  destruct (read_decimals rest number num_digits 0%nat) as [[[n d] k] s'].
  exact Hd.
Qed.

Lemma scale_unsigned (number x : float) (exponent : Z) :
  unsigned number -> scale number exponent = Some x -> unsigned x.
Proof.
  intros H. unfold scale.
  destruct (308 <? exponent)%Z; [discriminate|].
  destruct (0 <? exponent)%Z.
  { intros E. injection E as <-.
    apply unsigned_mul; [exact H|apply unsigned_power_of_ten]. }
  destruct (exponent <? -308)%Z.
  - destruct (exponent <? -616)%Z; intros E; injection E as <-.
    + reflexivity.
    + apply unsigned_div; [|apply unsigned_power_of_ten].
      apply unsigned_div; [exact H|apply unsigned_power_of_ten].
  - intros E. injection E as <-.
    apply unsigned_div; [exact H|apply unsigned_power_of_ten].
Qed.

Lemma has_minus_remove_commas (s : string) :
  has_minus s = false -> has_minus (remove_commas s) = false.
Proof.
  induction s as [|c rest IH]; simpl; [reflexivity|].
  intros H. apply orb_false_iff in H. destruct H as [Hc Hrest].
  destruct (Ascii.eqb c ","); simpl; [auto|].
  rewrite Hc. simpl. auto.
Qed.

Lemma has_minus_skip_spaces (s : string) :
  has_minus s = false -> has_minus (skip_spaces s) = false.
Proof.
  induction s as [|c rest IH]; simpl; [reflexivity|].
  intros H. destruct (is_space c); [|exact H].
  apply IH. apply orb_false_iff in H. tauto.
Qed.

Lemma read_sign_no_minus (s : string) :
  has_minus s = false -> fst (read_sign s) = false.
Proof.
  destruct s as [|c rest]; simpl; [reflexivity|].
  intros H. apply orb_false_iff in H. destruct H as [-> _].
  destruct (Ascii.eqb c "+"); reflexivity.
Qed.

(** A numeral read from a text without a minus sign has its sign bit
    off. *)
Lemma to_double_unsigned (s : string) (x : float) (maybe_int : bool) :
  has_minus s = false -> to_double s = Some (x, maybe_int) -> unsigned x.
Proof.
  intros Hminus. unfold to_double.
  pose proof (read_sign_no_minus _ (has_minus_skip_spaces _ Hminus)) as Hsign.
  destruct (read_sign (skip_spaces s)) as [negative s1]. simpl in Hsign.
  subst negative.
  pose proof (read_integer_part_unsigned s1 0 0%nat 0%Z eq_refl) as Hint.
  destruct (read_integer_part s1 0 0%nat 0%Z) as [[[number n1] e1] s2].
  simpl in Hint.
  pose proof (read_decimal_part_unsigned s2 number n1 e1 Hint) as Hdec.
  destruct (read_decimal_part s2 number n1 e1) as [[[[number' n2] e2] b2] s3].
  simpl in Hdec.
  destruct (n2 =? 0)%nat; [discriminate|].
  destruct (read_exponent_part s3 e2 b2) as [[e3 b3] s4].
  destruct (scale number' e3) as [y|] eqn:E; [|discriminate].
  destruct (is_infinity y); [discriminate|].
  destruct (skip_spaces s4); [|discriminate].
  intros H. injection H as <- _. exact (scale_unsigned _ _ _ Hdec E).
Qed.

(** Lower-casing leaves minus signs and commas where they are. *)
Lemma lower_minus (c : ascii) : Ascii.eqb (lower c) "-" = Ascii.eqb c "-".
Proof. destruct c as [[] [] [] [] [] [] [] []]; reflexivity. Qed.

Lemma lower_comma (c : ascii) : Ascii.eqb (lower c) "," = Ascii.eqb c ",".
Proof. destruct c as [[] [] [] [] [] [] [] []]; reflexivity. Qed.

Lemma has_minus_lowercase (s : string) :
  has_minus (lowercase s) = has_minus s.
Proof.
  induction s as [|c rest IH]; simpl; [reflexivity|].
  rewrite lower_minus, IH. reflexivity.
Qed.

Lemma strcasecmp_minus (s word : string) :
  has_minus s = false -> has_minus word = true -> strcasecmp s word = false.
Proof.
  intros Hs Hw. unfold strcasecmp.
  destruct (String.eqb (lowercase s) word) eqn:E; [|reflexivity].
  apply String.eqb_eq in E. rewrite <- E, has_minus_lowercase in Hw.
  congruence.
Qed.

Lemma floatify_unsigned (s : string) (x : float) (maybe_int : bool) :
  has_minus s = false -> floatify s = Some (x, maybe_int) -> unsigned x.
Proof.
  intros Hminus. unfold floatify.
  destruct (to_double s) as [[y b]|] eqn:E.
  - intros H. injection H as <- _. exact (to_double_unsigned _ _ _ Hminus E).
  - destruct (_ || _ || _ || _).
    + intros H. injection H as <- _. reflexivity.
    + rewrite !(strcasecmp_minus s) by (exact Hminus || reflexivity).
      discriminate.
Qed.

Lemma read_int_digits_nonneg (s : string) (n : Z) (count : nat) :
  (0 <= n)%Z -> (0 <= fst (fst (read_int_digits s n count)))%Z.
Proof.
  revert n count. induction s as [|c rest IH]; intros n count H; simpl;
    [exact H|].
  destruct (is_digit c); [|exact H].
  apply IH. unfold digit. lia.
Qed.

Lemma python_int_nonneg (s : string) (z : Z) :
  has_minus s = false -> python_int s = Some z -> (0 <= z)%Z.
Proof.
  intros Hminus. unfold python_int.
  pose proof (read_sign_no_minus _ (has_minus_skip_spaces _ Hminus)) as Hsign.
  destruct (read_sign (skip_spaces s)) as [negative s1]. simpl in Hsign.
  subst negative.
  pose proof (read_int_digits_nonneg s1 0 0%nat (Z.le_refl 0)) as Hn.
  destruct (read_int_digits s1 0 0%nat) as [[n count] s2]. simpl in Hn.
  destruct (count =? 0)%nat; [discriminate|].
  destruct (skip_spaces s2); [|discriminate].
  intros H. injection H as <-. exact Hn.
Qed.

(** What the conversion loop sees in a text without a minus sign. *)
Lemma scan_unsigned (s : string) :
  has_minus s = false ->
  match scan (Text s) with
  | SeenFloat x => unsigned x
  | SeenInt z x => (0 <= z)%Z /\ unsigned x
  end.
Proof.
  intros Hminus. unfold scan. destruct s as [|c rest]; [reflexivity|].
  set (s := String c rest) in *.
  destruct (floatify s) as [[x [|]]|] eqn:E; try reflexivity.
  - pose proof (floatify_unsigned s x true Hminus E) as Hx.
    destruct (python_int s) as [z|] eqn:Ez; [|reflexivity].
    destruct (_ && _); [|exact Hx].
    split; [exact (python_int_nonneg s z Hminus Ez)|exact Hx].
  - exact (floatify_unsigned s x false Hminus E).
Qed.

(** A raw cell that carries no negative value is cleaned to a value that
    is missing or at least zero, whatever the column is typed as. *)
Lemma convert_unsigned (column : list Cell) (c : Cell) :
  unsigned_cell c ->
  nonneg_or_missing (to_float (convert column (replace_commas c))).
Proof.
  unfold convert. generalize (result_type (map scan column)) as d.
  destruct c as [s|x]; simpl replace_commas; intros d H.
  - pose proof (scan_unsigned (remove_commas s)
                  (has_minus_remove_commas s H)) as Hs.
    destruct (scan (Text (remove_commas s))) as [x|z x].
    + destruct d; apply unsigned_nonneg, Hs.
    + destruct Hs as [Hz Hx].
      destruct d; simpl; apply unsigned_nonneg;
        try exact Hx; apply unsigned_float_of_Z, Hz.
  - destruct d; exact H.
Qed.

End NumeralFacts.

(* ------------------------------------------------------------------ *)
(** * The loader *)

Module LoadFacts.

Import Pandas FTA Float64.
Open Scope float_scope.

Lemma assign_map (csv : list RawRow) (f g h : RawRow -> Number) :
  assign csv (map f csv) (map g csv) (map h csv)
  = map (fun raw => make_row raw (f raw) (g raw) (h raw)) csv.
Proof.
  induction csv as [|raw rest IH]; simpl; [reflexivity|].
  rewrite IH. reflexivity.
Qed.

Lemma load_data_frame (csv : list RawRow) : load_data csv = inr (frame csv).
Proof.
  unfold load_data, frame, to_numeric, loaded, cleaned_selling,
    cleaned_original, cleaned_reviews.
  generalize (convert (map replace_commas (map csv_selling_price csv))) as f.
  generalize (convert (map replace_commas (map csv_original_price csv))) as g.
  generalize (convert (map csv_reviews csv)) as h.
  intros h g f. rewrite !map_map.
  rewrite (assign_map csv
             (fun raw => f (replace_commas (csv_selling_price raw)))
             (fun raw => g (replace_commas (csv_original_price raw)))
             (fun raw => fillna 0 (h (csv_reviews raw)))).
  reflexivity.
Qed.

Lemma load_data_inv (csv : list RawRow) (df : list Row) :
  load_data csv = inr df -> df = frame csv.
Proof. rewrite load_data_frame. congruence. Qed.

Lemma Forall2_frame (P : RawRow -> Row -> Prop) (csv : list RawRow) :
  (forall raw, In raw csv -> P raw (loaded csv raw)) ->
  Forall2 P csv (frame csv).
Proof.
  unfold frame. generalize (loaded csv) as f. intros f.
  induction csv as [|raw rest IH]; simpl; intros H; constructor; auto.
Qed.

Lemma frame_In (csv : list RawRow) (r : Row) :
  In r (frame csv) -> exists raw, In raw csv /\ r = loaded csv raw.
Proof.
  unfold frame. intros H. apply in_map_iff in H.
  destruct H as (raw & <- & Hraw). eauto.
Qed.

(** ** The discount within the envelope *)

Lemma wrap_int64_small (z : Z) :
  (- 2 ^ 63 <= z < 2 ^ 63)%Z -> wrap_int64 z = z.
Proof.
  intros H. unfold wrap_int64.
  change (2 ^ 63)%Z with 9223372036854775808%Z in *.
  change (2 ^ 64)%Z with 18446744073709551616%Z.
  rewrite Z.mod_small by lia. lia.
Qed.

Lemma wrap_uint64_small (z : Z) :
  (0 <= z < 2 ^ 64)%Z -> wrap_uint64 z = z.
Proof. intros H. apply Z.mod_small, H. Qed.

Lemma float_of_Z_100 : float_of_Z 100 = 100.
Proof. reflexivity. Qed.

Lemma discount_formula (selling original : Number) :
  within_envelope selling original ->
  truediv (times 100 (sub original selling)) original
  = 100 * (to_float original - to_float selling) / to_float original.
Proof.
  unfold truediv.
  destruct selling as [s|s|s], original as [o|o|o];
    cbn [within_envelope sub times to_float];
    try (intros _; rewrite float_of_Z_100; reflexivity).
  - intros [Hs Ho].
    rewrite <- (scaled_difference_exact s o Hs Ho).
    change (2 ^ 45)%Z with 35184372088832%Z in Hs, Ho.
    rewrite (wrap_int64_small (o - s)), (wrap_int64_small (100 * (o - s)))
      by (change (2 ^ 63)%Z with 9223372036854775808%Z; lia).
    reflexivity.
  - intros [Hs Ho].
    rewrite <- (scaled_difference_exact s o) by lia.
    change (2 ^ 45)%Z with 35184372088832%Z in Ho.
    rewrite (wrap_uint64_small (o - s)), (wrap_uint64_small (100 * (o - s)))
      by (change (2 ^ 64)%Z with 18446744073709551616%Z; lia).
    reflexivity.
Qed.

(** ** Price categories *)

Lemma leb_infinity (x : float) : is_nan x = false -> (x <=? infinity) = true.
Proof.
  intros H. apply is_nan_false in H. rewrite FloatAxioms.leb_spec.
  change (Prim2SF infinity) with (S754_infinity false).
  unfold SFleb. destruct (Prim2SF x) as [s|s| |s m e]; simpl; try congruence;
    destruct s; reflexivity.
Qed.

Lemma eqb_leb (x y : float) :
  (x =? y) = true -> (x <=? y) = true /\ (y <=? x) = true.
Proof.
  rewrite FloatAxioms.eqb_spec, !FloatAxioms.leb_spec. unfold SFeqb, SFleb.
  rewrite (SFcompare_antisym (Prim2SF x) (Prim2SF y)).
  destruct (SFcompare (Prim2SF x) (Prim2SF y)) as [[ | | ]|];
    simpl; intros H; try discriminate. split; reflexivity.
Qed.

(** An edge [a] under an edge [b] under [p]: [p] is not within [a]. *)
Lemma above_edge (a b p : float) :
  (a <=? b) = true -> (b <? p) = true -> (p <=? a) = false.
Proof.
  intros Hab Hbp. destruct (p <=? a) eqn:E; [|reflexivity].
  pose proof (ltb_leb_trans _ _ _ Hbp E) as Hba.
  destruct (leb_present _ _ Hab) as [Ha Hb].
  rewrite (ltb_negb_leb b a Hb Ha), Hab in Hba. discriminate.
Qed.

(** [cut] on the script's bins, as a chain of right-closed tests. *)
Lemma price_category_cases (p : float) :
  cut price_bins price_labels p =
  if is_nan p then None
  else if p <=? 0 then None
  else if p <=? 2000 then Some Budget
  else if p <=? 5000 then Some MidRange
  else if p <=? 10000 then Some Premium
  else Some Luxury.
Proof.
  destruct (is_nan p) eqn:Hn.
  - unfold cut. rewrite Hn. reflexivity.
  - unfold cut, price_bins, price_labels, searchsorted_left. rewrite Hn.
    rewrite (ltb_negb_leb 0 p), (ltb_negb_leb 2000 p), (ltb_negb_leb 5000 p),
      (ltb_negb_leb 10000 p), (ltb_negb_leb infinity p)
      by (assumption || reflexivity).
    rewrite (leb_infinity p Hn).
    destruct (p <=? 0); [reflexivity|].
    destruct (p <=? 2000); [reflexivity|].
    destruct (p <=? 5000); [reflexivity|].
    destruct (p <=? 10000); reflexivity.
Qed.

(** A missing price is in no bin and has no category. *)
Ltac missing_price Hn :=
  split; [discriminate|];
  let H := fresh "H" in
  intros H; try (apply andb_true_iff in H; destruct H as [H _]);
  apply ltb_present in H; destruct H; congruence.

(** [b <? p] is false: rewrite it into [p <=? b]. *)
Ltac at_most H Hn :=
  rewrite ltb_negb_leb in H by (exact Hn || reflexivity);
  apply negb_false_iff in H; rewrite H.

Lemma price_category_budget (p : float) :
  cut price_bins price_labels p = Some Budget
  <-> (0 <? p) && (p <=? 2000) = true.
Proof.
  rewrite price_category_cases. destruct (is_nan p) eqn:Hn.
  - missing_price Hn.
  - rewrite (ltb_negb_leb 0 p) by (assumption || reflexivity).
    destruct (p <=? 0); simpl; [split; discriminate|].
    destruct (p <=? 2000); [tauto|].
    destruct (p <=? 5000); [split; discriminate|].
    destruct (p <=? 10000); split; discriminate.
Qed.

Lemma price_category_mid_range (p : float) :
  cut price_bins price_labels p = Some MidRange
  <-> (2000 <? p) && (p <=? 5000) = true.
Proof.
  rewrite price_category_cases. destruct (is_nan p) eqn:Hn.
  - missing_price Hn.
  - destruct (2000 <? p) eqn:H2.
    + rewrite (above_edge 0 2000 p), (above_edge 2000 2000 p)
        by (assumption || reflexivity).
      simpl. destruct (p <=? 5000); [tauto|].
      destruct (p <=? 10000); split; discriminate.
    + at_most H2 Hn. simpl.
      destruct (p <=? 0); split; discriminate.
Qed.

Lemma price_category_premium (p : float) :
  cut price_bins price_labels p = Some Premium
  <-> (5000 <? p) && (p <=? 10000) = true.
Proof.
  rewrite price_category_cases. destruct (is_nan p) eqn:Hn.
  - missing_price Hn.
  - destruct (5000 <? p) eqn:H5.
    + rewrite (above_edge 0 5000 p), (above_edge 2000 5000 p),
        (above_edge 5000 5000 p) by (assumption || reflexivity).
      simpl. destruct (p <=? 10000); [tauto|]. split; discriminate.
    + at_most H5 Hn. simpl.
      destruct (p <=? 0); [split; discriminate|].
      destruct (p <=? 2000); split; discriminate.
Qed.

Lemma price_category_luxury (p : float) :
  cut price_bins price_labels p = Some Luxury <-> (10000 <? p) = true.
Proof.
  rewrite price_category_cases. destruct (is_nan p) eqn:Hn.
  - missing_price Hn.
  - destruct (10000 <? p) eqn:H10.
    + rewrite (above_edge 0 10000 p), (above_edge 2000 10000 p),
        (above_edge 5000 10000 p), (above_edge 10000 10000 p)
        by (assumption || reflexivity).
      tauto.
    + at_most H10 Hn.
      destruct (p <=? 0); [split; discriminate|].
      destruct (p <=? 2000); [split; discriminate|].
      destruct (p <=? 5000); split; discriminate.
Qed.

Lemma price_category_none (p : float) :
  cut price_bins price_labels p = None
  <-> is_nan p = true \/ (p <=? 0) = true.
Proof.
  rewrite price_category_cases. destruct (is_nan p) eqn:Hn; [tauto|].
  destruct (p <=? 0); [tauto|].
  destruct (p <=? 2000); [|destruct (p <=? 5000); [|destruct (p <=? 10000)]];
    (split; [discriminate|intros [H|H]; discriminate]).
Qed.

End LoadFacts.

(* ------------------------------------------------------------------ *)
(** * Rankings and recommendations *)

Module RecommendFacts.

Import Pandas FTA Float64 PandasFacts LoadFacts.
Open Scope float_scope.

Lemma ranking_nlargest (tab : RankingTab) (filtered_df : list Row) :
  ranking tab filtered_df
  = nlargest (ranking_key tab filtered_df) 10 filtered_df.
Proof. destruct tab; reflexivity. Qed.

Lemma recommendations_nlargest (p : Preferences) (rec_df : list Row) :
  recommendations p rec_df = nlargest (priority_key (priority p)) 5 rec_df.
Proof.
  unfold recommendations, priority_key. destruct (priority p); reflexivity.
Qed.

Lemma select_eq_In (col : Row -> string) (preferred : string)
  (rec_df : list Row) (r : Row) :
  In r (select_eq col preferred rec_df) -> In r rec_df.
Proof.
  unfold select_eq. destruct (String.eqb preferred no_preference);
    [tauto|]. intros H. apply filter_In in H. tauto.
Qed.

(** Every narrowed row passed the rating and battery floors. *)
Lemma narrow_floors (p : Preferences) (filtered_df : list Row) (r : Row) :
  In r (narrow p filtered_df) ->
  (min_rating p <=? rating r) = true
  /\ (min_battery p <=? battery_life r) = true.
Proof.
  unfold narrow. intros H. apply filter_In in H. destruct H as [_ H].
  apply andb_true_iff in H. exact H.
Qed.

Lemma narrow_In (p : Preferences) (filtered_df : list Row) (r : Row) :
  In r (narrow p filtered_df) ->
  In r (budget_rows (budget p) filtered_df).
Proof.
  unfold narrow. intros H. apply filter_In in H. destruct H as [H _].
  apply select_eq_In in H. apply select_eq_In in H. exact H.
Qed.

Lemma nlargest_nonempty {R : Type} (key : R -> float) (n : nat) (df : list R) :
  (0 < n)%nat -> df <> [] -> nlargest key n df <> [].
Proof.
  intros Hn Hdf Hnil.
  pose proof (nlargest_length key n df) as Hlen. rewrite Hnil in Hlen.
  destruct df as [|a df]; [congruence|]. simpl in Hlen. lia.
Qed.

(** ** Keys that are never missing *)

Lemma fillna_present (n : Number) : is_nan (to_float (fillna 0 n)) = false.
Proof.
  destruct n as [z|z|x]; simpl; try apply float_of_Z_present.
  destruct (is_nan x) eqn:E; [reflexivity|exact E].
Qed.

Lemma reviews_present (csv : list RawRow) (raw : RawRow) :
  is_nan (reviews (loaded csv raw)) = false.
Proof. apply fillna_present. Qed.

Lemma frame_reviews_present (csv : list RawRow) (r : Row) :
  In r (frame csv) -> is_nan (reviews r) = false.
Proof.
  intros H. apply frame_In in H. destruct H as (raw & _ & ->).
  apply reviews_present.
Qed.

(** In the Mid-Range bracket with a finite rating of at least 4 the value
    score is a number: the product has a finite non-zero factor and the
    divisor is finite and not zero. *)
Lemma value_score_present (csv : list RawRow) (raw : RawRow) :
  (4.0 <=? rating (loaded csv raw)) = true ->
  (rating (loaded csv raw) <? infinity) = true ->
  (2000 <? selling_price (loaded csv raw)) = true ->
  (selling_price (loaded csv raw) <=? 5000) = true ->
  is_nan (value_score (loaded csv raw)) = false.
Proof.
  intros Hr4 Hrinf Hlo Hhi.
  assert (Hrating : finite_nonzero (rating (loaded csv raw))).
  { destruct (at_least_positive 4.0 _ (ex_intro _ _ (ex_intro _ _ eq_refl)) Hr4)
      as [H|H]; [exact H|].
    destruct (under_infinity _ Hrinf H). }
  assert (Hprice : finite_nonzero (selling_price (loaded csv raw))).
  { destruct (at_least_positive 2000 _ (ex_intro _ _ (ex_intro _ _ eq_refl))
                (ltb_leb _ _ Hlo)) as [H|H]; [exact H|].
    destruct (at_most_finite _ 5000
                (ex_intro _ _ (ex_intro _ _ (ex_intro _ _ eq_refl))) Hhi H). }
  set (r := loaded csv raw) in *.
  change (value_score r) with (rating r * reviews r / selling_price r).
  apply div_present; [|exact Hprice].
  apply mul_present; [exact Hrating|apply reviews_present].
Qed.

End RecommendFacts.

(* ------------------------------------------------------------------ *)
(** * More on the loader: separators, zero prices, zero reviews *)

Module LoaderMore.

Import Pandas FTA Series Float64 NumeralFacts LoadFacts.
Open Scope float_scope.

(** ** A text with a comma is no numeral *)

Lemma space_not_comma (c : ascii) :
  is_space c = true -> Ascii.eqb c "," = false.
Proof.
  destruct (Ascii.eqb c ",") eqn:E; [|reflexivity].
  apply Ascii.eqb_eq in E. subst c. discriminate.
Qed.

Lemma digit_not_comma (c : ascii) :
  is_digit c = true -> Ascii.eqb c "," = false.
Proof.
  destruct (Ascii.eqb c ",") eqn:E; [|reflexivity].
  apply Ascii.eqb_eq in E. subst c. discriminate.
Qed.

Lemma has_comma_skip_spaces (s : string) :
  has_comma s = true -> has_comma (skip_spaces s) = true.
Proof.
  induction s as [|c rest IH]; simpl; [discriminate|].
  destruct (is_space c) eqn:E; [|exact (fun H => H)].
  rewrite (space_not_comma c E). exact IH.
Qed.

Lemma has_comma_read_sign (s : string) :
  has_comma s = true -> has_comma (snd (read_sign s)) = true.
Proof.
  destruct s as [|c rest]; simpl; [discriminate|].
  destruct (Ascii.eqb c "-") eqn:Em.
  - apply Ascii.eqb_eq in Em. subst c. exact (fun H => H).
  - destruct (Ascii.eqb c "+") eqn:Ep; [|exact (fun H => H)].
    apply Ascii.eqb_eq in Ep. subst c. exact (fun H => H).
Qed.

Lemma sci_not_comma (c : ascii) :
  is_sci c = true -> Ascii.eqb c "," = false.
Proof.
  destruct (Ascii.eqb c ",") eqn:E; [|reflexivity].
  apply Ascii.eqb_eq in E. subst c. discriminate.
Qed.

Lemma has_comma_read_integer_part (s : string) (number : float)
  (num_digits : nat) (exponent : Z) :
  has_comma s = true ->
  has_comma (snd (read_integer_part s number num_digits exponent)) = true.
Proof.
  revert number num_digits exponent.
  induction s as [|c rest IH]; intros number num_digits exponent; simpl;
    [discriminate|].
  destruct (is_digit c) eqn:E; [|exact (fun H => H)].
  rewrite (digit_not_comma c E). simpl.
  destruct (num_digits <? max_digits)%nat; apply IH.
Qed.

Lemma has_comma_read_decimals (s : string) (number : float)
  (num_digits num_decimals : nat) :
  has_comma s = true ->
  has_comma (snd (read_decimals s number num_digits num_decimals)) = true.
Proof.
  revert number num_digits num_decimals.
  induction s as [|c rest IH]; intros number num_digits num_decimals; simpl;
    [discriminate|].
  destruct (num_digits <? max_digits)%nat; simpl; [|exact (fun H => H)].
  destruct (is_digit c) eqn:E; [|exact (fun H => H)].
  rewrite (digit_not_comma c E). apply IH.
Qed.

Lemma has_comma_skip_digits (s : string) :
  has_comma s = true -> has_comma (skip_digits s) = true.
Proof.
  induction s as [|c rest IH]; simpl; [discriminate|].
  destruct (is_digit c) eqn:E; [|exact (fun H => H)].
  rewrite (digit_not_comma c E). exact IH.
Qed.

Lemma has_comma_read_decimal_part (s : string) (number : float)
  (num_digits : nat) (exponent : Z) :
  has_comma s = true ->
  has_comma (snd (read_decimal_part s number num_digits exponent)) = true.
Proof.
  destruct s as [|c rest]; [discriminate|].
  unfold read_decimal_part.
  destruct (Ascii.eqb c ".") eqn:E; [|exact (fun H => H)].
  intros Hs. assert (H : has_comma rest = true).
  { apply Ascii.eqb_eq in E. subst c. exact Hs. }
  pose proof (has_comma_read_decimals rest number num_digits 0%nat H) as Hd.
  destruct (read_decimals rest number num_digits 0%nat) as [[[n d] k] s'].
  cbn [snd] in *. destruct (max_digits <=? d)%nat; [|exact Hd].
  apply has_comma_skip_digits, Hd.
Qed.

Lemma has_comma_read_exponent_digits (s : string) (n : Z)
  (num_digits : nat) :
  has_comma s = true ->
  has_comma (snd (read_exponent_digits s n num_digits)) = true.
Proof.
  revert n num_digits.
  induction s as [|c rest IH]; intros n num_digits; simpl; [discriminate|].
  destruct (num_digits <? max_digits)%nat; simpl; [|exact (fun H => H)].
  destruct (is_digit c) eqn:E; [|exact (fun H => H)].
  rewrite (digit_not_comma c E). apply IH.
Qed.

Lemma has_comma_read_exponent_part (s : string) (exponent : Z)
  (maybe_int : bool) :
  has_comma s = true ->
  has_comma (snd (read_exponent_part s exponent maybe_int)) = true.
Proof.
  destruct s as [|c rest]; [discriminate|].
  unfold read_exponent_part. destruct (is_sci c) eqn:E; [|exact (fun H => H)].
  intros Hs. assert (Hrest : has_comma rest = true).
  { simpl in Hs. rewrite (sci_not_comma c E) in Hs. exact Hs. }
  pose proof (has_comma_read_sign rest Hrest) as Hsign.
  destruct (read_sign rest) as [negative digits]. simpl in Hsign.
  pose proof (has_comma_read_exponent_digits digits 0%Z 0%nat Hsign) as Hd.
  destruct (read_exponent_digits digits 0%Z 0%nat) as [[n k] s'].
  simpl in Hd. destruct k as [|k]; simpl; [|exact Hd].
  destruct rest as [|sign rest']; [exact Hs|].
  destruct (is_sign sign); [exact Hrest|exact Hs].
Qed.

Lemma to_double_comma (s : string) :
  has_comma s = true -> to_double s = None.
Proof.
  intros H. unfold to_double.
  pose proof (has_comma_read_sign _ (has_comma_skip_spaces _ H)) as H1.
  destruct (read_sign (skip_spaces s)) as [negative s1]. simpl in H1.
  pose proof (has_comma_read_integer_part s1 0 0%nat 0%Z H1) as H2.
  destruct (read_integer_part s1 0 0%nat 0%Z) as [[[number n1] e1] s2].
  simpl in H2.
  pose proof (has_comma_read_decimal_part s2 number n1 e1 H2) as H3.
  destruct (read_decimal_part s2 number n1 e1) as [[[[number' n2] e2] b2] s3].
  simpl in H3.
  destruct (n2 =? 0)%nat; [reflexivity|].
  pose proof (has_comma_read_exponent_part s3 e2 b2 H3) as H4.
  destruct (read_exponent_part s3 e2 b2) as [[e3 b3] s4]. simpl in H4.
  destruct (scale _ e3) as [y|]; [|reflexivity].
  destruct (is_infinity y); [reflexivity|].
  apply has_comma_skip_spaces in H4.
  destruct (skip_spaces s4); [discriminate|reflexivity].
Qed.

Lemma has_comma_lowercase (s : string) :
  has_comma (lowercase s) = has_comma s.
Proof.
  induction s as [|c rest IH]; simpl; [reflexivity|].
  rewrite lower_comma, IH. reflexivity.
Qed.

Lemma strcasecmp_comma (s word : string) :
  has_comma s = true -> has_comma word = false -> strcasecmp s word = false.
Proof.
  intros Hs Hw. unfold strcasecmp.
  destruct (String.eqb (lowercase s) word) eqn:E; [|reflexivity].
  apply String.eqb_eq in E. rewrite <- E, has_comma_lowercase in Hw.
  congruence.
Qed.

Lemma floatify_comma (s : string) :
  has_comma s = true -> floatify s = None.
Proof.
  intros H. unfold floatify. rewrite (to_double_comma s H).
  rewrite !(strcasecmp_comma s) by (exact H || reflexivity). reflexivity.
Qed.

(** A text with a comma is seen as a missing value. *)
Lemma scan_comma (s : string) :
  has_comma s = true -> scan (Text s) = SeenFloat nan.
Proof.
  intros H. unfold scan. destruct s as [|c rest]; [reflexivity|].
  rewrite (floatify_comma _ H). reflexivity.
Qed.

(** ** Shapes of values *)

Lemma eqb_zero_shape (x : float) :
  (x =? 0) = true -> exists s, Prim2SF x = S754_zero s.
Proof.
  rewrite FloatAxioms.eqb_spec. change (Prim2SF 0) with (S754_zero false).
  unfold SFeqb. destruct (Prim2SF x) as [s|s| |s m e]; simpl;
    try discriminate; try (destruct s; discriminate). eauto.
Qed.

Lemma zero_shape_eqb (x : float) (s : bool) :
  Prim2SF x = S754_zero s -> (x =? 0) = true.
Proof.
  intros H. rewrite FloatAxioms.eqb_spec, H. reflexivity.
Qed.

Lemma not_finite_shape (x : float) :
  Prim2SF x = S754_nan \/ (exists s, Prim2SF x = S754_infinity s) ->
  is_finite x = false.
Proof.
  intros [H|[s H]]; unfold is_finite.
  - apply is_nan_true in H. rewrite H. reflexivity.
  - assert (Hinf : is_infinity x = true).
    { unfold is_infinity. rewrite FloatAxioms.eqb_spec, abs_spec, H.
      reflexivity. }
    rewrite Hinf, orb_true_r. reflexivity.
Qed.

Lemma finite_shape (x : float) :
  is_finite x = true ->
  (exists s, Prim2SF x = S754_zero s) \/ finite_nonzero x.
Proof.
  intros H. unfold finite_nonzero.
  destruct (Prim2SF x) as [s|s| |s m e] eqn:E; eauto.
  - rewrite not_finite_shape in H by eauto. discriminate.
  - rewrite not_finite_shape in H by auto. discriminate.
Qed.

(** ** Division by a zero original price *)

Lemma div_by_zero_not_finite (x y : float) :
  (y =? 0) = true -> is_finite (x / y) = false.
Proof.
  intros H. apply eqb_zero_shape in H. destruct H as [sy Hy].
  apply not_finite_shape. rewrite div_spec, Hy. unfold SF64div.
  destruct (Prim2SF x) as [sx|sx| |sx mx ex]; simpl; eauto.
Qed.

(** ** Equal prices *)

Lemma eqb_finite_eq (x y : float) :
  finite_nonzero y -> (x =? y) = true -> x = y.
Proof.
  intros (s & m & e & Hy) H. apply Prim2SF_inj.
  rewrite FloatAxioms.eqb_spec, Hy in H. rewrite Hy. unfold SFeqb in H.
  destruct (Prim2SF x) as [sx|sx| |sx mx ex]; simpl in H;
    try discriminate; try (destruct sx; discriminate);
    try (destruct s; discriminate).
  change (PosDef.Pos.compare_cont Eq mx m) with (Pos.compare mx m) in H.
  destruct sx, s; try discriminate;
    destruct (Z.compare_spec ex e); try discriminate;
    destruct (Pos.compare_spec mx m); try discriminate; subst; reflexivity.
Qed.

Lemma sub_self_zero (x : float) :
  finite_nonzero x -> Prim2SF (x - x) = S754_zero false.
Proof.
  intros (s & m & e & Hx). rewrite sub_spec, Hx.
  unfold SF64sub, SFsub. cbv zeta. rewrite Z.sub_diag. reflexivity.
Qed.

Lemma zero_discount (o : float) :
  finite_nonzero o -> (100 * (o - o) / o =? 0) = true.
Proof.
  intros Ho. pose proof (sub_self_zero o Ho) as Hsub.
  destruct Ho as (s & m & e & Ho).
  apply (zero_shape_eqb _ s).
  rewrite div_spec, mul_spec, Hsub, Ho. reflexivity.
Qed.

Lemma zero_div (y : float) : finite_nonzero y -> (0 / y =? 0) = true.
Proof.
  intros (s & m & e & Hy). apply (zero_shape_eqb _ (xorb false s)).
  rewrite div_spec, Hy. reflexivity.
Qed.

(** Two equal cleaned prices: the difference is zero in every type. *)
Lemma same_price_discount (selling original : Number) :
  same_number selling original = true ->
  finite_nonzero (to_float original) ->
  (truediv (times 100 (sub original selling)) original =? 0) = true.
Proof.
  unfold truediv.
  assert (Hfloat : forall x y : float,
             (x =? y) = true -> finite_nonzero y ->
             (float_of_Z 100 * (y - x) / y =? 0) = true).
  { intros x y Hxy Hy. rewrite (eqb_finite_eq x y Hy Hxy).
    apply zero_discount, Hy. }
  destruct selling as [s|s|s], original as [o|o|o];
    cbn [same_number sub times to_float]; intros Hsame Ho;
    try (apply Hfloat; assumption).
  - apply Z.eqb_eq in Hsame. subst s. rewrite Z.sub_diag.
    apply zero_div, Ho.
  - apply Z.eqb_eq in Hsame. subst s. rewrite Z.sub_diag.
    apply zero_div, Ho.
Qed.

(** ** No reviews, no value *)

Lemma zero_value_score (rating reviews price : float) :
  is_finite rating = true -> (reviews =? 0) = true -> finite_nonzero price ->
  (rating * reviews / price =? 0) = true.
Proof.
  intros Hrating Hreviews (sp & mp & ep & Hprice).
  apply eqb_zero_shape in Hreviews. destruct Hreviews as [sr Hreviews].
  assert (Hmul : exists s, Prim2SF (rating * reviews) = S754_zero s).
  { rewrite mul_spec, Hreviews.
    destruct (finite_shape rating Hrating) as [[s H]|(s & m & e & H)];
      rewrite H; simpl; eauto. }
  destruct Hmul as [s Hmul].
  apply (zero_shape_eqb _ (xorb s sp)).
  rewrite div_spec, Hmul, Hprice. reflexivity.
Qed.

End LoaderMore.

(* ------------------------------------------------------------------ *)
(** * More on the filter pipeline *)

Module FilterMore.

Import Pandas FTA Pages Float64 PandasFacts FilterFacts.
Open Scope float_scope.

Lemma isin_In (x : string) (values : list string) :
  isin x values = true <-> In x values.
Proof.
  unfold isin. rewrite existsb_exists. split.
  - intros (y & Hy & E). apply String.eqb_eq in E. subst. exact Hy.
  - intros H. exists x. split; [exact H|apply String.eqb_refl].
Qed.

Lemma chosen_spec (col : Row -> string) (choice : list string) (r : Row) :
  chosen col choice r = true <-> choice = [] \/ In (col r) choice.
Proof.
  destruct choice as [|v vs]; unfold chosen.
  - split; auto.
  - rewrite isin_In. split.
    + auto.
    + intros [H|H]; [discriminate|exact H].
Qed.

Lemma chosen_relaxed (col : Row -> string) (choice choice' : list string)
  (r : Row) :
  choice' = [] \/ (choice <> [] /\ incl choice choice') ->
  chosen col choice r = true -> chosen col choice' r = true.
Proof.
  intros Hrel H. apply chosen_spec. apply chosen_spec in H.
  destruct Hrel as [->|[Hne Hincl]]; [left; reflexivity|].
  right. destruct H as [H|H]; [contradiction|]. apply Hincl, H.
Qed.

Lemma in_range_relaxed (c c' : Controls) (r : Row) :
  (fst (price_range c') <=? fst (price_range c)) = true ->
  (snd (price_range c) <=? snd (price_range c')) = true ->
  (rating_filter c' <=? rating_filter c) = true ->
  in_range c r = true -> in_range c' r = true.
Proof.
  unfold in_range. intros Hlo Hhi Hrating H.
  apply andb_true_iff in H. destruct H as [H H3].
  apply andb_true_iff in H. destruct H as [H1 H2].
  rewrite (leb_trans _ _ _ Hlo H1), (leb_trans _ _ _ H2 Hhi),
    (leb_trans _ _ _ Hrating H3). reflexivity.
Qed.

Lemma keeps_relaxed (c c' : Controls) (r : Row) :
  relaxes c c' -> keeps c r = true -> keeps c' r = true.
Proof.
  intros (Hsel & Hlo & Hhi & Hrating). unfold keeps. intros H.
  apply andb_true_iff in H. destruct H as [H H4].
  apply andb_true_iff in H. destruct H as [H H3].
  apply andb_true_iff in H. destruct H as [H1 H2].
  pose proof (chosen_relaxed brand_name _ _ r (Hsel BrandSelect) H1) as E1.
  pose proof (chosen_relaxed device_type _ _ r (Hsel DeviceSelect) H2) as E2.
  pose proof (chosen_relaxed color _ _ r (Hsel ColorSelect) H3) as E3.
  cbn [selection] in E1, E2, E3.
  rewrite E1, E2, E3, (in_range_relaxed c c' r Hlo Hhi Hrating H4).
  reflexivity.
Qed.

Lemma apply_filters_twice (c c' : Controls) (df : list Row) :
  apply_filters c' (apply_filters c df)
  = filter (fun r => keeps c r && keeps c' r) df.
Proof. rewrite !apply_filters_keeps. apply filter_filter. Qed.

Lemma in_range_spec (c : Controls) (r : Row) :
  in_range c r = true <->
  (fst (price_range c) <=? selling_price r) = true
  /\ (selling_price r <=? snd (price_range c)) = true
  /\ (rating_filter c <=? rating r) = true.
Proof. unfold in_range. rewrite !andb_true_iff. tauto. Qed.

End FilterMore.

(* ------------------------------------------------------------------ *)
(** * The first largest row *)

Module IdxMaxFacts.

Import Pandas Series Float64.
Open Scope float_scope.

Lemma leb_refl (x : float) : is_nan x = false -> (x <=? x) = true.
Proof.
  intros H. apply is_nan_false in H. rewrite FloatAxioms.leb_spec.
  unfold SFleb. rewrite SFcompare_refl by assumption. reflexivity.
Qed.

Lemma leb_ltb_trans (x y z : float) :
  (x <=? y) = true -> (y <? z) = true -> (x <? z) = true.
Proof.
  intros Hxy Hyz.
  destruct (leb_present _ _ Hxy) as [Hx Hy].
  destruct (ltb_present _ _ Hyz) as [_ Hz].
  rewrite (ltb_negb_leb y z Hy Hz) in Hyz.
  rewrite (ltb_negb_leb x z Hx Hz).
  destruct (z <=? x) eqn:E; [|reflexivity].
  rewrite (leb_trans _ _ _ E Hxy) in Hyz. discriminate.
Qed.

Lemma leb_antisym_eqb (x y : float) :
  (x <=? y) = true -> (y <=? x) = true -> (x =? y) = true.
Proof.
  rewrite FloatAxioms.eqb_spec, !FloatAxioms.leb_spec. unfold SFeqb, SFleb.
  rewrite (SFcompare_antisym (Prim2SF x) (Prim2SF y)).
  destruct (SFcompare (Prim2SF x) (Prim2SF y)) as [[ | | ]|]; simpl;
    congruence.
Qed.

Lemma fill_present (x : float) : is_nan (fill_neg_inf x) = false.
Proof.
  unfold fill_neg_inf. destruct (is_nan x) eqn:E; [reflexivity|exact E].
Qed.

Lemma fill_id (x : float) : is_nan x = false -> fill_neg_inf x = x.
Proof. intros H. unfold fill_neg_inf. rewrite H. reflexivity. Qed.

Section IdxMaxSpec.
Context {R : Type}.
Variable key : R -> float.

Let filled (r : R) : float := fill_neg_inf (key r).

(** The scan keeps a row that is strictly above everything before it and
    at least everything after it. *)
Lemma argmax_scan_split (rest : list R) :
  forall (best : R) (before after : list R),
    (forall x, In x before -> (filled x <? filled best) = true) ->
    (forall x, In x after -> (filled x <=? filled best) = true) ->
    exists pre post,
      before ++ best :: after ++ rest
      = pre ++ argmax_scan key best rest :: post
      /\ (forall x, In x pre ->
            (filled x <? filled (argmax_scan key best rest)) = true)
      /\ (forall x, In x post ->
            (filled x <=? filled (argmax_scan key best rest)) = true).
Proof.
  induction rest as [|r rest IH]; intros best before after Hb Ha; simpl.
  - exists before, after. rewrite app_nil_r. auto.
  - fold (filled best). fold (filled r).
    destruct (filled best <? filled r) eqn:E.
    + destruct (IH r (before ++ best :: after) []) as (pre & post & Heq & H).
      * intros x Hx. apply in_app_or in Hx. destruct Hx as [Hx|[<-|Hx]].
        -- exact (ltb_leb_trans _ _ _ (Hb x Hx) (ltb_leb _ _ E)).
        -- exact E.
        -- exact (leb_ltb_trans _ _ _ (Ha x Hx) E).
      * intros x [].
      * exists pre, post. split; [|exact H].
        rewrite <- Heq. simpl. rewrite <- !app_assoc. reflexivity.
    + destruct (IH best before (after ++ [r])) as (pre & post & Heq & H).
      * exact Hb.
      * intros x Hx. apply in_app_or in Hx. destruct Hx as [Hx|[<-|[]]].
        -- exact (Ha x Hx).
        -- rewrite (ltb_negb_leb (filled best) (filled r)) in E
             by apply fill_present.
           apply negb_false_iff in E. exact E.
      * exists pre, post. split; [|exact H].
        rewrite <- Heq. rewrite <- !app_assoc. reflexivity.
Qed.

Lemma idxmax_row_split (df : list R) (r : R) :
  idxmax_row key df = inr r ->
  exists pre post,
    df = pre ++ r :: post
    /\ (forall x, In x pre -> (filled x <? filled r) = true)
    /\ (forall x, In x post -> (filled x <=? filled r) = true).
Proof.
  destruct df as [|a rest]; [discriminate|].
  unfold idxmax_row. destruct (forallb _ _); [discriminate|].
  intros H. injection H as <-.
  destruct (argmax_scan_split rest a [] []) as (pre & post & Heq & Hpre & Hpost);
    try (intros x []).
  exists pre, post. simpl in Heq. auto.
Qed.

Lemma idxmax_row_raises (df : list R) :
  (exists e, idxmax_row key df = inl e)
  <-> (forall x, In x df -> is_nan (key x) = true).
Proof.
  destruct df as [|a rest].
  - split; [intros _ x []|intros _; eexists; reflexivity].
  - unfold idxmax_row.
    destruct (forallb (fun x => is_nan (key x)) (a :: rest)) eqn:E.
    + rewrite forallb_forall in E. split; eauto.
    + split; [intros [e H]; discriminate|].
      intros H. rewrite <- forallb_forall in H. congruence.
Qed.

Lemma idxmax_row_returns (df : list R) :
  (exists r, idxmax_row key df = inr r)
  <-> (exists x, In x df /\ is_nan (key x) = false).
Proof.
  destruct (idxmax_row key df) as [e|r] eqn:E.
  - split; [intros [r H]; discriminate|].
    intros (x & Hx & Hp).
    rewrite (proj1 (idxmax_row_raises df) (ex_intro _ e E) x Hx) in Hp.
    discriminate.
  - split; [|eauto]. intros _.
    destruct (existsb (fun x => negb (is_nan (key x))) df) eqn:Ex.
    + apply existsb_exists in Ex. destruct Ex as (x & Hx & Hp).
      exists x. split; [exact Hx|]. destruct (is_nan (key x));
        [discriminate|reflexivity].
    + assert (Hall : forall x, In x df -> is_nan (key x) = true).
      { intros x Hx. destruct (is_nan (key x)) eqn:En; [reflexivity|].
        assert (Hex : existsb (fun x => negb (is_nan (key x))) df = true).
        { apply existsb_exists. exists x. rewrite En. auto. }
        congruence. }
      apply idxmax_row_raises in Hall. destruct Hall as [e He]. congruence.
Qed.

(** With every key present the pick has the largest key and is the first
    row to have it. *)
Lemma idxmax_row_first_max (df : list R) (r : R) :
  (forall x, In x df -> is_nan (key x) = false) ->
  idxmax_row key df = inr r ->
  exists pre post,
    df = pre ++ r :: post
    /\ (forall x, In x pre -> (key x <? key r) = true)
    /\ (forall x, In x post -> (key x <=? key r) = true).
Proof.
  intros Hp H. destruct (idxmax_row_split df r H) as (pre & post & -> & H1 & H2).
  exists pre, post. split; [reflexivity|].
  assert (Hr : filled r = key r).
  { apply fill_id, Hp. apply in_or_app. right. left. reflexivity. }
  split; intros x Hx.
  - specialize (H1 x Hx). unfold filled in H1 at 1.
    rewrite fill_id, Hr in H1; [exact H1|].
    apply Hp, in_or_app. left. exact Hx.
  - specialize (H2 x Hx). unfold filled in H2 at 1.
    rewrite fill_id, Hr in H2; [exact H2|].
    apply Hp, in_or_app. right. right. exact Hx.
Qed.

Lemma idxmax_row_max (df : list R) (r : R) :
  (forall x, In x df -> is_nan (key x) = false) ->
  idxmax_row key df = inr r ->
  In r df /\ forall x, In x df -> (key x <=? key r) = true.
Proof.
  intros Hp H.
  destruct (idxmax_row_first_max df r Hp H) as (pre & post & -> & H1 & H2).
  split; [apply in_or_app; right; left; reflexivity|].
  intros x Hx. apply in_app_or in Hx. destruct Hx as [Hx|[<-|Hx]].
  - apply ltb_leb, H1, Hx.
  - apply leb_refl, Hp, in_or_app. right. left. reflexivity.
  - apply H2, Hx.
Qed.
End IdxMaxSpec.

End IdxMaxFacts.

(* ------------------------------------------------------------------ *)
(** * What [nlargest] leaves out *)

Module TopFacts.

Import Pandas Series Float64 PandasFacts IdxMaxFacts.
Open Scope float_scope.

Lemma StronglySorted_firstn_skipn {A : Type} (rel : A -> A -> Prop)
  (n : nat) (l : list A) :
  StronglySorted rel l ->
  forall a b, In a (firstn n l) -> In b (skipn n l) -> rel a b.
Proof.
  revert l. induction n as [|n IH]; intros l Hl a b Ha Hb; [destruct Ha|].
  destruct l as [|h t]; [destruct Ha|].
  inversion Hl as [|? ? Ht Hh]; subst. simpl in Ha, Hb.
  destruct Ha as [<-|Ha].
  - rewrite Forall_forall in Hh. apply Hh.
    rewrite <- (firstn_skipn n t). apply in_or_app. right. exact Hb.
  - exact (IH t Ht a b Ha Hb).
Qed.

Lemma filter_split_perm {A : Type} (f : A -> bool) (l : list A) :
  Permutation (filter (fun x => negb (f x)) l ++ filter f l) l.
Proof.
  induction l as [|a l IH]; simpl; [constructor|].
  destruct (f a); simpl.
  - apply Permutation_sym, Permutation_cons_app, Permutation_sym, IH.
  - constructor. exact IH.
Qed.

Section Top.
Context {R : Type}.
Variable key : R -> float.

Lemma insert_desc_perm (r : R) (l : list R) :
  Permutation (insert_desc key r l) (r :: l).
Proof.
  induction l as [|h t IH]; simpl; [constructor; constructor|].
  destruct (key h <=? key r); [apply Permutation_refl|].
  apply Permutation_trans with (h :: r :: t);
    [constructor; exact IH|constructor].
Qed.

Lemma sort_desc_perm (l : list R) : Permutation (sort_desc key l) l.
Proof.
  induction l as [|h t IH]; simpl; [constructor|].
  apply Permutation_trans with (h :: sort_desc key t);
    [apply insert_desc_perm|constructor; exact IH].
Qed.

(** The frame in the order [nlargest] cuts its result from. *)
Lemma ordered_perm (df : list R) :
  Permutation (sort_desc key (dropna key df) ++ nan_rows key df) df.
Proof.
  apply Permutation_trans with (dropna key df ++ nan_rows key df).
  - apply Permutation_app_tail, sort_desc_perm.
  - apply (filter_split_perm (fun r => is_nan (key r))).
Qed.

Lemma ordered_sorted (df : list R) :
  StronglySorted (desc key)
    (sort_desc key (dropna key df) ++ nan_rows key df).
Proof.
  apply Sorted_StronglySorted; [exact (desc_trans key)|].
  apply sorted_then_missing.
  - apply sort_desc_sorted, dropna_present.
  - apply nan_rows_missing.
Qed.

(** The rows returned and the rows left out make up the frame, and no row
    left out ranks before a row returned. *)
Lemma nlargest_top (n : nat) (df : list R) :
  exists rest,
    Permutation (nlargest key n df ++ rest) df
    /\ forall a b, In a (nlargest key n df) -> In b rest -> desc key a b.
Proof.
  exists (skipn n (sort_desc key (dropna key df) ++ nan_rows key df)).
  unfold nlargest. split.
  - rewrite firstn_skipn. apply ordered_perm.
  - apply StronglySorted_firstn_skipn, ordered_sorted.
Qed.

Lemma nlargest_head (n : nat) (df : list R) (h : R) :
  hd_error (nlargest key (S n) df) = Some h ->
  In h df /\ forall x, In x df -> x = h \/ desc key h x.
Proof.
  unfold nlargest. intros H.
  pose proof (ordered_perm df) as Hperm.
  pose proof (ordered_sorted df) as Hsorted.
  destruct (sort_desc key (dropna key df) ++ nan_rows key df) as [|a l];
    [discriminate|].
  simpl in H. injection H as ->.
  split; [apply (Permutation_in _ Hperm); left; reflexivity|].
  intros x Hx. apply (Permutation_in _ (Permutation_sym Hperm)) in Hx.
  destruct Hx as [<-|Hx]; [left; reflexivity|right].
  inversion Hsorted as [|? ? _ Hh]; subst.
  rewrite Forall_forall in Hh. exact (Hh x Hx).
Qed.

Lemma nlargest_head_exists (n : nat) (df : list R) :
  df <> [] -> exists h, hd_error (nlargest key (S n) df) = Some h.
Proof.
  intros Hdf. pose proof (nlargest_length key (S n) df) as Hlen.
  destruct (nlargest key (S n) df) as [|h t]; [|simpl; eauto].
  destruct df; [congruence|simpl in Hlen; discriminate].
Qed.

(** With every key present the first row of the top-N and the [idxmax]
    pick hold the same key. *)
Lemma head_key_is_max (n : nat) (df : list R) (h r : R) :
  (forall x, In x df -> is_nan (key x) = false) ->
  hd_error (nlargest key (S n) df) = Some h ->
  idxmax_row key df = inr r ->
  (key h =? key r) = true.
Proof.
  intros Hp Hh Hr.
  destruct (nlargest_head n df h Hh) as [Hin Hmax].
  destruct (idxmax_row_max key df r Hp Hr) as [Hrin Hrmax].
  apply leb_antisym_eqb; [apply Hrmax, Hin|].
  destruct (Hmax r Hrin) as [->|[Hn|Hle]].
  - apply leb_refl, Hp, Hin.
  - rewrite (Hp r Hrin) in Hn. discriminate.
  - exact Hle.
Qed.
End Top.

End TopFacts.

(* ------------------------------------------------------------------ *)
(** * Counting values *)

Module CountFacts.

Import Pandas Series.
Open Scope nat_scope.

Lemma unique_In (v : string) (xs : list string) :
  In v (unique xs) <-> In v xs.
Proof.
  induction xs as [|x rest IH]; simpl; [tauto|].
  rewrite filter_In, IH. split.
  - intros [H|[H _]]; auto.
  - intros [H|H]; [left; exact H|].
    destruct (String.eqb v x) eqn:E.
    + left. apply String.eqb_eq in E. congruence.
    + right. split; [exact H|reflexivity].
Qed.

Lemma NoDup_filter {A : Type} (f : A -> bool) (l : list A) :
  NoDup l -> NoDup (filter f l).
Proof.
  induction 1 as [|a l Ha Hl IH]; simpl; [constructor|].
  destruct (f a); [|exact IH].
  constructor; [|exact IH]. rewrite filter_In. tauto.
Qed.

Lemma unique_NoDup (xs : list string) : NoDup (unique xs).
Proof.
  induction xs as [|x rest IH]; simpl; constructor.
  - rewrite filter_In. intros [_ H]. rewrite String.eqb_refl in H.
    discriminate.
  - apply NoDup_filter, IH.
Qed.

Lemma occurrences_absent (v : string) (xs : list string) :
  ~ In v xs -> occurrences v xs = 0.
Proof.
  unfold occurrences. induction xs as [|x rest IH]; simpl; [reflexivity|].
  intros H. destruct (String.eqb v x) eqn:E.
  - apply String.eqb_eq in E. subst x. destruct H. left. reflexivity.
  - apply IH. tauto.
Qed.

(** Taking one value out of a sum over distinct values. *)
Lemma sum_without (f : string -> nat) (x : string) (l : list string) :
  NoDup l ->
  list_sum (map f l)
  = (if existsb (String.eqb x) l then f x else 0)
    + list_sum (map f (filter (fun y => negb (String.eqb y x)) l)).
Proof.
  induction 1 as [|a l Ha Hl IH]; simpl; [reflexivity|].
  rewrite (String.eqb_sym a x).
  destruct (String.eqb x a) eqn:E; simpl.
  - apply String.eqb_eq in E. subst a. rewrite IH.
    assert (Hex : existsb (String.eqb x) l = false).
    { destruct (existsb (String.eqb x) l) eqn:Ex; [|reflexivity].
      apply existsb_exists in Ex. destruct Ex as (y & Hy & Ey).
      apply String.eqb_eq in Ey. subst y. contradiction. }
    rewrite Hex. lia.
  - rewrite IH. destruct (existsb (String.eqb x) l); lia.
Qed.

Lemma sum_occurrences (xs : list string) :
  list_sum (map (fun v => occurrences v xs) (unique xs)) = List.length xs.
Proof.
  induction xs as [|x rest IH]; simpl; [reflexivity|].
  unfold occurrences at 1. simpl. rewrite String.eqb_refl. simpl. f_equal.
  fold (occurrences x rest).
  rewrite <- IH, (sum_without (fun v => occurrences v rest) x (unique rest))
    by apply unique_NoDup.
  f_equal.
  - destruct (existsb (String.eqb x) (unique rest)) eqn:Ex; [reflexivity|].
    apply occurrences_absent. intros Hin. rewrite <- unique_In in Hin.
    assert (H : existsb (String.eqb x) (unique rest) = true).
    { apply existsb_exists. exists x. split; [exact Hin|].
      apply String.eqb_refl. }
    congruence.
  - f_equal. apply map_ext_in. intros v Hv. apply filter_In in Hv.
    destruct Hv as [_ Hv]. unfold occurrences. simpl.
    destruct (String.eqb v x); [discriminate|reflexivity].
Qed.

Lemma insert_count_perm (e : string * nat) (l : list (string * nat)) :
  Permutation (insert_count e l) (e :: l).
Proof.
  induction l as [|h t IH]; simpl; [constructor; constructor|].
  destruct (snd h <=? snd e); [apply Permutation_refl|].
  apply Permutation_trans with (h :: e :: t);
    [constructor; exact IH|constructor].
Qed.

Lemma sort_counts_perm (l : list (string * nat)) :
  Permutation (sort_counts l) l.
Proof.
  induction l as [|h t IH]; simpl; [constructor|].
  apply Permutation_trans with (h :: sort_counts t);
    [apply insert_count_perm|constructor; exact IH].
Qed.

Lemma insert_count_sorted (e : string * nat) (l : list (string * nat)) :
  Sorted count_ge l -> Sorted count_ge (insert_count e l).
Proof.
  induction l as [|h t IH]; simpl; intros Hs; [repeat constructor|].
  destruct (snd h <=? snd e) eqn:E.
  - constructor; [exact Hs|]. constructor. apply Nat.leb_le, E.
  - inversion Hs as [|? ? Ht Hh]; subst.
    constructor; [apply IH, Ht|].
    apply Nat.leb_gt in E.
    destruct t as [|h' t']; simpl.
    + constructor. unfold count_ge. lia.
    + destruct (snd h' <=? snd e); constructor.
      * unfold count_ge. lia.
      * inversion Hh; assumption.
Qed.

Lemma sort_counts_sorted (l : list (string * nat)) :
  StronglySorted count_ge (sort_counts l).
Proof.
  apply Sorted_StronglySorted.
  - intros a b c. unfold count_ge. lia.
  - induction l as [|h t IH]; simpl; [constructor|].
    apply insert_count_sorted, IH.
Qed.

Lemma list_sum_perm (l l' : list nat) :
  Permutation l l' -> list_sum l = list_sum l'.
Proof. induction 1; simpl; lia. Qed.

Lemma value_counts_In (v : string) (k : nat) (xs : list string) :
  In (v, k) (value_counts xs) <-> In v xs /\ k = occurrences v xs.
Proof.
  unfold value_counts. split.
  - intros H. apply (Permutation_in _ (sort_counts_perm _)) in H.
    apply in_map_iff in H. destruct H as (w & E & Hw).
    injection E as -> <-. rewrite unique_In in Hw. auto.
  - intros [H ->].
    apply (Permutation_in _ (Permutation_sym (sort_counts_perm _))).
    apply in_map_iff. exists v. split; [reflexivity|].
    rewrite unique_In. exact H.
Qed.

Lemma value_counts_labels (xs : list string) :
  Permutation (map fst (value_counts xs)) (unique xs).
Proof.
  unfold value_counts.
  apply Permutation_trans
    with (map fst (map (fun v => (v, occurrences v xs)) (unique xs))).
  - apply Permutation_map, sort_counts_perm.
  - rewrite map_map. simpl. rewrite map_id. apply Permutation_refl.
Qed.

Lemma value_counts_total (xs : list string) :
  list_sum (map snd (value_counts xs)) = List.length xs.
Proof.
  unfold value_counts.
  rewrite (list_sum_perm _ _ (Permutation_map snd (sort_counts_perm _))).
  rewrite map_map. simpl. apply sum_occurrences.
Qed.

Lemma head_sum_le (n : nat) (counts : list (string * nat)) :
  head_sum n counts <= list_sum (map snd counts).
Proof.
  unfold head_sum. rewrite <- (firstn_skipn n counts) at 2.
  rewrite map_app, list_sum_app. lia.
Qed.

Lemma head_sum_all (n : nat) (counts : list (string * nat)) :
  List.length counts <= n -> head_sum n counts = list_sum (map snd counts).
Proof.
  intros H. unfold head_sum. rewrite firstn_all2 by exact H. reflexivity.
Qed.

(** [present] keeps exactly the values that are there. *)
Lemma present_In (v : string) (xs : list (option string)) :
  In v (present xs) <-> In (Some v) xs.
Proof.
  induction xs as [|[w|] rest IH]; simpl.
  - tauto.
  - rewrite IH. split.
    + intros [->|H]; auto.
    + intros [H|H]; [injection H as ->|]; auto.
  - rewrite IH. split; [auto|]. intros [H|H]; [discriminate|exact H].
Qed.

End CountFacts.

(* ------------------------------------------------------------------ *)
(** * Brackets, segments and labels *)

Module PagesFacts.

Import Pandas FTA Series Pages Float64 PandasFacts FilterFacts LoadFacts
  RecommendFacts FilterMore IdxMaxFacts.
Open Scope float_scope.

(** ** Counting by a test *)

Lemma filter_length_b2n {A : Type} (f : A -> bool) (l : list A) :
  List.length (filter f l) = list_sum (map (fun x => Nat.b2n (f x)) l).
Proof.
  induction l as [|a l IH]; simpl; [reflexivity|].
  destruct (f a); simpl; rewrite IH; reflexivity.
Qed.

Lemma filter_length_le {A : Type} (f g : A -> bool) (l : list A) :
  (forall x, f x = true -> g x = true) ->
  (List.length (filter f l) <= List.length (filter g l))%nat.
Proof.
  intros H. induction l as [|a l IH]; simpl; [lia|].
  destruct (f a) eqn:E.
  - rewrite (H a E). simpl. lia.
  - destruct (g a); simpl; lia.
Qed.

Lemma list_sum_map_add {A : Type} (f g : A -> nat) (l : list A) :
  (list_sum (map f l) + list_sum (map g l))%nat
  = list_sum (map (fun x => (f x + g x)%nat) l).
Proof. induction l as [|a l IH]; simpl; lia. Qed.

(** ** Market segments *)

(** Under 3000, from 3000 to 8000, over 8000: a present price is in
    exactly one segment, a missing price in none. *)
Lemma one_segment (r : Row) :
  (Nat.b2n (in_market BudgetHighQuality r)
   + Nat.b2n (in_market PremiumLongBattery r)
   + Nat.b2n (in_market MidRangePopular r))%nat
  = Nat.b2n (negb (is_nan (selling_price r))).
Proof.
  unfold in_market, between. set (p := selling_price r).
  destruct (is_nan p) eqn:Hn; simpl.
  - assert (H1 : (p <? 3000) = false).
    { destruct (p <? 3000) eqn:E; [|reflexivity].
      apply ltb_present in E. destruct E; congruence. }
    assert (H2 : (8000 <? p) = false).
    { destruct (8000 <? p) eqn:E; [|reflexivity].
      apply ltb_present in E. destruct E; congruence. }
    assert (H3 : (3000 <=? p) = false).
    { destruct (3000 <=? p) eqn:E; [|reflexivity].
      apply leb_present in E. destruct E; congruence. }
    rewrite H1, H2, H3. reflexivity.
  - rewrite (ltb_negb_leb p 3000), (ltb_negb_leb 8000 p)
      by (exact Hn || reflexivity).
    destruct (3000 <=? p) eqn:A, (p <=? 8000) eqn:B; try reflexivity.
    pose proof (leb_total 3000 p eq_refl Hn A) as Hp.
    rewrite (leb_trans p 3000 8000 Hp eq_refl) in B. discriminate.
Qed.

Lemma market_sizes_sum (df : list Row) :
  (market_size BudgetHighQuality df + market_size PremiumLongBattery df
   + market_size MidRangePopular df)%nat
  = List.length (dropna selling_price df).
Proof.
  unfold market_size, dropna. rewrite !filter_length_b2n, !list_sum_map_add.
  f_equal. apply map_ext. intros r. apply one_segment.
Qed.

Lemma opportunity_in_market (seg : Segment) (r : Row) :
  is_opportunity seg r = true -> in_market seg r = true.
Proof.
  destruct seg; simpl; intros H; apply andb_true_iff in H; tauto.
Qed.

(** ** Budget brackets *)

Lemma budget_rows_filter (b : BudgetRange) (rec_df : list Row) :
  budget_rows b rec_df = filter (in_budget b) rec_df.
Proof. destruct b; reflexivity. Qed.

Lemma select_eq_filter (col : Row -> string) (preferred : string)
  (rec_df : list Row) :
  select_eq col preferred rec_df = filter (prefers col preferred) rec_df.
Proof.
  unfold select_eq, prefers.
  destruct (String.eqb preferred no_preference); simpl; [|reflexivity].
  symmetry. apply filter_all. reflexivity.
Qed.

Lemma prefers_spec (col : Row -> string) (preferred : string) (r : Row) :
  prefers col preferred r = true
  <-> preferred = no_preference \/ col r = preferred.
Proof.
  unfold prefers. rewrite orb_true_iff, !String.eqb_eq. tauto.
Qed.

Lemma narrow_spec (p : Preferences) (filtered_df : list Row) (r : Row) :
  In r (narrow p filtered_df) <->
  In r filtered_df
  /\ in_budget (budget p) r = true
  /\ (preferred_brand p = no_preference \/ brand_name r = preferred_brand p)
  /\ (preferred_device_type p = no_preference
      \/ device_type r = preferred_device_type p)
  /\ (min_rating p <=? rating r) = true
  /\ (min_battery p <=? battery_life r) = true.
Proof.
  unfold narrow.
  rewrite budget_rows_filter, !select_eq_filter, !filter_In, !prefers_spec,
    andb_true_iff.
  tauto.
Qed.

(** The four brackets split the present prices at 2000, 5000 and 10000. *)
Lemma one_bracket (r : Row) :
  is_nan (selling_price r) = false ->
  exists b, in_budget b r = true
            /\ forall b', in_budget b' r = true -> b' = b.
Proof.
  intros Hn. set (p := selling_price r) in *.
  assert (E2 : (2000 <? p) = negb (p <=? 2000))
    by (apply ltb_negb_leb; [reflexivity|exact Hn]).
  assert (E5 : (5000 <? p) = negb (p <=? 5000))
    by (apply ltb_negb_leb; [reflexivity|exact Hn]).
  assert (E10 : (10000 <? p) = negb (p <=? 10000))
    by (apply ltb_negb_leb; [reflexivity|exact Hn]).
  assert (M25 : (p <=? 2000) = true -> (p <=? 5000) = true)
    by (intros H; exact (leb_trans p 2000 5000 H eq_refl)).
  assert (M510 : (p <=? 5000) = true -> (p <=? 10000) = true)
    by (intros H; exact (leb_trans p 5000 10000 H eq_refl)).
  assert (Pick : forall b,
             in_budget b r = true ->
             (forall b', b' <> b -> in_budget b' r = false) ->
             exists b0, in_budget b0 r = true
                        /\ forall b', in_budget b' r = true -> b' = b0).
  { intros b Hb Hothers. exists b. split; [exact Hb|].
    intros b' Hb'. destruct b, b'; try reflexivity;
      rewrite Hothers in Hb' by discriminate; discriminate. }
  destruct (p <=? 2000) eqn:L2; [|destruct (p <=? 5000) eqn:L5;
    [|destruct (p <=? 10000) eqn:L10]].
  - apply (Pick Budget_0_2K); [exact L2|].
    intros b' Hb'. destruct b'; try congruence; simpl; fold p;
      rewrite ?E2, ?E5, ?E10, ?(M25 eq_refl), ?(M510 (M25 eq_refl));
      reflexivity.
  - apply (Pick MidRange_2K_5K); [simpl; fold p; rewrite E2, L5; reflexivity|].
    intros b' Hb'. destruct b'; try congruence; simpl; fold p;
      rewrite ?E2, ?E5, ?E10, ?L2, ?L5, ?(M510 eq_refl); reflexivity.
  - apply (Pick Premium_5K_10K); [simpl; fold p; rewrite E5, L10; reflexivity|].
    intros b' Hb'. destruct b'; try congruence; simpl; fold p;
      rewrite ?E2, ?E5, ?E10, ?L2, ?L5, ?L10; reflexivity.
  - apply (Pick Luxury_10K_plus); [simpl; fold p; rewrite E10; reflexivity|].
    intros b' Hb'. destruct b'; try congruence; simpl; fold p;
      rewrite ?E2, ?E5, ?E10, ?L2, ?L5, ?L10; reflexivity.
Qed.

Lemma no_bracket (b : BudgetRange) (r : Row) :
  is_nan (selling_price r) = true -> in_budget b r = false.
Proof.
  intros Hn. destruct (in_budget b r) eqn:E; [|reflexivity].
  destruct b; simpl in E; try (apply andb_true_iff in E; destruct E as [E _]);
    first [apply leb_present in E|apply ltb_present in E];
    destruct E; congruence.
Qed.

(** Bracket and price category agree except at and under zero. *)
Lemma bracket_category (b : BudgetRange) (p : float) (r : Row) :
  selling_price r = p ->
  price_category r = cut price_bins price_labels p ->
  in_budget b r = true
  <-> price_category r = Some (category_of b)
      \/ (b = Budget_0_2K /\ (p <=? 0) = true).
Proof.
  intros Hp Hcat. rewrite Hcat. destruct b; simpl; rewrite Hp.
  - rewrite price_category_budget. split.
    + intros H. destruct (leb_present _ _ H) as [Hn _].
      rewrite (ltb_negb_leb 0 p eq_refl Hn), H.
      destruct (p <=? 0); simpl; auto.
    + intros [H|[_ H]].
      * apply andb_true_iff in H. tauto.
      * exact (leb_trans p 0 2000 H eq_refl).
  - rewrite price_category_mid_range. split; [auto|].
    intros [H|[H _]]; [exact H|discriminate].
  - rewrite price_category_premium. split; [auto|].
    intros [H|[H _]]; [exact H|discriminate].
  - rewrite price_category_luxury. split; [auto|].
    intros [H|[H _]]; [exact H|discriminate].
Qed.

(** ** Correlation labels *)

Lemma abs_opp (x : float) : abs (- x) = abs x.
Proof.
  apply Prim2SF_inj. rewrite !abs_spec, opp_spec.
  destruct (Prim2SF x); reflexivity.
Qed.

Lemma abs_nan (x : float) : is_nan x = true -> is_nan (abs x) = true.
Proof.
  intros H. apply is_nan_true in H. apply is_nan_true.
  rewrite abs_spec, H. reflexivity.
Qed.

Lemma ltb_nan_r (a x : float) : is_nan x = true -> (a <? x) = false.
Proof.
  intros H. destruct (a <? x) eqn:E; [|reflexivity].
  apply ltb_present in E. destruct E; congruence.
Qed.

(** ** Filtered rows of a loaded table *)

Lemma filtered_present (c : Controls) (df : list Row) (r : Row) :
  In r (apply_filters c df) ->
  is_nan (selling_price r) = false /\ is_nan (rating r) = false.
Proof.
  intros H. apply apply_filters_In in H. destruct H as (_ & _ & _ & _ & H).
  apply in_range_spec in H. destruct H as (H1 & _ & H3).
  split; [apply (leb_present _ _ H1)|apply (leb_present _ _ H3)].
Qed.

Lemma filtered_loaded (c : Controls) (csv : list RawRow) (r : Row) :
  In r (apply_filters c (frame csv)) -> exists raw, r = loaded csv raw.
Proof.
  intros H. apply apply_filters_In in H. destruct H as (H & _).
  apply frame_In in H. destruct H as (raw & _ & ->). eauto.
Qed.

End PagesFacts.

(* ------------------------------------------------------------------ *)
(** * Properties of the dashboard *)

Import Pandas FTA Float64 PandasFacts FilterFacts NumeralFacts LoadFacts
  RecommendFacts.
Open Scope float_scope.

(** C1. With budget bracket Mid-Range (2K-5K), brand and device type
    "No Preference", minimum rating 4.0 and minimum battery 5, whatever the
    table and the priority: every recommended row has
    2000 < selling price <= 5000, rating >= 4.0 and battery life >= 5; the
    rows are in descending order of the priority key (a row with a missing
    key would come last); there are at most 5 of them.  For rows that
    [load_data] produced from finite ratings no key is missing, and each
    row's key is at least the key of every later row. *)
Theorem mid_range_recommendations
  (pr : Priority) (filtered_df recs : list Row) :
  get_recommendations (mid_range_scenario pr) filtered_df
    = RecommendationCards recs ->
  Forall (fun r =>
            (2000 <? selling_price r) = true
            /\ (selling_price r <=? 5000) = true
            /\ (4.0 <=? rating r) = true
            /\ (5 <=? battery_life r) = true) recs
  /\ StronglySorted (desc (priority_key pr)) recs
  /\ (List.length recs <= 5)%nat
  /\ (Forall (fun r => exists csv raw,
                          r = loaded csv raw
                          /\ (csv_rating raw <? infinity) = true)
             filtered_df ->
      StronglySorted (ge_key (priority_key pr)) recs).
Proof.
  unfold get_recommendations.
  destruct (0 <? List.length (narrow (mid_range_scenario pr) filtered_df))%nat;
    [|discriminate].
  intros H. injection H as <-. rewrite recommendations_nlargest.
  change (priority (mid_range_scenario pr)) with pr.
  assert (Hrows : forall r,
             In r (nlargest (priority_key pr) 5
                     (narrow (mid_range_scenario pr) filtered_df)) ->
             In r filtered_df
             /\ (2000 <? selling_price r) = true
             /\ (selling_price r <=? 5000) = true
             /\ (4.0 <=? rating r) = true
             /\ (5 <=? battery_life r) = true).
  { intros r Hr. apply nlargest_In in Hr.
    destruct (narrow_floors _ _ _ Hr) as [Hrating Hbattery].
    apply narrow_In in Hr. simpl in Hr. apply filter_In in Hr.
    destruct Hr as [Hin Hprice]. apply andb_true_iff in Hprice.
    destruct Hprice as [Hlo Hhi]. auto. }
  split; [|split; [|split]].
  - apply Forall_forall. intros r Hr. apply Hrows in Hr. tauto.
  - apply nlargest_sorted.
  - rewrite nlargest_length. apply Nat.le_min_l.
  - intros Hloaded. apply desc_present; [apply nlargest_sorted|].
    apply Forall_forall. intros r Hr.
    destruct (Hrows r Hr) as (Hin & Hlo & Hhi & Hrating & Hbattery).
    rewrite Forall_forall in Hloaded.
    destruct (Hloaded r Hin) as (csv & raw & -> & Hfinite).
    destruct pr; simpl.
    + apply value_score_present; assumption.
    + apply (leb_present _ _ Hrating).
    + apply reviews_present.
    + apply (leb_present _ _ Hbattery).
Qed.

Lemma mid_range_recommendations_witness :
  get_recommendations (mid_range_scenario BestValue)
    (apply_filters sample_controls (frame sample_csv))
  = RecommendationCards
      (nlargest value_score 5
         (narrow (mid_range_scenario BestValue)
            (apply_filters sample_controls (frame sample_csv))))
  /\ map model_name
       (nlargest value_score 5
          (narrow (mid_range_scenario BestValue)
             (apply_filters sample_controls (frame sample_csv))))
     = ["Charge 4"; "Band 5"]%string
  /\ StronglySorted (ge_key value_score)
       (nlargest value_score 5
          (narrow (mid_range_scenario BestValue)
             (apply_filters sample_controls (frame sample_csv)))).
Proof.
  split; [reflexivity|]. split; [reflexivity|].
  apply (mid_range_recommendations BestValue
           (apply_filters sample_controls (frame sample_csv))).
  - reflexivity.
  - apply Forall_forall. intros r Hr.
    apply apply_filters_In in Hr. destruct Hr as (Hr & _ & _ & _ & Hrange).
    unfold in_range in Hrange. apply andb_true_iff in Hrange.
    destruct Hrange as [_ Hrating].
    apply frame_In in Hr. destruct Hr as (raw & Hraw & ->).
    exists sample_csv, raw. split; [reflexivity|].
    simpl in Hraw.
    destruct Hraw as [<-|[<-|[<-|[<-|[<-|[]]]]]];
      try reflexivity.
    discriminate Hrating.
Defined.

(** C2. An empty multi-select is a pass-through: whichever of the brand,
    device-type and colour selections is empty, the pipeline returns the
    very rows, in the same order, that it returns with that selection's
    statement left out; the other controls are whatever they are. *)
Theorem empty_selection_is_pass_through
  (m : MultiSelect) (c : Controls) (df : list Row) :
  selection m c = [] ->
  apply_filters c df = apply_filters_without m c df.
Proof.
  intros Hempty. unfold apply_filters, apply_filters_without.
  destruct m; simpl in *; rewrite Hempty; reflexivity.
Qed.

Lemma empty_selection_is_pass_through_witness :
  selection BrandSelect sample_controls = []
  /\ apply_filters sample_controls (frame sample_csv)
     = apply_filters_without BrandSelect sample_controls
         (frame sample_csv).
Proof.
  split; [reflexivity|].
  apply (empty_selection_is_pass_through BrandSelect sample_controls).
  reflexivity.
Defined.

(** C3. With the fixed bins 0-2000, 2000-5000, 5000-10000 and 10000+, a
    loaded row whose selling price lies in a bin gets that bin's category
    (Budget, Mid-Range, Premium, Luxury); a loaded table of three rows with
    selling prices 1000, 3000 and 12000 gets the categories Budget,
    Mid-Range, Luxury. *)
Theorem price_category_by_bins (csv : list RawRow) (df : list Row) :
  load_data csv = inr df ->
  Forall (fun r =>
    let p := selling_price r in
    ((0 <? p) && (p <=? 2000) = true -> price_category r = Some Budget) /\
    ((2000 <? p) && (p <=? 5000) = true -> price_category r = Some MidRange) /\
    ((5000 <? p) && (p <=? 10000) = true -> price_category r = Some Premium) /\
    ((10000 <? p) = true -> price_category r = Some Luxury)) df
  /\ (map selling_price df = [1000; 3000; 12000] ->
      map price_category df = [Some Budget; Some MidRange; Some Luxury]).
Proof.
  intros Hload. apply load_data_inv in Hload. subst df. split.
  - apply Forall_forall. intros r Hr.
    apply frame_In in Hr. destruct Hr as (raw & _ & ->).
    cbv zeta. change (price_category (loaded csv raw))
      with (cut price_bins price_labels (selling_price (loaded csv raw))).
    repeat split; intros H.
    + apply price_category_budget, H.
    + apply price_category_mid_range, H.
    + apply price_category_premium, H.
    + apply price_category_luxury, H.
  - intros Hprices.
    assert (Hcat : map price_category (frame csv)
                   = map (cut price_bins price_labels)
                         (map selling_price (frame csv))).
    { unfold frame. rewrite !map_map. reflexivity. }
    rewrite Hcat, Hprices. reflexivity.
Qed.

Lemma price_category_by_bins_witness :
  load_data scenario_csv = inr (frame scenario_csv)
  /\ map selling_price (frame scenario_csv) = [1000; 3000; 12000]
  /\ map price_category (frame scenario_csv)
     = [Some Budget; Some MidRange; Some Luxury].
Proof.
  split; [reflexivity|]. split; [reflexivity|].
  apply (price_category_by_bins scenario_csv (frame scenario_csv));
    reflexivity.
Defined.

(** C4, as stated, fails: where both price columns are columns of whole
    numbers the frame computes 100 * (original - selling) in 64-bit
    integers, which wrap around.  With a selling price of 1000 and an
    original price of 10^17 both prices are present, the discount column
    holds a negative number, and 100 * (original - selling) / original is
    above 99. *)
Lemma discount_can_wrap :
  load_data wrapping_csv = inr (frame wrapping_csv)
  /\ map (fun r => (selling_price r, original_price r)) (frame wrapping_csv)
     = [(1000, 1e17)]
  /\ map discount (frame wrapping_csv) = [-84.467440737096524]
  /\ map (fun r => 100 * (original_price r - selling_price r)
                   / original_price r) (frame wrapping_csv)
     = [99.999999999999019]
  /\ ~ Forall (fun r =>
                is_nan (original_price r) = false ->
                is_nan (selling_price r) = false ->
                discount r
                = 100 * (original_price r - selling_price r)
                  / original_price r)
         (frame wrapping_csv).
Proof.
  split; [reflexivity|]. split; [reflexivity|]. split; [reflexivity|].
  split; [reflexivity|].
  intros H. inversion H as [|r l Hr _]; subst.
  specialize (Hr eq_refl eq_refl).
  apply (f_equal (fun x => x <? 0)) in Hr. vm_compute in Hr. discriminate.
Qed.

(** C4, amended. In every row of the loaded table the two price cells hold
    the binary64 values of that row's cleaned prices, and where both are
    present the discount column holds 100 * (original - selling) / original
    of them, bit for bit, provided that the row lies within the envelope:
    if both price columns were read as whole-number columns, both prices
    are at most 2^45 in magnitude and, in unsigned columns, the selling
    price is at most the original price.  A row with a price read as a
    float always lies within it. *)
Theorem discount_recomputed (csv : list RawRow) (df : list Row) :
  load_data csv = inr df ->
  Forall2 (fun raw r =>
    selling_price r = to_float (cleaned_selling csv raw) /\
    original_price r = to_float (cleaned_original csv raw) /\
    (is_nan (original_price r) = false ->
     is_nan (selling_price r) = false ->
     within_envelope (cleaned_selling csv raw) (cleaned_original csv raw) ->
     discount r
     = 100 * (original_price r - selling_price r) / original_price r))
    csv df.
Proof.
  intros Hload. apply load_data_inv in Hload. subst df.
  apply Forall2_frame. intros raw _.
  split; [reflexivity|]. split; [reflexivity|].
  intros _ _ Henvelope. apply (discount_formula _ _ Henvelope).
Qed.

Lemma discount_recomputed_witness :
  map (fun raw => (cleaned_selling scenario_csv raw,
                   cleaned_original scenario_csv raw)) scenario_csv
  = [(I64 1000, I64 1999); (I64 3000, I64 3500); (I64 12000, I64 12000)]
  /\ Forall (fun r =>
               discount r
               = 100 * (original_price r - selling_price r)
                 / original_price r)
       (frame scenario_csv).
Proof.
  split; [reflexivity|].
  pose proof (discount_recomputed scenario_csv (frame scenario_csv) eq_refl)
    as H.
  unfold scenario_csv in H. cbn [frame map] in H.
  inversion H as [|raw1 r1 ? ? (_ & _ & H1) T1]; subst.
  inversion T1 as [|raw2 r2 ? ? (_ & _ & H2) T2]; subst.
  inversion T2 as [|raw3 r3 ? ? (_ & _ & H3) _]; subst.
  assert (Hsmall : (1000 <= 2 ^ 45 /\ 1999 <= 2 ^ 45)%Z
                   /\ (3000 <= 2 ^ 45 /\ 3500 <= 2 ^ 45)%Z
                   /\ (12000 <= 2 ^ 45 /\ 12000 <= 2 ^ 45)%Z) by lia.
  destruct Hsmall as (E1 & E2 & E3).
  apply Forall_cons; [apply H1; [reflexivity|reflexivity|exact E1]|].
  apply Forall_cons; [apply H2; [reflexivity|reflexivity|exact E2]|].
  apply Forall_cons; [apply H3; [reflexivity|reflexivity|exact E3]|].
  apply Forall_nil.
Defined.

(** C5. Top-N selection returns rows in descending order of the sort key
    (every row's key is at least the key of every later row; rows whose key
    is missing, which compares with no number, come after all others), and
    it returns min(N, rows available) rows: N = 10 in each of the four
    ranking tabs, N = 5 in the recommendations.  Whenever no key is missing
    the order is plain descending order; that is always so for the
    Top Rated and Most Popular tabs of a filtered loaded table. *)
Theorem top_n_sorted_and_sized :
  (forall tab filtered_df,
      StronglySorted (desc (ranking_key tab filtered_df))
        (ranking tab filtered_df)
      /\ List.length (ranking tab filtered_df)
         = Nat.min 10 (List.length filtered_df))
  /\ (forall p rec_df,
      StronglySorted (desc (priority_key (priority p)))
        (recommendations p rec_df)
      /\ List.length (recommendations p rec_df)
         = Nat.min 5 (List.length rec_df))
  /\ (forall (key : Row -> float) n df,
      Forall (fun r => is_nan (key r) = false) df ->
      StronglySorted (ge_key key) (nlargest key n df))
  /\ (forall c csv df,
      load_data csv = inr df ->
      StronglySorted (ge_key rating) (top_rated (apply_filters c df))
      /\ StronglySorted (ge_key reviews) (top_popular (apply_filters c df))).
Proof.
  split; [|split; [|split]].
  - intros tab df. rewrite ranking_nlargest. split.
    + apply nlargest_sorted.
    + apply nlargest_length.
  - intros p df. rewrite recommendations_nlargest. split.
    + apply nlargest_sorted.
    + apply nlargest_length.
  - intros key n df. apply nlargest_sorted_present.
  - intros c csv df Hload. apply load_data_inv in Hload. subst df.
    split; apply nlargest_sorted_present; apply Forall_forall; intros r Hr.
    + apply apply_filters_In in Hr. destruct Hr as (_ & _ & _ & _ & Hrange).
      unfold in_range in Hrange. apply andb_true_iff in Hrange.
      destruct Hrange as [_ Hrating]. apply (leb_present _ _ Hrating).
    + apply apply_filters_In in Hr. destruct Hr as (Hr & _).
      apply (frame_reviews_present csv), Hr.
Qed.

Lemma top_n_sorted_and_sized_witness :
  load_data scenario_csv = inr (frame scenario_csv)
  /\ StronglySorted (ge_key selling_price)
       (nlargest selling_price 2 (frame scenario_csv))
  /\ map model_name (nlargest selling_price 2 (frame scenario_csv))
     = ["Venu"; "Inspire"]%string
  /\ StronglySorted (ge_key rating)
       (top_rated (apply_filters sample_controls (frame scenario_csv))).
Proof.
  split; [reflexivity|]. split; [|split; [reflexivity|]].
  - apply (proj1 (proj2 (proj2 top_n_sorted_and_sized))).
    repeat constructor.
  - apply (proj2 (proj2 (proj2 top_n_sorted_and_sized))
             sample_controls scenario_csv).
    reflexivity.
Defined.

(** C6. The filter pipeline is idempotent: run on its own output with the
    same control values it returns that output unchanged. *)
Theorem apply_filters_idempotent (c : Controls) (df : list Row) :
  apply_filters c (apply_filters c df) = apply_filters c df.
Proof. rewrite !apply_filters_keeps. apply filter_idem. Qed.

(** C7. Once the button is pressed the page shows either the warning
    "No products match your criteria. Please adjust your filters." or the
    recommendation cards, never neither: the warning exactly when the
    narrowed set is empty, the cards, at least one of them, exactly when it
    is not. *)
Theorem no_match_is_reported (p : Preferences) (filtered_df : list Row) :
  exists shown,
    recommendation_section true p filtered_df = Some shown
    /\ ((narrow p filtered_df = []
         /\ shown = WarningBox
              "No products match your criteria. Please adjust your filters.")
        \/ (narrow p filtered_df <> []
            /\ shown = RecommendationCards
                 (recommendations p (narrow p filtered_df))
            /\ recommendations p (narrow p filtered_df) <> [])).
Proof.
  unfold recommendation_section, get_recommendations.
  eexists. split; [reflexivity|].
  destruct (narrow p filtered_df) as [|r rec_df] eqn:E.
  - left. split; reflexivity.
  - right. split; [discriminate|]. split; [reflexivity|].
    rewrite recommendations_nlargest.
    apply nlargest_nonempty; [lia|discriminate].
Qed.

(** C8, as stated, fails: the cleaner strips commas and reads the numeral,
    sign included, so the selling price text "-499" is cleaned to the
    number -499, which is neither missing nor at least zero. *)
Lemma cleaned_price_can_be_negative :
  load_data negative_csv = inr (frame negative_csv)
  /\ map selling_price (frame negative_csv) = [-499]
  /\ ~ Forall (fun r => nonneg_or_missing (selling_price r)
                        /\ nonneg_or_missing (original_price r))
         (frame negative_csv).
Proof.
  split; [reflexivity|]. split; [reflexivity|].
  intros H. inversion H as [|r l [[Hn|Hle] _] _]; subst.
  - vm_compute in Hn. discriminate.
  - vm_compute in Hle. discriminate.
Qed.

(** C8, amended. The loader never raises, and each cleaned selling-price
    and original-price cell is a number or the "no value" marker, never
    text: a numeric raw cell is kept, a text cell that the numeral reader
    rejects (commas removed) becomes "no value", and the cleaned value is
    missing or at least zero whenever the raw cell carries no negative
    value (text without a minus sign, or a number that is missing or at
    least zero). *)
Theorem cleaned_prices_are_numbers (csv : list RawRow) :
  exists df,
    load_data csv = inr df
    /\ Forall2 (fun raw r =>
                  cleaned_from (csv_selling_price raw) (selling_price r)
                  /\ cleaned_from (csv_original_price raw) (original_price r))
         csv df.
Proof.
  exists (frame csv). split; [apply load_data_frame|].
  assert (Hcell : forall column c,
             cleaned_from c (to_float (convert column (replace_commas c)))).
  { intros column c. unfold cleaned_from. split; [|split].
    - intros x0 ->. unfold convert.
      generalize (result_type (map scan column)) as d.
      intros d. destruct d; reflexivity.
    - intros s -> Hnone. unfold convert.
      generalize (result_type (map scan column)) as d.
      intros d. simpl replace_commas.
      assert (Hscan : scan (Text (remove_commas s)) = SeenFloat nan).
      { simpl. destruct (remove_commas s); [reflexivity|].
        rewrite Hnone. reflexivity. }
      rewrite Hscan. destruct d; reflexivity.
    - apply convert_unsigned. }
  apply Forall2_frame. intros raw _. split; apply Hcell.
Qed.

Lemma cleaned_prices_are_numbers_witness :
  unsigned_cell (csv_selling_price charge_4)
  /\ nonneg_or_missing (selling_price (loaded sample_csv charge_4)).
Proof.
  split; [reflexivity|].
  destruct (cleaned_prices_are_numbers sample_csv) as (df & Hload & H).
  rewrite load_data_frame in Hload. injection Hload as <-.
  unfold frame, sample_csv in H. cbn [map] in H.
  inversion H as [|raw r ? ? ((_ & _ & Hs) & _) _]; subst.
  apply Hs. reflexivity.
Defined.

(** C9. Every row of the filtered table has a present rating that is at
    least the slider's minimum; a row whose rating is missing is in no
    filtered table, whatever the controls are. *)
Theorem filtered_rating_present (c : Controls) (df : list Row) :
  Forall (fun r => is_nan (rating r) = false
                   /\ (rating_filter c <=? rating r) = true)
         (apply_filters c df)
  /\ forall r, is_nan (rating r) = true -> ~ In r (apply_filters c df).
Proof.
  assert (H : forall r, In r (apply_filters c df) ->
                        is_nan (rating r) = false
                        /\ (rating_filter c <=? rating r) = true).
  { intros r Hr. apply apply_filters_In in Hr.
    destruct Hr as (_ & _ & _ & _ & Hrange).
    unfold in_range in Hrange.
    apply andb_true_iff in Hrange. destruct Hrange as [_ Hrating].
    split; [|assumption]. apply (leb_present _ _ Hrating). }
  split.
  - apply Forall_forall. exact H.
  - intros r Hnan Hin. destruct (H r Hin) as [Hp _]. congruence.
Qed.

Lemma filtered_rating_present_witness :
  is_nan (rating (loaded sample_csv colorfit)) = true
  /\ In (loaded sample_csv colorfit) (frame sample_csv)
  /\ ~ In (loaded sample_csv colorfit)
        (apply_filters sample_controls (frame sample_csv)).
Proof.
  split; [reflexivity|]. split; [right; left; reflexivity|].
  apply (proj2 (filtered_rating_present sample_controls
                  (frame sample_csv))).
  reflexivity.
Defined.

(** C10. The price bins are left-open and right-closed: a loaded row is
    Budget exactly when 0 < price <= 2000, Mid-Range exactly when
    2000 < price <= 5000, Premium exactly when 5000 < price <= 10000,
    Luxury exactly when 10000 < price, and has no category exactly when the
    price is missing or at most 0.  So a price of exactly 2000 is Budget,
    exactly 5000 is Mid-Range, and exactly 0 or missing gets no category. *)
Theorem price_bins_left_open_right_closed (csv : list RawRow) (df : list Row) :
  load_data csv = inr df ->
  Forall (fun r =>
    let p := selling_price r in
    ((p =? 2000) = true -> price_category r = Some Budget) /\
    ((p =? 5000) = true -> price_category r = Some MidRange) /\
    ((p =? 0) = true -> price_category r = None) /\
    (is_nan p = true -> price_category r = None) /\
    (price_category r = Some Budget <-> (0 <? p) && (p <=? 2000) = true) /\
    (price_category r = Some MidRange <-> (2000 <? p) && (p <=? 5000) = true) /\
    (price_category r = Some Premium <-> (5000 <? p) && (p <=? 10000) = true) /\
    (price_category r = Some Luxury <-> (10000 <? p) = true) /\
    (price_category r = None <-> is_nan p = true \/ (p <=? 0) = true)) df.
Proof.
  intros Hload. apply load_data_inv in Hload. subst df.
  apply Forall_forall. intros r Hr.
  apply frame_In in Hr. destruct Hr as (raw & _ & ->).
  cbv zeta. change (price_category (loaded csv raw))
    with (cut price_bins price_labels (selling_price (loaded csv raw))).
  set (p := selling_price (loaded csv raw)).
  assert (Hat : forall a b, (a <? b) = true -> (p =? b) = true ->
                            (a <? p) && (p <=? b) = true).
  { intros a b Hab Hpb. apply eqb_leb in Hpb. destruct Hpb as [Hpb Hbp].
    rewrite (ltb_leb_trans _ _ _ Hab Hbp), Hpb. reflexivity. }
  repeat split.
  - intros H. apply price_category_budget, Hat; [reflexivity|exact H].
  - intros H. apply price_category_mid_range, Hat; [reflexivity|exact H].
  - intros H. apply price_category_none. right. apply (eqb_leb _ _ H).
  - intros H. apply price_category_none. left. exact H.
  - apply price_category_budget.
  - apply price_category_budget.
  - apply price_category_mid_range.
  - apply price_category_mid_range.
  - apply price_category_premium.
  - apply price_category_premium.
  - apply price_category_luxury.
  - apply price_category_luxury.
  - apply price_category_none.
  - apply price_category_none.
Qed.

Lemma price_bins_left_open_right_closed_witness :
  load_data boundary_csv = inr (frame boundary_csv)
  /\ map selling_price (frame boundary_csv) = [2000; 5000; 0; nan]
  /\ map price_category (frame boundary_csv)
     = [Some Budget; Some MidRange; None; None].
Proof.
  pose proof (price_bins_left_open_right_closed boundary_csv
                (frame boundary_csv) eq_refl) as H.
  split; [reflexivity|]. split; [reflexivity|].
  unfold frame, boundary_csv in *. cbn [map] in *.
  inversion H as [|r1 l1 (H1 & _) T1]; subst.
  inversion T1 as [|r2 l2 (_ & H2 & _) T2]; subst.
  inversion T2 as [|r3 l3 (_ & _ & H3 & _) T3]; subst.
  inversion T3 as [|r4 l4 (_ & _ & _ & H4 & _) T4]; subst.
  rewrite (H1 eq_refl), (H2 eq_refl), (H3 eq_refl), (H4 eq_refl).
  reflexivity.
Defined.

(* ------------------------------------------------------------------ *)
(** * Further properties: loader *)

Import Series Pages LoaderMore FilterMore IdxMaxFacts TopFacts CountFacts
  PagesFacts.
Open Scope float_scope.

(** X1. After loading, no review count is missing: a missing count is
    loaded as 0, and so is a count written with a thousands separator,
    because commas are removed from the two price columns only. *)
Theorem reviews_default_to_zero (csv : list RawRow) :
  exists df,
    load_data csv = inr df
    /\ Forall2 (fun raw r =>
                  is_nan (reviews r) = false
                  /\ (forall s, csv_reviews raw = Text s ->
                                has_comma s = true -> reviews r = 0)
                  /\ (forall x, csv_reviews raw = Numeric x ->
                                is_nan x = true -> reviews r = 0))
         csv df.
Proof.
  exists (frame csv). split; [apply load_data_frame|].
  assert (Hfill : forall column c x,
             scan c = SeenFloat x -> is_nan x = true ->
             to_float (fillna 0 (convert column c)) = 0).
  { intros column c x Hc Hx. unfold convert. rewrite Hc.
    destruct (result_type (map scan column)); simpl; rewrite Hx;
      reflexivity. }
  apply Forall2_frame. intros raw _.
  split; [apply reviews_present|]. split.
  - intros s Hs Hcomma. apply (Hfill _ _ nan); [|reflexivity].
    rewrite Hs. apply scan_comma, Hcomma.
  - intros x Hx Hnan. apply (Hfill _ _ x); [|exact Hnan].
    rewrite Hx. reflexivity.
Qed.

Lemma reviews_default_to_zero_witness :
  csv_reviews separated_reviews = Text "23,717"
  /\ reviews (loaded [separated_reviews] separated_reviews) = 0.
Proof.
  split; [reflexivity|].
  destruct (reviews_default_to_zero [separated_reviews]) as (df & Hload & H).
  rewrite load_data_frame in Hload. injection Hload as <-.
  unfold frame in H. cbn [map] in H.
  inversion H as [|raw r ? ? (_ & Hs & _) _]; subst.
  apply (Hs "23,717"%string); reflexivity.
Defined.

(** X2. The discount is not guarded against a zero original price: where
    the cleaned original price is zero the loaded discount is infinite or
    missing, never a finite number (and nothing is raised). *)
Theorem zero_original_price_discount (csv : list RawRow) :
  exists df,
    load_data csv = inr df
    /\ Forall (fun r => (original_price r =? 0) = true ->
                        is_finite (discount r) = false) df.
Proof.
  exists (frame csv). split; [apply load_data_frame|].
  apply Forall_forall. intros r Hr.
  apply frame_In in Hr. destruct Hr as (raw & _ & ->).
  intros H. apply div_by_zero_not_finite, H.
Qed.

Lemma zero_original_price_discount_witness :
  (original_price (loaded [unpriced_original] unpriced_original) =? 0) = true
  /\ is_finite (discount (loaded [unpriced_original] unpriced_original))
     = false.
Proof.
  split; [reflexivity|].
  destruct (zero_original_price_discount [unpriced_original])
    as (df & Hload & H).
  rewrite load_data_frame in Hload. injection Hload as <-.
  unfold frame in H. cbn [map] in H. inversion H as [|r l Hr _]; subst.
  apply Hr. reflexivity.
Defined.

(** X3. A product sold at its original price, the two cleaned prices being
    equal, has a discount of zero, provided that price is a finite number
    other than zero. *)
Theorem equal_prices_no_discount (csv : list RawRow) :
  exists df,
    load_data csv = inr df
    /\ Forall2 (fun raw r =>
                  is_finite (original_price r) = true ->
                  (original_price r =? 0) = false ->
                  same_number (cleaned_selling csv raw)
                    (cleaned_original csv raw) = true ->
                  (discount r =? 0) = true) csv df.
Proof.
  exists (frame csv). split; [apply load_data_frame|].
  apply Forall2_frame. intros raw _ Hfin Hnz Heq.
  assert (Ho : finite_nonzero (original_price (loaded csv raw))).
  { destruct (finite_shape _ Hfin) as [[s H]|H]; [|exact H].
    rewrite (zero_shape_eqb _ s H) in Hnz. discriminate. }
  exact (same_price_discount _ _ Heq Ho).
Qed.

Lemma equal_prices_no_discount_witness :
  same_number (cleaned_selling [undiscounted] undiscounted)
    (cleaned_original [undiscounted] undiscounted) = true
  /\ (discount (loaded [undiscounted] undiscounted) =? 0) = true.
Proof.
  split; [reflexivity|].
  destruct (equal_prices_no_discount [undiscounted]) as (df & Hload & H).
  rewrite load_data_frame in Hload. injection Hload as <-.
  unfold frame in H. cbn [map] in H.
  inversion H as [|raw r ? ? Hr _]; subst.
  apply Hr; reflexivity.
Defined.

(** X4. A product without reviews has a value score of zero, whatever its
    rating, as long as the rating is finite and the selling price is a
    finite number other than zero. *)
Theorem no_reviews_no_value (csv : list RawRow) :
  exists df,
    load_data csv = inr df
    /\ Forall (fun r =>
                 (reviews r =? 0) = true ->
                 is_finite (rating r) = true ->
                 is_finite (selling_price r) = true ->
                 (selling_price r =? 0) = false ->
                 (value_score r =? 0) = true) df.
Proof.
  exists (frame csv). split; [apply load_data_frame|].
  apply Forall_forall. intros r Hr.
  apply frame_In in Hr. destruct Hr as (raw & _ & ->).
  intros Hreviews Hrating Hfin Hnz.
  assert (Hp : finite_nonzero (selling_price (loaded csv raw))).
  { destruct (finite_shape _ Hfin) as [[s H]|H]; [|exact H].
    rewrite (zero_shape_eqb _ s H) in Hnz. discriminate. }
  exact (zero_value_score _ _ _ Hrating Hreviews Hp).
Qed.

Lemma no_reviews_no_value_witness :
  (reviews (loaded [unreviewed] unreviewed) =? 0) = true
  /\ (value_score (loaded [unreviewed] unreviewed) =? 0) = true.
Proof.
  split; [reflexivity|].
  destruct (no_reviews_no_value [unreviewed]) as (df & Hload & H).
  rewrite load_data_frame in Hload. injection Hload as <-.
  unfold frame in H. cbn [map] in H. inversion H as [|r l Hr _]; subst.
  apply Hr; reflexivity.
Defined.

(* ------------------------------------------------------------------ *)
(** * Further properties: filter pipeline *)

(** X5. A row is in the filtered table exactly when it is in the table and
    passes every control: its brand, device type and colour are among the
    chosen ones (or nothing is chosen), its price lies within the slider's
    two bounds, both included, and its rating is at least the minimum. *)
Theorem filtered_rows_characterised
  (c : Controls) (df : list Row) (r : Row) :
  In r (apply_filters c df) <->
  In r df
  /\ (brand_filter c = [] \/ In (brand_name r) (brand_filter c))
  /\ (device_filter c = [] \/ In (device_type r) (device_filter c))
  /\ (color_filter c = [] \/ In (color r) (color_filter c))
  /\ (fst (price_range c) <=? selling_price r) = true
  /\ (selling_price r <=? snd (price_range c)) = true
  /\ (rating_filter c <=? rating r) = true.
Proof.
  rewrite apply_filters_In, !chosen_spec, in_range_spec. tauto.
Qed.

(** X6. Relaxing the controls never loses a row: if each multi-select is
    cleared or widened, the price range widened and the minimum rating
    lowered, every row shown before is still shown, and filtering the new
    result with the old controls gives the old result back. *)
Theorem relaxing_controls_keeps_rows (c c' : Controls) (df : list Row) :
  relaxes c c' ->
  incl (apply_filters c df) (apply_filters c' df)
  /\ apply_filters c (apply_filters c' df) = apply_filters c df.
Proof.
  intros Hrel. split.
  - intros r Hr. rewrite apply_filters_keeps, filter_In in *.
    destruct Hr as [Hin Hk]. split; [exact Hin|].
    exact (keeps_relaxed c c' r Hrel Hk).
  - rewrite apply_filters_twice, apply_filters_keeps.
    apply filter_ext. intros r. destruct (keeps c r) eqn:E.
    + rewrite (keeps_relaxed c c' r Hrel E). reflexivity.
    + apply andb_false_r.
Qed.

Lemma relaxing_controls_keeps_rows_witness :
  relaxes strict_controls sample_controls
  /\ map model_name (apply_filters strict_controls (frame sample_csv))
     = ["Charge 4"; "Versa"]%string
  /\ incl (apply_filters strict_controls (frame sample_csv))
          (apply_filters sample_controls (frame sample_csv)).
Proof.
  assert (H : relaxes strict_controls sample_controls).
  { split; [|repeat split].
    intros m. destruct m; simpl.
    - left. reflexivity.
    - right. split; [discriminate|apply incl_refl].
    - left. reflexivity. }
  split; [exact H|]. split; [reflexivity|].
  apply (relaxing_controls_keeps_rows strict_controls sample_controls), H.
Defined.

(** X7. Two settings of the controls can be applied in either order: the
    result is the same table, the rows that pass both. *)
Theorem filters_commute (c c' : Controls) (df : list Row) :
  apply_filters c (apply_filters c' df) = apply_filters c' (apply_filters c df)
  /\ forall r, In r (apply_filters c (apply_filters c' df))
               <-> In r (apply_filters c df) /\ In r (apply_filters c' df).
Proof.
  split.
  - rewrite !apply_filters_twice. apply filter_ext. intros r.
    apply andb_comm.
  - intros r. rewrite apply_filters_twice, !apply_filters_keeps, !filter_In,
      andb_true_iff. tauto.
Qed.

(* ------------------------------------------------------------------ *)
(** * Further properties: executive summary *)

(** X8. The three insight picks need rows: on a filtered loaded table the
    lookups return exactly when some row has a value score, and raise
    otherwise; in particular they raise when the filters leave no row. *)
Theorem insights_need_rows (c : Controls) (csv : list RawRow) :
  exists df,
    load_data csv = inr df
    /\ ((exists i, insights (apply_filters c df) = inr i)
        <-> (exists r, In r (apply_filters c df)
                       /\ is_nan (value_score r) = false))
    /\ (apply_filters c df = [] ->
        exists e, insights (apply_filters c df) = inl e).
Proof.
  exists (frame csv). split; [apply load_data_frame|].
  set (fdf := apply_filters c (frame csv)).
  assert (Hiff : (exists i, insights fdf = inr i)
                 <-> (exists r, In r fdf /\ is_nan (value_score r) = false)).
  { rewrite <- (idxmax_row_returns value_score fdf). unfold insights. split.
    - intros [i H]. destruct (idxmax_row value_score fdf) as [e|r];
        [discriminate|eauto].
    - intros [r Hr]. rewrite Hr. simpl.
      assert (Hin : In r fdf).
      { destruct (idxmax_row_split value_score fdf r Hr)
          as (pre & post & -> & _).
        apply in_or_app. right. left. reflexivity. }
      destruct (proj2 (idxmax_row_returns reviews fdf)) as [r2 Hr2].
      { exists r. split; [exact Hin|].
        destruct (filtered_loaded c csv r Hin) as [raw ->].
        apply reviews_present. }
      destruct (proj2 (idxmax_row_returns rating fdf)) as [r3 Hr3].
      { exists r. split; [exact Hin|]. apply (filtered_present c _ r Hin). }
      rewrite Hr2, Hr3. simpl. eauto. }
  split; [exact Hiff|].
  intros Hempty. destruct (insights fdf) as [e|i] eqn:E; [eauto|].
  destruct (proj1 Hiff (ex_intro _ i eq_refl)) as (r & Hr & _).
  rewrite Hempty in Hr. destruct Hr.
Qed.

Lemma insights_need_rows_witness :
  apply_filters absent_brand_controls (frame sample_csv) = []
  /\ exists e,
      insights (apply_filters absent_brand_controls (frame sample_csv))
      = inl e.
Proof.
  split; [reflexivity|].
  destruct (insights_need_rows absent_brand_controls sample_csv)
    as (df & Hload & _ & H).
  rewrite load_data_frame in Hload. injection Hload as <-.
  apply H. reflexivity.
Defined.



(** X10. The summary and the ranking tabs agree: on a filtered loaded
    table the Most Popular pick has the review count of the first row of
    the Most Popular tab, and the Top Rated pick has the rating of the
    first row of the Top Rated tab. *)
Theorem insights_agree_with_tabs
  (c : Controls) (csv : list RawRow) (df : list Row) (i : Insights) :
  load_data csv = inr df ->
  insights (apply_filters c df) = inr i ->
  (exists h, hd_error (top_popular (apply_filters c df)) = Some h
             /\ (reviews h =? reviews (most_reviewed i)) = true)
  /\ (exists h, hd_error (top_rated (apply_filters c df)) = Some h
                /\ (rating h =? rating (highest_rated i)) = true).
Proof.
  intros Hload. apply load_data_inv in Hload. subst df.
  set (fdf := apply_filters c (frame csv)).
  unfold insights.
  destruct (idxmax_row value_score fdf) as [e|r1] eqn:E1; [discriminate|].
  destruct (idxmax_row reviews fdf) as [e|r2] eqn:E2; [discriminate|].
  destruct (idxmax_row rating fdf) as [e|r3] eqn:E3; [discriminate|].
  simpl. intros H. injection H as <-. simpl.
  assert (Hne : fdf <> []).
  { intros Hnil. rewrite Hnil in E2. discriminate. }
  split.
  - destruct (nlargest_head_exists reviews 9 fdf Hne) as [h Hh].
    exists h. split; [exact Hh|].
    apply (head_key_is_max reviews 9 fdf h r2); [|exact Hh|exact E2].
    intros x Hx. destruct (filtered_loaded c csv x Hx) as [raw ->].
    apply reviews_present.
  - destruct (nlargest_head_exists rating 9 fdf Hne) as [h Hh].
    exists h. split; [exact Hh|].
    apply (head_key_is_max rating 9 fdf h r3); [|exact Hh|exact E3].
    intros x Hx. apply (filtered_present c _ x Hx).
Qed.

Lemma insights_agree_with_tabs_witness :
  exists i h,
    insights (apply_filters sample_controls (frame sample_csv)) = inr i
    /\ hd_error (top_rated (apply_filters sample_controls
                              (frame sample_csv))) = Some h
    /\ model_name h = "Fenix"%string
    /\ (rating h =? rating (highest_rated i)) = true.
Proof.
  destruct (insights (apply_filters sample_controls (frame sample_csv)))
    as [e|i] eqn:E; [vm_compute in E; discriminate|].
  destruct (insights_agree_with_tabs sample_controls sample_csv
              (frame sample_csv) i eq_refl E) as (_ & h & Hh & Heq).
  exists i, h. split; [reflexivity|]. split; [exact Hh|].
  split; [|exact Heq].
  vm_compute in Hh. injection Hh as <-. reflexivity.
Defined.

(* ------------------------------------------------------------------ *)
(** * Further properties: rankings and counts *)

(** X11. A top-N table really is the top: in every ranking tab and in the
    recommendations, the rows shown and the rows left out make up the
    table they were taken from, and no row left out ranks before a row
    shown (its key is at most the shown row's, or it has no key). *)
Theorem top_n_leaves_out_the_rest :
  (forall tab filtered_df,
      exists rest,
        Permutation (ranking tab filtered_df ++ rest) filtered_df
        /\ forall a b, In a (ranking tab filtered_df) -> In b rest ->
                       desc (ranking_key tab filtered_df) a b)
  /\ (forall p rec_df,
      exists rest,
        Permutation (recommendations p rec_df ++ rest) rec_df
        /\ forall a b, In a (recommendations p rec_df) -> In b rest ->
                       desc (priority_key (priority p)) a b).
Proof.
  split.
  - intros tab df. rewrite ranking_nlargest. apply nlargest_top.
  - intros p df. rewrite recommendations_nlargest. apply nlargest_top.
Qed.

(** X12. A distribution chart (display type, strap material) has one
    slice per value of its column, sized by the number of filtered rows
    that hold the value, the larger slices first; rows whose cell is
    missing are in no slice, so the slices add up to the number of
    filtered rows that have a value in the column. *)
Theorem distribution_slices
  (col : Row -> option string) (filtered_df : list Row) :
  (forall v k, In (v, k) (distribution col filtered_df)
               <-> (exists r, In r filtered_df /\ col r = Some v)
                   /\ k = List.length (filter (holds col v) filtered_df))
  /\ NoDup (map fst (distribution col filtered_df))
  /\ StronglySorted count_ge (distribution col filtered_df)
  /\ list_sum (map snd (distribution col filtered_df))
     = List.length (filter (has_value col) filtered_df).
Proof.
  unfold distribution. split; [|split; [|split]].
  - intros v k. rewrite value_counts_In, present_In, in_map_iff.
    assert (Hocc : occurrences v (present (map col filtered_df))
                   = List.length (filter (holds col v) filtered_df)).
    { unfold occurrences, holds.
      induction filtered_df as [|r l IH]; simpl; [reflexivity|].
      destruct (col r) as [w|]; simpl; [|exact IH].
      destruct (String.eqb v w); simpl; rewrite IH; reflexivity. }
    rewrite Hocc. split.
    + intros [(r & H & Hr) ->]. eauto.
    + intros [(r & Hr & H) ->]. eauto.
  - apply (Permutation_NoDup (Permutation_sym (value_counts_labels _))).
    apply unique_NoDup.
  - apply sort_counts_sorted.
  - rewrite value_counts_total. unfold has_value.
    induction filtered_df as [|r l IH]; simpl; [reflexivity|].
    destruct (col r); simpl; rewrite IH; reflexivity.
Qed.

(** X13. Market concentration divides the rows of the three largest
    brands by all rows: the numerator never exceeds the number of rows and
    equals it when the table has at most three brands; on a table without
    rows the division is 0/0 and the figure is the missing value. *)
Theorem market_concentration_bounds (filtered_df : list Row) :
  (top3_brand_rows filtered_df <= List.length filtered_df)%nat
  /\ ((List.length (unique (map brand_name filtered_df)) <= 3)%nat ->
      top3_brand_rows filtered_df = List.length filtered_df)
  /\ (filtered_df = [] -> is_nan (market_concentration filtered_df) = true).
Proof.
  unfold top3_brand_rows.
  pose proof (value_counts_total (map brand_name filtered_df)) as Htotal.
  rewrite length_map in Htotal.
  split; [|split].
  - rewrite <- Htotal. apply head_sum_le.
  - intros Hbrands. rewrite <- Htotal. apply head_sum_all.
    rewrite <- (Permutation_length
                  (value_counts_labels (map brand_name filtered_df))) in Hbrands.
    rewrite length_map in Hbrands. exact Hbrands.
  - intros ->. reflexivity.
Qed.

Lemma market_concentration_bounds_witness :
  (List.length
     (unique (map brand_name
                (apply_filters sample_controls (frame sample_csv))))
   <= 3)%nat
  /\ top3_brand_rows (apply_filters sample_controls (frame sample_csv))
     = 4%nat.
Proof.
  split; [vm_compute; repeat constructor|].
  apply (proj1 (proj2 (market_concentration_bounds
                         (apply_filters sample_controls
                            (frame sample_csv))))).
  vm_compute. repeat constructor.
Defined.

(** X14. The colour chart shows at most ten colours, each with the number
    of filtered rows of that colour, and no colour left off the chart has
    more rows than a colour on it. *)
Theorem color_preference_top_ten (filtered_df : list Row) :
  (List.length (color_preference filtered_df) <= 10)%nat
  /\ (forall v k, In (v, k) (color_preference filtered_df) ->
        (exists r, In r filtered_df /\ color r = v)
        /\ k = occurrences v (map color filtered_df))
  /\ exists rest,
      value_counts (map color filtered_df)
      = color_preference filtered_df ++ rest
      /\ forall a b, In a (color_preference filtered_df) -> In b rest ->
                     (snd b <= snd a)%nat.
Proof.
  unfold color_preference. split; [|split].
  - rewrite length_firstn. apply Nat.le_min_l.
  - intros v k H. apply In_firstn in H. apply value_counts_In in H.
    destruct H as [H ->]. split; [|reflexivity].
    apply in_map_iff in H. destruct H as (r & <- & Hr). eauto.
  - exists (skipn 10 (value_counts (map color filtered_df))).
    split; [symmetry; apply firstn_skipn|].
    apply (StronglySorted_firstn_skipn count_ge), sort_counts_sorted.
Qed.

(* ------------------------------------------------------------------ *)
(** * Further properties: deep dive *)

(** X15. The price-quality label depends on the strength of the
    correlation only, not on its direction, and a correlation that cannot
    be computed (the missing value) is labelled "Weak" and
    "Standard Feature" rather than raising. *)
Theorem correlation_labels :
  (forall corr, elasticity_msg (- corr) = elasticity_msg corr)
  /\ (forall corr, is_nan corr = true ->
        elasticity_msg corr = "Weak"%string
        /\ battery_msg corr = "Standard Feature"%string).
Proof.
  split.
  - intros corr. unfold elasticity_msg. rewrite abs_opp. reflexivity.
  - intros corr Hnan. unfold elasticity_msg, battery_msg.
    rewrite !(ltb_nan_r _ (abs corr) (abs_nan corr Hnan)),
      (ltb_nan_r _ corr Hnan). split; reflexivity.
Qed.

Lemma correlation_labels_witness :
  is_nan (0 / 0) = true
  /\ elasticity_msg (0 / 0) = "Weak"%string
  /\ battery_msg (0 / 0) = "Standard Feature"%string.
Proof.
  split; [reflexivity|].
  apply (proj2 correlation_labels). reflexivity.
Defined.

(** X16. In the gap analysis every opportunity is part of its market, so
    an opportunity score never exceeds the market size; the three markets
    (under 3000, 3000 to 8000, over 8000) split the rows that have a price,
    and on a filtered table, where every row has one, their sizes add up
    to the number of rows. *)
Theorem gap_analysis_counts (c : Controls) (df : list Row) :
  (forall seg, (opportunity_score seg df <= market_size seg df)%nat)
  /\ (market_size BudgetHighQuality df + market_size PremiumLongBattery df
      + market_size MidRangePopular df)%nat
     = List.length (dropna selling_price df)
  /\ (market_size BudgetHighQuality (apply_filters c df)
      + market_size PremiumLongBattery (apply_filters c df)
      + market_size MidRangePopular (apply_filters c df))%nat
     = List.length (apply_filters c df).
Proof.
  split; [|split].
  - intros seg. apply filter_length_le, opportunity_in_market.
  - apply market_sizes_sum.
  - rewrite market_sizes_sum. unfold dropna. f_equal.
    apply filter_all. intros r Hr.
    destruct (filtered_present c df r Hr) as [Hp _]. rewrite Hp. reflexivity.
Qed.

(* ------------------------------------------------------------------ *)
(** * Further properties: recommendation engine *)

(** X17. Whatever the six inputs are, a row is in the narrowed set exactly
    when it is a filtered row in the chosen budget bracket, of the preferred
    brand and device type (or no preference), rated and powered at least
    as asked; every recommended row is such a row, and at most five are
    recommended. *)
Theorem recommendations_honour_preferences
  (p : Preferences) (filtered_df : list Row) :
  (forall r,
      In r (narrow p filtered_df) <->
      In r filtered_df
      /\ in_budget (budget p) r = true
      /\ (preferred_brand p = no_preference
          \/ brand_name r = preferred_brand p)
      /\ (preferred_device_type p = no_preference
          \/ device_type r = preferred_device_type p)
      /\ (min_rating p <=? rating r) = true
      /\ (min_battery p <=? battery_life r) = true)
  /\ (forall recs,
      get_recommendations p filtered_df = RecommendationCards recs ->
      (List.length recs <= 5)%nat
      /\ forall r, In r recs -> In r (narrow p filtered_df)).
Proof.
  split; [intros r; apply narrow_spec|].
  intros recs. unfold get_recommendations.
  destruct (0 <? List.length (narrow p filtered_df))%nat; [|discriminate].
  intros H. injection H as <-. rewrite recommendations_nlargest. split.
  - rewrite nlargest_length. apply Nat.le_min_l.
  - intros r. apply nlargest_In.
Qed.

Lemma recommendations_honour_preferences_witness :
  exists recs,
    get_recommendations fitbit_preferences
      (apply_filters sample_controls (frame sample_csv))
    = RecommendationCards recs
    /\ map model_name recs = ["Charge 4"]%string
    /\ forall r, In r recs ->
         In r (narrow fitbit_preferences
                 (apply_filters sample_controls (frame sample_csv))).
Proof.
  eexists. split; [reflexivity|]. split; [reflexivity|].
  apply (proj2 (recommendations_honour_preferences fitbit_preferences
                  (apply_filters sample_controls (frame sample_csv)))).
  reflexivity.
Defined.

(** X18. The budget brackets of the engine and the price categories of
    the loader cut at the same prices and agree wherever a row has a
    category; they differ only at and under zero, where a row has no
    category but falls in the bracket "Budget (0-2K)". *)
Theorem brackets_match_categories (csv : list RawRow) :
  exists df,
    load_data csv = inr df
    /\ Forall (fun r =>
                 forall b,
                   in_budget b r = true
                   <-> price_category r = Some (category_of b)
                       \/ (b = Budget_0_2K
                           /\ (selling_price r <=? 0) = true)) df.
Proof.
  exists (frame csv). split; [apply load_data_frame|].
  apply Forall_forall. intros r Hr.
  apply frame_In in Hr. destruct Hr as (raw & _ & ->).
  intros b. apply bracket_category; reflexivity.
Qed.

(** X19. A row with a price is in exactly one budget bracket, and a row
    whose price is missing is in none: it can never be recommended. *)
Theorem one_budget_bracket (df : list Row) (r : Row) :
  In r df ->
  (is_nan (selling_price r) = false ->
   exists b, In r (budget_rows b df)
             /\ forall b', In r (budget_rows b' df) -> b' = b)
  /\ (is_nan (selling_price r) = true ->
      forall p recs,
        get_recommendations p df = RecommendationCards recs ->
        ~ In r recs).
Proof.
  intros Hin. split.
  - intros Hp. destruct (one_bracket r Hp) as (b & Hb & Huniq).
    exists b. split.
    + rewrite budget_rows_filter, filter_In. auto.
    + intros b' Hb'. rewrite budget_rows_filter, filter_In in Hb'.
      apply Huniq. tauto.
  - intros Hnan p recs Hrecs Hr.
    unfold get_recommendations in Hrecs.
    destruct (0 <? List.length (narrow p df))%nat; [|discriminate].
    injection Hrecs as <-. rewrite recommendations_nlargest in Hr.
    apply nlargest_In, narrow_spec in Hr. destruct Hr as (_ & Hb & _).
    rewrite (no_bracket (budget p) r Hnan) in Hb. discriminate.
Qed.

Lemma one_budget_bracket_witness :
  In (loaded sample_csv charge_4) (frame sample_csv)
  /\ is_nan (selling_price (loaded sample_csv charge_4)) = false
  /\ exists b, In (loaded sample_csv charge_4) (budget_rows b (frame sample_csv))
               /\ forall b', In (loaded sample_csv charge_4)
                               (budget_rows b' (frame sample_csv)) ->
                             b' = b.
Proof.
  assert (Hin : In (loaded sample_csv charge_4) (frame sample_csv))
    by (left; reflexivity).
  split; [exact Hin|]. split; [reflexivity|].
  apply (proj1 (one_budget_bracket (frame sample_csv) (loaded sample_csv charge_4)
                  Hin)).
  reflexivity.
Defined.

(** X20. The brand and device-type boxes of the engine offer
    "No Preference" and then each value of the filtered table once; as long
    as the filtered table has rows, every offered choice leaves at least
    one row after its own selection step. *)
Theorem preference_options_match_rows
  (col : Row -> string) (filtered_df : list Row) :
  (forall b, In b (preference_options col filtered_df)
             <-> b = no_preference
                 \/ exists r, In r filtered_df /\ col r = b)
  /\ NoDup (tl (preference_options col filtered_df))
  /\ (forall b, In b (preference_options col filtered_df) ->
                filtered_df <> [] ->
                select_eq col b filtered_df <> []).
Proof.
  assert (Hopt : forall b, In b (preference_options col filtered_df)
                           <-> b = no_preference
                               \/ exists r, In r filtered_df /\ col r = b).
  { intros b. unfold preference_options. simpl.
    rewrite unique_In, in_map_iff. split.
    - intros [H|(r & H & Hr)]; [left; auto|right; eauto].
    - intros [H|(r & Hr & H)]; [left; auto|right; eauto]. }
  split; [exact Hopt|]. split; [apply unique_NoDup|].
  intros b Hb Hne. rewrite select_eq_filter.
  apply Hopt in Hb. destruct Hb as [->|(r & Hr & <-)].
  - rewrite filter_all; [exact Hne|]. reflexivity.
  - intros Hnil.
    assert (H : In r (filter (prefers col (col r)) filtered_df)).
    { apply filter_In. split; [exact Hr|]. apply prefers_spec. auto. }
    rewrite Hnil in H. destruct H.
Qed.

Lemma preference_options_match_rows_witness :
  preference_options brand_name
    (apply_filters sample_controls (frame sample_csv))
  = ["No Preference"; "Fitbit"; "Garmin"; "Honor"]%string
  /\ select_eq brand_name "Honor"
       (apply_filters sample_controls (frame sample_csv)) <> [].
Proof.
  split; [reflexivity|].
  apply (proj2 (proj2 (preference_options_match_rows brand_name
                         (apply_filters sample_controls
                            (frame sample_csv))))).
  - right. right. right. left. reflexivity.
  - discriminate.
Defined.
